(** * The Copilot-agents installer (install_copilot_agents.py)

    A shallow embedding of [CopilotAgentInstaller] and [main].

    The program is a linear workflow over the file system, so the model is
    a state record ([world]: the file system together with the two mutable
    attributes of the installer and the trace of the run) threaded through
    functions that return a boolean, as the methods of the class do.  The
    bodies of the [try] blocks live in a state-and-exception monad [M]; an
    exception keeps the file-system changes made before it was raised.

    Modelling conventions:
    - the file system is a tree of regular files and directories; there are
      no symbolic links, permissions or I/O errors, so a library call raises
      exactly when the shape of the tree forces it to (missing parent,
      file where a directory is expected, and so on);
    - the target directory and the directory returned by [tempfile.mkdtemp]
      are two disjoint areas;
    - the clock, [mkdtemp], the network and the zip decoder are inputs of
      the run, gathered in the record [env]; the order in which a directory
      is listed is the file system's choice, so the entries of an archive
      come from [env] in the order in which the temporary directory lists
      them once they are extracted;
    - a directory is an association list: its order is the order in which
      [iterdir] lists it, and a lookup takes the first entry of a name. *)

From Stdlib Require Import String Ascii List Bool Arith Lia.
Import ListNotations.
Local Open Scope string_scope.
Local Open Scope list_scope.

(** ** Python string operations used on the URL *)

Module PyStr.

(** [s.rstrip(c)] for a one-character argument. *)
Fixpoint rstrip (c : ascii) (s : string) : string :=
match s with
| EmptyString => EmptyString
| String a s' =>
    match rstrip c s' with
    | EmptyString => if Ascii.eqb a c then EmptyString else String a EmptyString
    | r => String a r
    end
end.

(** [s.split(c)] for a one-character separator. *)
Fixpoint split (c : ascii) (s : string) : list string :=
match s with
| EmptyString => [EmptyString]
| String a s' =>
    if Ascii.eqb a c then EmptyString :: split c s'
    else match split c s' with
         | [] => [String a EmptyString]
         | w :: ws => String a w :: ws
         end
end.

(** [pat in s]. *)
Fixpoint contains (pat s : string) : bool :=
match s with
| EmptyString => String.prefix pat EmptyString
| String _ s' => String.prefix pat s || contains pat s'
end.

(** [c not in s]. *)
Fixpoint free_of (c : ascii) (s : string) : bool :=
match s with
| EmptyString => true
| String a s' => negb (Ascii.eqb a c) && free_of c s'
end.

(** [parts[-k]] for [1 <= k <= len(parts)]. *)
Definition from_end (k : nat) (parts : list string) : string :=
nth (length parts - k) parts EmptyString.

End PyStr.

(** ** The file system *)

#[warnings="-register-all"] Inductive node : Type :=
| File (data : string)
| Dir (entries : list (string * node)).

Definition listing := list (string * node).

Fixpoint assoc (x : string) (es : listing) : option node :=
  match es with
  | [] => None
  | (y, v) :: es' => if String.eqb x y then Some v else assoc x es'
  end.

(** Replace the first entry named [x], or add one at the end. *)
Fixpoint upsert (x : string) (v : node) (es : listing) : listing :=
  match es with
  | [] => [(x, v)]
  | (y, u) :: es' =>
      if String.eqb x y then (x, v) :: es' else (y, u) :: upsert x v es'
  end.

Definition remove_entry (x : string) (es : listing) : listing :=
  filter (fun e => negb (String.eqb x (fst e))) es.

(** What lives at the relative path [p] below [o]; [o = None] is a path
    that does not exist. *)
Fixpoint lookup (p : list string) (o : option node) : option node :=
  match p with
  | [] => o
  | x :: p' =>
      match o with
      | Some (Dir es) => lookup p' (assoc x es)
      | _ => None
      end
  end.

(** Make [v] the content of path [p] ([v = None] deletes it).  Every proper
    ancestor of [p] has to be an existing directory, otherwise the result is
    [None]. *)
Fixpoint store (p : list string) (v : option node) (o : option node)
  : option (option node) :=
  match p with
  | [] => Some v
  | x :: p' =>
      match o with
      | Some (Dir es) =>
          match store p' v (assoc x es) with
          | Some (Some c) => Some (Some (Dir (upsert x c es)))
          | Some None => Some (Some (Dir (remove_entry x es)))
          | None => None
          end
      | _ => None
      end
  end.

Inductive root : Type := TargetDir | TempDir.

Definition path : Type := (root * list string)%type.

Definition subpath (p : path) (name : string) : path :=
  (fst p, snd p ++ [name]).

Notation "p // s" := (subpath p s) (at level 40, left associativity).

Definition root_eqb (a b : root) : bool :=
  match a, b with
  | TargetDir, TargetDir | TempDir, TempDir => true
  | _, _ => false
  end.

Fixpoint names_eqb (p q : list string) : bool :=
  match p, q with
  | [], [] => true
  | x :: p', y :: q' => String.eqb x y && names_eqb p' q'
  | _, _ => false
  end.

Definition path_eqb (p q : path) : bool :=
  root_eqb (fst p) (fst q) && names_eqb (snd p) (snd q).

Definition basename (p : path) : string := last (snd p) EmptyString.

Definition parent (p : path) : path := (fst p, removelast (snd p)).

(** Two paths diverge when neither is a prefix of the other. *)
Fixpoint diverge (p q : list string) : bool :=
  match p, q with
  | x :: p', y :: q' => if String.eqb x y then diverge p' q' else true
  | _, _ => false
  end.

(** ** The trace of a run *)

Inductive step : Type :=
| ValidateTarget | CheckExisting | Backup | Fetch | Install | Rollback | Cleanup.

Inductive level : Type := LHeader | LSuccess | LWarning | LError | LInfo | LPlain.

(** One constructor for each message of the program (the texts themselves
    are not modelled). *)
Inductive msg : Type :=
| MsgInstallerHeader
| MsgDirNotFound | MsgNotADirectory | MsgValidDir
| MsgWillOverwrite | MsgAlreadyInstalled | MsgUseForceHint
| MsgBackupFile | MsgBackupDir | MsgBackupCreated | MsgBackupError
| MsgDownloadingFrom | MsgInvalidGithubUrl | MsgDownloading | MsgExtracting
| MsgDownloadDone | MsgDownloadError | MsgCheckUrlHint
| MsgNoDirInArchive | MsgInstalledMarker | MsgMarkerMissing
| MsgInstalledCopilot | MsgCopilotMissing | MsgInstalledReadme | MsgInstallError
| MsgTempRemoved | MsgTempNotRemoved
| MsgRestoring | MsgRestored | MsgRestoreError
| MsgBackupAbort | MsgInstallFailed
| MsgInstallDone | MsgNextSteps | MsgDocumentation | MsgBackupSavedAt.

(** Calls of the library functions that write to the file system. *)
Inductive fsop : Type :=
| OpMkdtemp
| OpMkdir (p : path)
| OpCopy2 (src dst : path)
| OpCopytree (src dst : path)
| OpRmtree (p : path)
| OpUrlretrieve (url : string) (dst : path)
| OpExtractall (dst : path).

Inductive event : Type :=
| Call (s : step)
| Ret (s : step) (r : option bool)
| Print (l : level) (m : msg)
| Op (o : fsop).

(** ** The state of a run *)

Record world : Type := mkWorld {
  fs_target : option node;      (* what lives at [self.target_dir] *)
  fs_temp : option node;        (* what lives at the path [mkdtemp] returns *)
  temp_dir : bool;              (* [self.temp_dir] is set *)
  backup_dir : option string;   (* name of [self.backup_dir] below the target *)
  events : list event           (* the trace, most recent event first *)
}.

Definition area (r : root) (w : world) : option node :=
  match r with
  | TargetDir => fs_target w
  | TempDir => fs_temp w
  end.

Definition set_area (r : root) (o : option node) (w : world) : world :=
  match r with
  | TargetDir => mkWorld o (fs_temp w) (temp_dir w) (backup_dir w) (events w)
  | TempDir => mkWorld (fs_target w) o (temp_dir w) (backup_dir w) (events w)
  end.

Definition set_temp_dir (b : bool) (w : world) : world :=
  mkWorld (fs_target w) (fs_temp w) b (backup_dir w) (events w).

Definition set_backup_dir (b : option string) (w : world) : world :=
  mkWorld (fs_target w) (fs_temp w) (temp_dir w) b (events w).

Definition log (e : event) (w : world) : world :=
  mkWorld (fs_target w) (fs_temp w) (temp_dir w) (backup_dir w) (e :: events w).

Definition wlookup (p : path) (w : world) : option node :=
  lookup (snd p) (area (fst p) w).

(** [Path.exists()] and [Path.is_dir()]. *)
Definition exists_ (p : path) (w : world) : bool :=
  match wlookup p w with Some _ => true | None => false end.

Definition is_dir (p : path) (w : world) : bool :=
  match wlookup p w with Some (Dir _) => true | _ => false end.

(** What the run takes from its environment. *)
Inductive download : Type :=
| Downloaded (zip : string)
| DownloadFailed (partial : option string).

Inductive unzip : Type :=
| Unzipped (members : listing)
| UnzipFailed (partial : listing).

Record env : Type := mkEnv {
  now : string;                       (* [datetime.now().strftime(...)] *)
  mkdtemp_ok : bool;                  (* [tempfile.mkdtemp()] succeeds *)
  urlopen : string -> download;       (* the answer to a GET of the URL *)
  zip_members : string -> unzip       (* top-level entries of a zip file,
                                         as [iterdir] lists them afterwards *)
}.

(** ** State and exceptions *)

Inductive exn : Type :=
| FileExistsError | FileNotFoundError | NotADirectoryError | IsADirectoryError
| SameFileError | AttributeError | OSError | URLError | BadZipFile.

Inductive result (A : Type) : Type :=
| Ok (a : A)
| Raise (e : exn).

Arguments Ok {A} a.
Arguments Raise {A} e.

Definition M (A : Type) : Type := world -> result A * world.

Definition ret {A} (a : A) : M A := fun w => (Ok a, w).

Definition raise {A} (e : exn) : M A := fun w => (Raise e, w).

Definition bind {A B} (m : M A) (k : A -> M B) : M B :=
  fun w =>
    match m w with
    | (Ok a, w') => k a w'
    | (Raise e, w') => (Raise e, w')
    end.

Declare Scope installer_scope.
Delimit Scope installer_scope with inst.
Notation "x <- m ;; k" := (bind m (fun x => k))
  (at level 61, m at next level, right associativity) : installer_scope.
Notation "m ;; k" := (bind m (fun _ => k))
  (at level 61, right associativity) : installer_scope.
Local Open Scope installer_scope.

(** [try: body / except Exception: handler]. *)
Definition try_except {A} (body : M A) (handler : exn -> world -> A * world)
  (w : world) : A * world :=
  match body w with
  | (Ok a, w') => (a, w')
  | (Raise e, w') => handler e w'
  end.

Definition get {A} (f : world -> A) : M A := fun w => (Ok (f w), w).

Definition modify (f : world -> world) : M unit := fun w => (Ok tt, f w).

Definition when (b : bool) (m : M unit) : M unit := if b then m else ret tt.

(** A method that returns a boolean, with its entry and exit in the trace. *)
Definition traced (s : step) (body : world -> bool * world) (w : world)
  : bool * world :=
  let '(r, w') := body (log (Call s) w) in (r, log (Ret s (Some r)) w').

(** A method that returns nothing. *)
Definition traced_unit (s : step) (body : world -> world) (w : world) : world :=
  log (Ret s None) (body (log (Call s) w)).

(** ** The printing helpers *)

Definition print (m : msg) : world -> world := log (Print LPlain m).
Definition print_header (m : msg) : world -> world := log (Print LHeader m).
Definition print_success (m : msg) : world -> world := log (Print LSuccess m).
Definition print_warning (m : msg) : world -> world := log (Print LWarning m).
Definition print_error (m : msg) : world -> world := log (Print LError m).
Definition print_info (m : msg) : world -> world := log (Print LInfo m).

(** ** The library calls that touch the file system *)

Definition say (l : level) (m : msg) : M unit := modify (log (Print l m)).

Definition wstore (p : path) (v : option node) (e : exn) : M unit :=
  fun w =>
    match store (snd p) v (area (fst p) w) with
    | Some o' => (Ok tt, set_area (fst p) o' w)
    | None => (Raise e, w)
    end.

(** [os.mkdir] that accepts an existing directory. *)
Definition mkdir_exist_ok (p : path) : M unit :=
  fun w =>
    match wlookup p w with
    | Some (Dir _) => (Ok tt, w)
    | Some (File _) => (Raise FileExistsError, w)
    | None => wstore p (Some (Dir [])) FileNotFoundError w
    end.

Fixpoint prefixes (p : list string) : list (list string) :=
  match p with
  | [] => []
  | x :: p' => [x] :: map (cons x) (prefixes p')
  end.

Fixpoint mkdir_each (r : root) (ps : list (list string)) : M unit :=
  match ps with
  | [] => ret tt
  | q :: ps' => mkdir_exist_ok (r, q) ;; mkdir_each r ps'
  end.

(** Create the missing ancestors of [p], then [p] itself. *)
Definition makedirs_exist_ok (p : path) : M unit :=
  mkdir_each (fst p) (prefixes (snd p)).

(** [Path.mkdir(exist_ok=True)] and [Path.mkdir(exist_ok=True, parents=True)]. *)
Definition mkdir (parents : bool) (p : path) : M unit :=
  modify (log (Op (OpMkdir p))) ;;
  if parents then makedirs_exist_ok p else mkdir_exist_ok p.

(** [shutil.copy2(src, dst)]: a destination that is a directory receives the
    file under the base name of the source; the source has to be a regular
    file and the parent of the destination has to exist. *)
Definition copy2 (src dst : path) : M unit :=
  modify (log (Op (OpCopy2 src dst))) ;;
  dst_is_dir <- get (is_dir dst) ;;
  let dst := if dst_is_dir then dst // basename src else dst in
  src_exists <- get (exists_ src) ;;
  if path_eqb src dst && src_exists then raise SameFileError else
  src_node <- get (wlookup src) ;;
  match src_node with
  | None => raise FileNotFoundError
  | Some (Dir _) => raise IsADirectoryError
  | Some (File data) =>
      dst_is_dir <- get (is_dir dst) ;;
      if dst_is_dir then raise IsADirectoryError
      else wstore dst (Some (File data)) FileNotFoundError
  end.

(** [shutil.copytree(src, dst)]: the source has to be a directory and the
    destination must not exist; missing ancestors of the destination are
    created. *)
Definition copytree (src dst : path) : M unit :=
  modify (log (Op (OpCopytree src dst))) ;;
  src_node <- get (wlookup src) ;;
  match src_node with
  | None => raise FileNotFoundError
  | Some (File _) => raise NotADirectoryError
  | Some (Dir es) =>
      dst_exists <- get (exists_ dst) ;;
      if dst_exists then raise FileExistsError
      else makedirs_exist_ok (parent dst) ;;
           wstore dst (Some (Dir es)) NotADirectoryError
  end.

(** [shutil.rmtree(p)]: [p] has to be a directory. *)
Definition rmtree (p : path) : M unit :=
  modify (log (Op (OpRmtree p))) ;;
  p_node <- get (wlookup p) ;;
  match p_node with
  | None => raise FileNotFoundError
  | Some (File _) => raise NotADirectoryError
  | Some (Dir _) => wstore p None FileNotFoundError
  end.

(** [[d for d in p.iterdir() if d.is_dir()]]. *)
Definition iterdir_dirs (p : path) : M (list path) :=
  p_node <- get (wlookup p) ;;
  match p_node with
  | None => raise FileNotFoundError
  | Some (File _) => raise NotADirectoryError
  | Some (Dir es) =>
      w <- get (fun w => w) ;;
      ret (filter (fun d => is_dir d w) (map (fun e => p // fst e) es))
  end.

Definition target_dir : path := (TargetDir, []).
Definition temp_path : path := (TempDir, []).

(** [tempfile.mkdtemp()]: a new empty directory. *)
Definition mkdtemp (e : env) : M unit :=
  modify (log (Op OpMkdtemp)) ;;
  if mkdtemp_ok e then modify (set_area TempDir (Some (Dir [])))
  else raise OSError.

(** [urllib.request.urlretrieve(url, dst)]. *)
Definition urlretrieve (e : env) (url : string) (dst : path) : M unit :=
  modify (log (Op (OpUrlretrieve url dst))) ;;
  match urlopen e url with
  | Downloaded zip => wstore dst (Some (File zip)) FileNotFoundError
  | DownloadFailed None => raise URLError
  | DownloadFailed (Some part) =>
      wstore dst (Some (File part)) FileNotFoundError ;; raise URLError
  end.

(** The entries of an archive written into a directory that lists [es].
    An entry whose name is new is added.  A directory cannot take the place
    of a regular file ([mkdir] raises), nor a regular file that of a
    directory ([open] raises): the extraction stops there, with the entries
    written so far.  A regular file is written over a regular file of its
    name; a directory takes the place of a directory of its name, which
    does not arise when the names of the entries are distinct and the
    destination is the directory that [mkdtemp] has just made (it holds
    nothing but the zip file). *)
Fixpoint extract_members (members es : listing) : listing * option exn :=
  match members with
  | [] => (es, None)
  | m :: members' =>
      match assoc (fst m) es, snd m with
      | Some (File _), Dir _ => (es, Some FileExistsError)
      | Some (Dir _), File _ => (es, Some IsADirectoryError)
      | _, _ => extract_members members' (upsert (fst m) (snd m) es)
      end
  end.

Definition extract_into (members : listing) (o : option node) : option node :=
  match o with
  | Some (Dir es) => Some (Dir (fst (extract_members members es)))
  | _ => o
  end.

(** The exception that stops the extraction, if any. *)
Definition extract_error (members : listing) (o : option node) : option exn :=
  match o with
  | Some (Dir es) => snd (extract_members members es)
  | _ => None
  end.

(** [zipfile.ZipFile(zip_path).extractall(dst)].  Whether the zip file can
    be read to its end is the answer of [zip_members]; whether its entries
    can be written depends on what the destination holds. *)
Definition extractall (e : env) (zip_path dst : path) : M unit :=
  modify (log (Op (OpExtractall dst))) ;;
  zip_node <- get (wlookup zip_path) ;;
  match zip_node with
  | None => raise FileNotFoundError
  | Some (Dir _) => raise IsADirectoryError
  | Some (File zip) =>
      match zip_members e zip with
      | Unzipped members =>
          stopped <- get (fun w => extract_error members (area (fst dst) w)) ;;
          modify (fun w => set_area (fst dst) (extract_into members (area (fst dst) w)) w) ;;
          match stopped with
          | Some ex => raise ex
          | None => ret tt
          end
      | UnzipFailed part =>
          modify (fun w => set_area (fst dst) (extract_into part (area (fst dst) w)) w) ;;
          raise BadZipFile
      end
  end.

(** ** CopilotAgentInstaller *)

(** The attributes set by [__init__] that never change.  [self.target_dir]
    is the root of the area [TargetDir]. *)
Record installer : Type := mkInstaller {
  github_url : string;
  force : bool;
  backup : bool
}.

(** The state [__init__] leaves: [temp_dir] and [backup_dir] are [None]. *)
Definition init_world (target : option node) : world :=
  mkWorld target None false None [].

Definition validate_target : world -> bool * world :=
  traced ValidateTarget (fun w =>
    if negb (exists_ target_dir w) then
      (false, print_error MsgDirNotFound w)
    else if negb (is_dir target_dir w) then
      (false, print_error MsgNotADirectory w)
    else
      (true, print_success MsgValidDir w)).

Definition check_existing_installation (self : installer) : world -> bool * world :=
  traced CheckExisting (fun w =>
    let copilot_file := target_dir // ".github" // "copilot-instructions.md" in
    let copilot_dir := target_dir // ".copilot" in
    let already := exists_ copilot_file w || exists_ copilot_dir w in
    if already then
      if force self then
        (true, print_warning MsgWillOverwrite w)
      else
        (false, print_info MsgUseForceHint (print_error MsgAlreadyInstalled w))
    else (true, w)).

Definition backup_name (timestamp : string) : string :=
  ".copilot_backup_" ++ timestamp.

Definition create_backup (e : env) (self : installer) : world -> bool * world :=
  traced Backup (fun w =>
    if negb (backup self) then (true, w) else
    let timestamp := now e in
    let w := set_backup_dir (Some (backup_name timestamp)) w in
    let backup_dir := target_dir // backup_name timestamp in
    try_except
      (mkdir false backup_dir ;;
       let copilot_file := target_dir // ".github" // "copilot-instructions.md" in
       file_exists <- get (exists_ copilot_file) ;;
       when file_exists
         (copy2 copilot_file (backup_dir // "copilot-instructions.md") ;;
          say LSuccess MsgBackupFile) ;;
       let copilot_dir := target_dir // ".copilot" in
       dir_exists <- get (exists_ copilot_dir) ;;
       when dir_exists
         (copytree copilot_dir (backup_dir // ".copilot") ;;
          say LSuccess MsgBackupDir) ;;
       say LSuccess MsgBackupCreated ;;
       ret true)
      (fun _ w => (false, print_error MsgBackupError w))
      w).

Definition archive_url (user repo : string) : string :=
  "https://github.com/" ++ user ++ "/" ++ repo ++ "/archive/refs/heads/main.zip".

(** The URL that [download_from_github] hands to [urlretrieve]; [None] is
    the branch that reports an invalid GitHub URL and returns [False]. *)
Definition download_url (github_url : string) : option string :=
  if PyStr.contains "github.com" github_url then
    let parts := PyStr.split "/" (PyStr.rstrip "/" github_url) in
    if Nat.leb 2 (length parts) then
      let user := PyStr.from_end 2 parts in
      let repo := PyStr.from_end 1 parts in
      Some (archive_url user repo)
    else None
  else Some github_url.

Definition download_from_github (e : env) (self : installer) : world -> bool * world :=
  traced Fetch (fun w =>
    let w := print_info MsgDownloadingFrom w in
    try_except
      (mkdtemp e ;;
       modify (set_temp_dir true) ;;
       let zip_path := temp_path // "repo.zip" in
       match download_url (github_url self) with
       | None => say LError MsgInvalidGithubUrl ;; ret false
       | Some url =>
           say LInfo MsgDownloading ;;
           urlretrieve e url zip_path ;;
           say LInfo MsgExtracting ;;
           extractall e zip_path temp_path ;;
           say LSuccess MsgDownloadDone ;;
           ret true
       end)
      (fun _ w => (false, print_info MsgCheckUrlHint (print_error MsgDownloadError w)))
      w).

(** The three parts of [install_files], in the order of the source. *)
Definition install_marker (source_dir : path) : M unit :=
  let source_file := source_dir // "copilot-instructions.md" in
  source_exists <- get (exists_ source_file) ;;
  if source_exists then
    let github_dir := target_dir // ".github" in
    mkdir false github_dir ;;
    let dest_file := github_dir // "copilot-instructions.md" in
    copy2 source_file dest_file ;;
    say LSuccess MsgInstalledMarker
  else say LWarning MsgMarkerMissing.

(** The count of agent files in the message is only displayed;
    [Path.glob] does not raise on a path that is not a directory. *)
Definition install_copilot (source_dir : path) : M unit :=
  let source_copilot := source_dir // ".copilot" in
  source_exists <- get (exists_ source_copilot) ;;
  if source_exists then
    let dest_copilot := target_dir // ".copilot" in
    dest_exists <- get (exists_ dest_copilot) ;;
    when dest_exists (rmtree dest_copilot) ;;
    copytree source_copilot dest_copilot ;;
    say LSuccess MsgInstalledCopilot
  else say LWarning MsgCopilotMissing.

Definition install_readme (source_dir : path) : M unit :=
  let source_readme := source_dir // "README.md" in
  source_exists <- get (exists_ source_readme) ;;
  when source_exists
    (let dest_readme := target_dir // ".copilot" // "README.md" in
     mkdir true (parent dest_readme) ;;
     copy2 source_readme dest_readme ;;
     say LSuccess MsgInstalledReadme).

Definition install_body : M bool :=
  has_temp <- get temp_dir ;;
  if negb has_temp then raise AttributeError else
  extracted_dirs <- iterdir_dirs temp_path ;;
  match extracted_dirs with
  | [] => say LError MsgNoDirInArchive ;; ret false
  | source_dir :: _ =>
      install_marker source_dir ;;
      install_copilot source_dir ;;
      install_readme source_dir ;;
      ret true
  end.

Definition install_files : world -> bool * world :=
  traced Install
    (try_except install_body
       (fun _ w => (false, print_error MsgInstallError w))).

Definition cleanup : world -> world :=
  traced_unit Cleanup (fun w =>
    if temp_dir w && exists_ temp_path w then
      snd (try_except
             (rmtree temp_path ;; say LInfo MsgTempRemoved)
             (fun _ w => (tt, print_warning MsgTempNotRemoved w))
             w)
    else w).

Definition rollback : world -> world :=
  traced_unit Rollback (fun w =>
    match backup_dir w with
    | None => w
    | Some name =>
        let backup_dir := target_dir // name in
        if negb (exists_ backup_dir w) then w else
        let w := print_warning MsgRestoring w in
        snd (try_except
               (let backup_file := backup_dir // "copilot-instructions.md" in
                file_exists <- get (exists_ backup_file) ;;
                when file_exists
                  (let dest := target_dir // ".github" // "copilot-instructions.md" in
                   copy2 backup_file dest) ;;
                let backup_copilot := backup_dir // ".copilot" in
                dir_exists <- get (exists_ backup_copilot) ;;
                when dir_exists
                  (let dest_copilot := target_dir // ".copilot" in
                   dest_exists <- get (exists_ dest_copilot) ;;
                   when dest_exists (rmtree dest_copilot) ;;
                   copytree backup_copilot dest_copilot) ;;
                say LSuccess MsgRestored)
               (fun _ w => (tt, print_error MsgRestoreError w))
               w)
    end).

Definition print_post_install (w : world) : world :=
  let w := print_header MsgInstallDone w in
  let w := print MsgNextSteps w in
  let w := print MsgDocumentation w in
  match backup_dir w with
  | Some _ => print MsgBackupSavedAt w
  | None => w
  end.

Definition install (e : env) (self : installer) (w : world) : bool * world :=
  let w := print_header MsgInstallerHeader w in
  let '(ok, w) := validate_target w in
  if negb ok then (false, w) else
  let '(ok, w) := check_existing_installation self w in
  if negb ok then (false, w) else
  let '(ok, w) := create_backup e self w in
  if negb ok then (false, print_error MsgBackupAbort w) else
  let '(ok, w) := download_from_github e self w in
  if negb ok then (false, cleanup w) else
  let '(ok, w) := install_files w in
  if negb ok then
    (false, cleanup (rollback (print_error MsgInstallFailed w)))
  else
    let w := cleanup w in
    (true, print_post_install w).

(** [main]: the installer is built from the parsed arguments, the file
    system is as it is found, and the exit code is 0 on success, 1 otherwise. *)
Definition main (e : env) (args : installer) (target : option node) : nat * world :=
  let '(success, w) := install e args (init_world target) in
  (if success then 0 else 1, w).

(** ** Reading a trace *)

Definition history (w : world) : list event := rev (events w).

Definition is_op (e : event) : bool :=
  match e with Op _ => true | _ => false end.

(** The calls that write to the file system, most recent first. *)
Definition ops (w : world) : list event := filter is_op (events w).

Definition is_print (e : event) : bool :=
  match e with Print _ _ => true | _ => false end.

Definition prints (w : world) : list event := filter is_print (events w).

Definition is_control (e : event) : bool :=
  match e with Call _ | Ret _ _ => true | _ => false end.

(** The entries and exits of the methods, most recent first. *)
Definition steps (w : world) : list event := filter is_control (events w).

(** The URLs handed to [urlretrieve], most recent first. *)
Definition requested_urls (w : world) : list string :=
  flat_map (fun e => match e with Op (OpUrlretrieve u _) => [u] | _ => [] end)
           (events w).

(** Two states that differ only by what was printed. *)
Definition same_state (w w' : world) : Prop :=
  fs_target w' = fs_target w /\ fs_temp w' = fs_temp w /\
  temp_dir w' = temp_dir w /\ backup_dir w' = backup_dir w /\
  ops w' = ops w.

(** ** Relations between the state before and after a computation *)

(** Whatever the outcome of [m], the state it leaves is related by [R] to
    the state it started from. *)
Definition respects (R : world -> world -> Prop) {A} (m : M A) : Prop :=
  forall w, R w (snd (m w)).

(** Storing [v] at [p] in [w] is a step of [R]. *)
Definition store_ok (R : world -> world -> Prop)
  (p : path) (v : option node) (w : world) : Prop :=
  forall o', store (snd p) v (area (fst p) w) = Some o' ->
             R w (set_area (fst p) o' w).

(** The relations used below: preorders that ignore what is printed and
    which library calls were made. *)
Class Stepwise (R : world -> world -> Prop) : Prop := {
  rel_refl : forall w, R w w;
  rel_trans : forall a b c, R a b -> R b c -> R a c;
  rel_log : forall e w, is_control e = false -> R w (log e w)
}.

(** Relations that ignore the temporary directory. *)
Class TempFree (R : world -> world -> Prop) : Prop :=
  rel_temp : forall o w, R w (set_area TempDir o w).

(** The methods entered and left are the same. *)
Definition same_steps (w w' : world) : Prop := steps w' = steps w.

(** ** The workflow *)

(** How a run ends: the step that failed, or success. *)
Inductive outcome : Type :=
| InvalidTarget | Conflict | BackupFailed | FetchFailed | InstallFailed | Installed.

Definition succeeded (o : outcome) : bool :=
  match o with Installed => true | _ => false end.

Definition passed (s : step) : list event := [Call s; Ret s (Some true)].
Definition failed (s : step) : list event := [Call s; Ret s (Some false)].
Definition ran (s : step) : list event := [Call s; Ret s None].

(** The methods entered and left along each way through [install], in
    chronological order. *)
Definition flow (o : outcome) : list event :=
  match o with
  | InvalidTarget => failed ValidateTarget
  | Conflict => passed ValidateTarget ++ failed CheckExisting
  | BackupFailed =>
      passed ValidateTarget ++ passed CheckExisting ++ failed Backup
  | FetchFailed =>
      passed ValidateTarget ++ passed CheckExisting ++ passed Backup ++
      failed Fetch ++ ran Cleanup
  | InstallFailed =>
      passed ValidateTarget ++ passed CheckExisting ++ passed Backup ++
      passed Fetch ++ failed Install ++ ran Rollback ++ ran Cleanup
  | Installed =>
      passed ValidateTarget ++ passed CheckExisting ++ passed Backup ++
      passed Fetch ++ passed Install ++ ran Cleanup
  end.

(** The ways through [install], with the state each method returned. *)
Inductive run (e : env) (self : installer) (w0 : world) : outcome -> world -> Prop :=
| run_invalid w1 :
    validate_target (print_header MsgInstallerHeader w0) = (false, w1) ->
    run e self w0 InvalidTarget w1
| run_conflict w1 w2 :
    validate_target (print_header MsgInstallerHeader w0) = (true, w1) ->
    check_existing_installation self w1 = (false, w2) ->
    run e self w0 Conflict w2
| run_backup_failed w1 w2 w3 :
    validate_target (print_header MsgInstallerHeader w0) = (true, w1) ->
    check_existing_installation self w1 = (true, w2) ->
    create_backup e self w2 = (false, w3) ->
    run e self w0 BackupFailed (print_error MsgBackupAbort w3)
| run_fetch_failed w1 w2 w3 w4 :
    validate_target (print_header MsgInstallerHeader w0) = (true, w1) ->
    check_existing_installation self w1 = (true, w2) ->
    create_backup e self w2 = (true, w3) ->
    download_from_github e self w3 = (false, w4) ->
    run e self w0 FetchFailed (cleanup w4)
| run_install_failed w1 w2 w3 w4 w5 :
    validate_target (print_header MsgInstallerHeader w0) = (true, w1) ->
    check_existing_installation self w1 = (true, w2) ->
    create_backup e self w2 = (true, w3) ->
    download_from_github e self w3 = (true, w4) ->
    install_files w4 = (false, w5) ->
    run e self w0 InstallFailed
      (cleanup (rollback (print_error MsgInstallFailed w5)))
| run_installed w1 w2 w3 w4 w5 :
    validate_target (print_header MsgInstallerHeader w0) = (true, w1) ->
    check_existing_installation self w1 = (true, w2) ->
    create_backup e self w2 = (true, w3) ->
    download_from_github e self w3 = (true, w4) ->
    install_files w4 = (true, w5) ->
    run e self w0 Installed (print_post_install (cleanup w5)).

(** Only the temporary directory may have changed. *)
Definition only_temp (w w' : world) : Prop :=
  fs_target w' = fs_target w /\ backup_dir w' = backup_dir w.

(** [self.backup_dir] is what it was. *)
Definition keeps_backup_dir (w w' : world) : Prop :=
  backup_dir w' = backup_dir w.

(** In the target, only the entries [names] of the root may have changed,
    the root is still a directory if it was one, and the temporary
    directory is untouched. *)
Definition touches (names : list string) (w w' : world) : Prop :=
  fs_temp w' = fs_temp w /\ temp_dir w' = temp_dir w /\
  ((exists es, fs_target w = Some (Dir es)) ->
   (exists es', fs_target w' = Some (Dir es'))) /\
  forall x q, ~ In x names ->
    lookup (x :: q) (fs_target w') = lookup (x :: q) (fs_target w).

(** The temporary directory is absent, or it is a directory that
    [self.temp_dir] names. *)
Definition temp_tidy (w : world) : Prop :=
  fs_temp w = None \/
  (temp_dir w = true /\ exists es, fs_temp w = Some (Dir es)).

(** Relations that ignore the trace altogether. *)
Class Quiet (R : world -> world -> Prop) : Prop :=
  rel_quiet : forall e w, R w (log e w).

(** What [create_backup] saves from a target whose root lists [es]. *)
Definition saved_marker (es : listing) : listing :=
  match lookup [".github"; "copilot-instructions.md"] (Some (Dir es)) with
  | Some (File d) => [("copilot-instructions.md", File d)]
  | _ => []
  end.

Definition saved_copilot (es : listing) : listing :=
  match assoc ".copilot" es with
  | Some (Dir c) => [(".copilot", Dir c)]
  | _ => []
  end.

Definition saved (es : listing) : listing := saved_marker es ++ saved_copilot es.

(** ** Sample inputs *)

Module Sample.

Definition clock : string := "20260101_120000".

Definition repo : string := "https://github.com/user/copilot-agents".

(** An archive with the marker file, the [.copilot] directory holding two
    agents, and a readme, all inside one top-level directory. *)
Definition bundle : listing :=
  [("copilot-agents-main",
    Dir [("copilot-instructions.md", File "new instructions");
         (".copilot",
          Dir [("agents", Dir [("a.md", File "agent a"); ("b.md", File "agent b")])]);
         ("README.md", File "readme")])].

(** An archive in which [.copilot] is a regular file: [copytree] raises
    on it after the marker file was installed. *)
Definition broken : listing :=
  [("copilot-agents-main",
    Dir [("copilot-instructions.md", File "new instructions");
         (".copilot", File "not a directory")])].


(** An archive of a repository that only has a readme. *)
Definition readme_only : listing :=
  [("docs-main", Dir [("README.md", File "readme")])].

(** A network that serves an archive with the given members. *)
Definition online (members : listing) : env :=
  mkEnv clock true (fun _ => Downloaded "PK") (fun _ => Unzipped members).

(** A network that is down. *)
Definition offline : env :=
  mkEnv clock true (fun _ => DownloadFailed None) (fun _ => Unzipped []).

(** A project that already has an installation. *)
Definition installed : node :=
  Dir [("main.py", File "print(1)");
       (".github", Dir [("copilot-instructions.md", File "old instructions")]);
       (".copilot", Dir [("agents", Dir [("old.md", File "old agent")])])].

(** A project without one. *)
Definition plain : node := Dir [("main.py", File "print(1)")].

End Sample.

(** The directories at the top of the temporary directory, in the order
    [iterdir] lists them; the first one is the [source_dir] of
    [install_files]. *)
Definition extracted_dirs (w : world) : list path :=
  match fs_temp w with
  | Some (Dir es) => filter (fun d => is_dir d w) (map (fun e => temp_path // fst e) es)
  | _ => []
  end.

(** Below [.copilot], only the entry [README.md] may have changed. *)
Definition keeps_copilot_entries (w w' : world) : Prop :=
  forall x q, x <> "README.md" ->
    lookup (".copilot" :: x :: q) (fs_target w') =
    lookup (".copilot" :: x :: q) (fs_target w).

(** A marker that is a regular file stays one, and [.copilot] stays absent
    or a directory if it was. *)
Definition marker_is_file (o : option node) : Prop :=
  exists d, lookup [".github"; "copilot-instructions.md"] o = Some (File d).

Definition copilot_dir_or_absent (o : option node) : Prop :=
  lookup [".copilot"] o = None \/ exists c, lookup [".copilot"] o = Some (Dir c).

Definition inst_shape (w w' : world) : Prop :=
  (marker_is_file (fs_target w) -> marker_is_file (fs_target w')) /\
  (copilot_dir_or_absent (fs_target w) -> copilot_dir_or_absent (fs_target w')).

(** No name occurs twice. *)
Fixpoint distinct (names : list string) : bool :=
  match names with
  | [] => true
  | x :: names' => negb (existsb (String.eqb x) names') && distinct names'
  end.

(** The state of the temporary directory after a fetch that succeeded
    (the entries of the archive are listed as [zip_members] gives them):
    the zip file and, beside it, the members of the archive. *)
Definition staged (zip : string) (members : listing) : world :=
  mkWorld None (extract_into members (Some (Dir [("repo.zip", File zip)])))
    true None [].

(** Below [.github], only the entry [copilot-instructions.md] may have
    changed. *)
Definition keeps_github_entries (w w' : world) : Prop :=
  forall x q, x <> "copilot-instructions.md" ->
    lookup (".github" :: x :: q) (fs_target w') =
    lookup (".github" :: x :: q) (fs_target w).

(** [not d.is_dir()] for an entry of a listing. *)
Definition is_file_entry (m : string * node) : bool :=
  match snd m with File _ => true | Dir _ => false end.

(** The entry [x] of the target is still a directory if it was one. *)
Definition stays_dir (x : string) (w w' : world) : Prop :=
  (exists c, lookup [x] (fs_target w) = Some (Dir c)) ->
  exists c', lookup [x] (fs_target w') = Some (Dir c').

(** * Properties *)

(** ** Association lists *)

Lemma assoc_upsert_eq x v es : assoc x (upsert x v es) = Some v.
Proof.
  induction es as [|[y u] es IH]; simpl.
  - now rewrite String.eqb_refl.
  - destruct (String.eqb x y) eqn:E; simpl.
    + now rewrite String.eqb_refl.
    + now rewrite E.
Qed.

Lemma assoc_upsert_neq x y v es :
  String.eqb y x = false -> assoc y (upsert x v es) = assoc y es.
Proof.
  intros N. induction es as [|[z u] es IH]; simpl.
  - now rewrite N.
  - destruct (String.eqb x z) eqn:E; simpl.
    + apply String.eqb_eq in E; subst z. now rewrite N.
    + now rewrite IH.
Qed.

Lemma assoc_remove_eq x es : assoc x (remove_entry x es) = None.
Proof.
  induction es as [|[y u] es IH]; simpl; auto.
  destruct (String.eqb x y) eqn:E; simpl; auto. now rewrite E.
Qed.

Lemma assoc_remove_neq x y es :
  String.eqb y x = false -> assoc y (remove_entry x es) = assoc y es.
Proof.
  intros N. induction es as [|[z u] es IH]; simpl; auto.
  destruct (String.eqb x z) eqn:E; simpl.
  - apply String.eqb_eq in E; subst z. now rewrite N.
  - now rewrite IH.
Qed.

Lemma upsert_absent x v es :
  assoc x es = None -> upsert x v es = es ++ [(x, v)].
Proof.
  induction es as [|[y u] es IH]; simpl; auto.
  destruct (String.eqb x y); [discriminate|]. intros H. now rewrite IH.
Qed.

Lemma upsert_last x u v es :
  assoc x es = None -> upsert x v (es ++ [(x, u)]) = es ++ [(x, v)].
Proof.
  induction es as [|[y t] es IH]; simpl.
  - now rewrite String.eqb_refl.
  - destruct (String.eqb x y); [discriminate|]. intros H. now rewrite IH.
Qed.

Lemma assoc_last_eq x v es :
  assoc x es = None -> assoc x (es ++ [(x, v)]) = Some v.
Proof.
  induction es as [|[y t] es IH]; simpl.
  - now rewrite String.eqb_refl.
  - destruct (String.eqb x y); [discriminate|]. auto.
Qed.

Lemma assoc_last_neq x y v es :
  String.eqb y x = false -> assoc y (es ++ [(x, v)]) = assoc y es.
Proof.
  intros N. induction es as [|[z t] es IH]; simpl.
  - now rewrite N.
  - now rewrite IH.
Qed.

Lemma upsert_same x v es : assoc x es = Some v -> upsert x v es = es.
Proof.
  induction es as [|[y u] es IH]; simpl; [discriminate|].
  destruct (String.eqb x y) eqn:E.
  - apply String.eqb_eq in E; subst y. now intros [= ->].
  - intros H. now rewrite IH.
Qed.

Lemma upsert_upsert x u v es : upsert x v (upsert x u es) = upsert x v es.
Proof.
  induction es as [|[y t] es IH]; simpl.
  - now rewrite String.eqb_refl.
  - destruct (String.eqb x y) eqn:E; simpl.
    + now rewrite String.eqb_refl.
    + now rewrite E, IH.
Qed.

(** ** Paths *)

Lemma lookup_none p : lookup p None = None.
Proof. now destruct p. Qed.

Lemma lookup_file p d : p <> [] -> lookup p (Some (File d)) = None.
Proof. intros H. destruct p; [congruence | reflexivity]. Qed.

Lemma lookup_store_eq p : forall v o o',
  store p v o = Some o' -> lookup p o' = v.
Proof.
  induction p as [|x p IH]; simpl; intros v o o' H.
  - congruence.
  - destruct o as [[d|es]|]; try discriminate.
    destruct (store p v (assoc x es)) as [[c|]|] eqn:S; inversion H; subst; clear H.
    + rewrite assoc_upsert_eq. eauto.
    + rewrite assoc_remove_eq. eauto.
Qed.

Lemma lookup_store_diverge p : forall q v o o',
  diverge p q = true -> store p v o = Some o' -> lookup q o' = lookup q o.
Proof.
  induction p as [|x p IH]; simpl; intros q v o o' D H; [discriminate|].
  destruct q as [|y q]; [discriminate|].
  destruct o as [[d|es]|]; try discriminate.
  simpl. destruct (String.eqb x y) eqn:E.
  - apply String.eqb_eq in E; subst y.
    destruct (store p v (assoc x es)) as [[c|]|] eqn:S; inversion H; subst; clear H.
    + rewrite assoc_upsert_eq. eapply (IH q) in S; eauto.
    + rewrite assoc_remove_eq. eapply (IH q) in S; eauto.
  - assert (N : String.eqb y x = false) by (now rewrite String.eqb_sym).
    destruct (store p v (assoc x es)) as [[c|]|] eqn:S; inversion H; subst; clear H.
    + now rewrite assoc_upsert_neq.
    + now rewrite assoc_remove_neq.
Qed.

(** A store below the root leaves the root a directory. *)
Lemma store_keeps_dir x p v o o' :
  store (x :: p) v o = Some o' ->
  (exists es, o = Some (Dir es)) /\ (exists es', o' = Some (Dir es')).
Proof.
  simpl. destruct o as [[d|es]|]; try discriminate.
  destruct (store p v (assoc x es)) as [[c|]|]; intros [= <-]; eauto.
Qed.

Lemma lookup_store_above x y p v o o' :
  store (x :: y :: p) v o = Some o' ->
  exists es', lookup [x] o' = Some (Dir es').
Proof.
  intros H. simpl in H. destruct o as [[d|es]|]; try discriminate.
  destruct (assoc x es) as [[d|cs]|] eqn:A; try discriminate.
  destruct (store p v (assoc y cs)) as [[c|]|]; inversion H; subst; simpl;
    rewrite assoc_upsert_eq; eauto.
Qed.

(** ** validate_target and check_existing_installation *)

(** C6: a target path that does not exist, or that is a regular file, makes
    the run fail with exit code 1 before any call that writes to the file
    system: nothing is created in the target, no backup directory and no
    temporary directory. *)
Theorem invalid_target_no_writes e args target :
  target = None \/ (exists d, target = Some (File d)) ->
  fst (install e args (init_world target)) = false /\
  fst (main e args target) = 1 /\
  ops (snd (main e args target)) = [] /\
  fs_target (snd (main e args target)) = target /\
  fs_temp (snd (main e args target)) = None /\
  backup_dir (snd (main e args target)) = None.
Proof.
  intros [-> | [d ->]]; repeat split; reflexivity.
Qed.

Lemma invalid_target_no_writes_witness :
  fst (main (mkEnv "20260101_120000" true (fun _ => Downloaded "zip")
              (fun _ => Unzipped []))
         (mkInstaller "https://github.com/user/repo" true true)
         (Some (File "not a directory"))) = 1.
Proof.
  apply (invalid_target_no_writes
           (mkEnv "20260101_120000" true (fun _ => Downloaded "zip")
              (fun _ => Unzipped []))
           (mkInstaller "https://github.com/user/repo" true true)
           (Some (File "not a directory"))).
  right. exists "not a directory". reflexivity.
Defined.

Lemma lookup_below_dir x p o :
  lookup (x :: p) o <> None -> exists es, o = Some (Dir es).
Proof.
  destruct o as [[d|es]|]; simpl; try congruence. eauto.
Qed.

(** C5: with the marker file or the [.copilot] directory present and
    [force] unset, the run fails with exit code 1, no call that writes to
    the file system is made and the target tree is what it was. *)
Theorem existing_installation_blocks e args target :
  force args = false ->
  lookup [".github"; "copilot-instructions.md"] target <> None \/
  lookup [".copilot"] target <> None ->
  fst (main e args target) = 1 /\
  ops (snd (main e args target)) = [] /\
  fs_target (snd (main e args target)) = target /\
  fs_temp (snd (main e args target)) = None.
Proof.
  intros F H.
  assert (D : exists es, target = Some (Dir es))
    by (destruct H as [H|H]; eapply lookup_below_dir; eauto).
  destruct D as [es ->].
  assert (X : exists_ (target_dir // ".github" // "copilot-instructions.md")
                (log (Call CheckExisting)
                   (log (Ret ValidateTarget (Some true))
                      (print_success MsgValidDir
                         (log (Call ValidateTarget)
                            (print_header MsgInstallerHeader
                               (init_world (Some (Dir es)))))))) ||
              exists_ (target_dir // ".copilot")
                (log (Call CheckExisting)
                   (log (Ret ValidateTarget (Some true))
                      (print_success MsgValidDir
                         (log (Call ValidateTarget)
                            (print_header MsgInstallerHeader
                               (init_world (Some (Dir es)))))))) = true).
  { unfold exists_, wlookup; cbn [fst snd area log print_success print_header
      init_world fs_target target_dir subpath app].
    destruct H as [H|H].
    - destruct (lookup _ _); [reflexivity | congruence].
    - destruct (lookup [".copilot"] _); [apply orb_true_r | congruence]. }
  unfold main, install, validate_target, check_existing_installation, traced.
  cbn [exists_ is_dir wlookup target_dir fst snd area log print_header
       print_success init_world fs_target lookup negb].
  unfold exists_, wlookup in X. cbn [fst snd area log print_success print_header
      init_world fs_target target_dir subpath app] in X.
  unfold exists_, wlookup. cbn [fst snd area log print_success print_header
      init_world fs_target target_dir subpath app].
  rewrite X, F. repeat split; reflexivity.
Qed.

Lemma existing_installation_blocks_witness :
  fst (main (mkEnv "20260101_120000" true (fun _ => Downloaded "zip")
              (fun _ => Unzipped []))
         (mkInstaller "https://github.com/user/repo" false true)
         (Some (Dir [(".github", Dir [("copilot-instructions.md", File "old")])])))
  = 1.
Proof.
  apply (existing_installation_blocks
           (mkEnv "20260101_120000" true (fun _ => Downloaded "zip")
              (fun _ => Unzipped []))
           (mkInstaller "https://github.com/user/repo" false true)
           (Some (Dir [(".github", Dir [("copilot-instructions.md", File "old")])]))).
  - reflexivity.
  - left. simpl. discriminate.
Defined.

(** ** Relations preserved along a computation *)

Section Respects.

Context (R : world -> world -> Prop) `{Stepwise R}.

Lemma respects_ret {A} (a : A) : respects R (ret a).
Proof. intro w; apply rel_refl. Qed.

Lemma respects_raise {A} (e : exn) : respects R (@raise A e).
Proof. intro w; apply rel_refl. Qed.

Lemma respects_get {A} (f : world -> A) : respects R (get f).
Proof. intro w; apply rel_refl. Qed.

Lemma respects_modify f : (forall w, R w (f w)) -> respects R (modify f).
Proof. intros Hf w; apply Hf. Qed.

Lemma respects_bind {A B} (m : M A) (k : A -> M B) :
  respects R m -> (forall a, respects R (k a)) -> respects R (bind m k).
Proof.
  intros Hm Hk w. unfold bind. specialize (Hm w).
  destruct (m w) as [[a|e] w1]; simpl in *; auto.
  eapply rel_trans; [exact Hm | apply Hk].
Qed.

Lemma respects_when b (m : M unit) : respects R m -> respects R (when b m).
Proof. destruct b; simpl; auto using respects_ret. Qed.

Lemma try_except_rel {A} (body : M A) handler w :
  respects R body -> (forall e w, R w (snd (handler e w))) ->
  R w (snd (try_except body handler w)).
Proof.
  intros Hb Hh. unfold try_except. specialize (Hb w).
  destruct (body w) as [[a|e] w1]; simpl in *; auto.
  eapply rel_trans; [exact Hb | apply Hh].
Qed.

Lemma respects_say l m : respects R (say l m).
Proof. apply respects_modify; intros w; now apply rel_log. Qed.

Lemma respects_log_op o : respects R (modify (log (Op o))).
Proof. apply respects_modify; intros w; now apply rel_log. Qed.

Lemma wstore_rel p v e w : store_ok R p v w -> R w (snd (wstore p v e w)).
Proof.
  intros Hs. unfold wstore.
  destruct (store _ _ _) eqn:S; simpl; [now apply Hs | apply rel_refl].
Qed.

Lemma respects_mkdir_exist_ok p :
  (forall w, wlookup p w = None -> store_ok R p (Some (Dir [])) w) ->
  respects R (mkdir_exist_ok p).
Proof.
  intros Hs w. unfold mkdir_exist_ok.
  destruct (wlookup p w) as [[d|es]|] eqn:L; simpl; try apply rel_refl.
  apply wstore_rel; auto.
Qed.

Lemma respects_mkdir_each r qs :
  Forall (fun q => forall w, wlookup (r, q) w = None ->
                             store_ok R (r, q) (Some (Dir [])) w) qs ->
  respects R (mkdir_each r qs).
Proof.
  induction 1; simpl; auto using respects_ret.
  apply respects_bind; auto using respects_mkdir_exist_ok.
Qed.

Lemma respects_mkdir parents p :
  (forall w, wlookup p w = None -> store_ok R p (Some (Dir [])) w) ->
  (parents = true ->
   Forall (fun q => forall w, wlookup (fst p, q) w = None ->
                              store_ok R (fst p, q) (Some (Dir [])) w)
          (prefixes (snd p))) ->
  respects R (mkdir parents p).
Proof.
  intros H1 H2. unfold mkdir. apply respects_bind; auto using respects_log_op.
  intros _. destruct parents.
  - apply respects_mkdir_each; auto.
  - now apply respects_mkdir_exist_ok.
Qed.

Lemma respects_copy2 src dst :
  (forall w d, is_dir dst w = false -> store_ok R dst (Some (File d)) w) ->
  (forall w d, is_dir dst w = true ->
               is_dir (dst // basename src) w = false ->
               store_ok R (dst // basename src) (Some (File d)) w) ->
  respects R (copy2 src dst).
Proof.
  intros H1 H2. unfold copy2.
  apply respects_bind; auto using respects_log_op. intros _.
  intros w. unfold bind, get.
  destruct (is_dir dst w) eqn:D.
  - destruct (path_eqb src (dst // basename src) && exists_ src w);
      simpl; try apply rel_refl.
    destruct (wlookup src w) as [[d|es]|] eqn:L; simpl; try apply rel_refl.
    destruct (is_dir (dst // basename src) w) eqn:D'; simpl; try apply rel_refl.
    apply wstore_rel; eauto.
  - destruct (path_eqb src dst && exists_ src w); simpl; try apply rel_refl.
    destruct (wlookup src w) as [[d|es]|] eqn:L; simpl; try apply rel_refl.
    rewrite D; simpl. apply wstore_rel; eauto.
Qed.

Lemma respects_copytree src dst :
  Forall (fun q => forall w, wlookup (fst dst, q) w = None ->
                             store_ok R (fst dst, q) (Some (Dir [])) w)
         (prefixes (removelast (snd dst))) ->
  (forall w es, store_ok R dst (Some (Dir es)) w) ->
  respects R (copytree src dst).
Proof.
  intros H1 H2. unfold copytree.
  apply respects_bind; auto using respects_log_op. intros _.
  apply respects_bind; auto using respects_get.
  intros [[d|es]|]; auto using respects_raise.
  apply respects_bind; auto using respects_get.
  intros []; auto using respects_raise.
  apply respects_bind; auto.
  - now apply respects_mkdir_each.
  - intros _ w. now apply wstore_rel.
Qed.

Lemma respects_rmtree p :
  (forall w, is_dir p w = true -> store_ok R p None w) ->
  respects R (rmtree p).
Proof.
  intros Hs. unfold rmtree.
  apply respects_bind; auto using respects_log_op. intros _.
  intros w. unfold bind, get.
  destruct (wlookup p w) as [[d|es]|] eqn:L; simpl; try apply rel_refl.
  apply wstore_rel, Hs. unfold is_dir. now rewrite L.
Qed.

Lemma respects_iterdir_dirs p : respects R (iterdir_dirs p).
Proof.
  unfold iterdir_dirs.
  apply respects_bind; auto using respects_get.
  intros [[d|es]|]; auto using respects_raise.
  apply respects_bind; auto using respects_get, respects_ret.
Qed.

(** The calls that only write below the temporary directory. *)
Context `{TempFree R}.

Lemma respects_mkdtemp e : respects R (mkdtemp e).
Proof.
  unfold mkdtemp.
  apply respects_bind; auto using respects_log_op. intros _.
  destruct (mkdtemp_ok e); auto using respects_raise.
  apply respects_modify. intros w. apply rel_temp.
Qed.

Lemma store_ok_temp names v w : store_ok R (TempDir, names) v w.
Proof. intros o' _. apply rel_temp. Qed.

Lemma respects_urlretrieve e url names :
  respects R (urlretrieve e url (TempDir, names)).
Proof.
  unfold urlretrieve.
  apply respects_bind; auto using respects_log_op. intros _.
  destruct (urlopen e url) as [zip|[part|]]; auto using respects_raise.
  - intros w. apply wstore_rel, store_ok_temp.
  - apply respects_bind; auto using respects_raise.
    intros w. apply wstore_rel, store_ok_temp.
Qed.

Lemma respects_extractall e zip_path names :
  respects R (extractall e zip_path (TempDir, names)).
Proof.
  unfold extractall.
  apply respects_bind; auto using respects_log_op. intros _.
  apply respects_bind; auto using respects_get.
  intros [[zip|es]|]; auto using respects_raise.
  destruct (zip_members e zip).
  - apply respects_bind; auto using respects_get. intros stopped.
    apply respects_bind; [apply respects_modify; intros w; apply rel_temp|].
    intros _. destruct stopped; auto using respects_raise, respects_ret.
  - apply respects_bind; auto using respects_raise.
    apply respects_modify. intros w. apply rel_temp.
Qed.

End Respects.

(** ** The control flow of a run *)

Lemma install_run e self w0 :
  exists o, run e self w0 o (snd (install e self w0)) /\
            fst (install e self w0) = succeeded o.
Proof.
  unfold install.
  destruct (validate_target _) as [[] w1] eqn:E1; simpl;
    [|exists InvalidTarget; split; [now constructor | reflexivity]].
  destruct (check_existing_installation self w1) as [[] w2] eqn:E2; simpl;
    [|exists Conflict; split; [econstructor; eauto | reflexivity]].
  destruct (create_backup e self w2) as [[] w3] eqn:E3; simpl;
    [|exists BackupFailed; split; [econstructor; eauto | reflexivity]].
  destruct (download_from_github e self w3) as [[] w4] eqn:E4; simpl;
    [|exists FetchFailed; split; [econstructor; eauto | reflexivity]].
  destruct (install_files w4) as [[] w5] eqn:E5; simpl;
    [exists Installed | exists InstallFailed];
    (split; [econstructor; eauto | reflexivity]).
Qed.

#[export] Instance same_steps_stepwise : Stepwise same_steps.
Proof.
  split; unfold same_steps.
  - reflexivity.
  - intros a b c H1 H2. congruence.
  - intros e w He. unfold steps. simpl. now rewrite He.
Qed.

#[export] Instance same_steps_temp : TempFree same_steps.
Proof. intros o w. reflexivity. Qed.

Lemma store_ok_steps p v w : store_ok same_steps p v w.
Proof. intros o' _. destruct p as [[] names]; reflexivity. Qed.

Lemma traced_steps s body w :
  (forall w, same_steps w (snd (body w))) ->
  steps (snd (traced s body w)) =
  Ret s (Some (fst (traced s body w))) :: Call s :: steps w.
Proof.
  intros Hb. unfold traced. specialize (Hb (log (Call s) w)).
  destruct (body _) as [r w'] eqn:E. simpl in *.
  unfold same_steps in Hb. unfold steps in *. simpl. now rewrite Hb.
Qed.

Lemma traced_unit_steps s body w :
  (forall w, same_steps w (body w)) ->
  steps (traced_unit s body w) = Ret s None :: Call s :: steps w.
Proof.
  intros Hb. unfold traced_unit. specialize (Hb (log (Call s) w)).
  unfold same_steps, steps in *. simpl. now rewrite Hb.
Qed.

Lemma try_except_steps {A} (body : M A) handler w :
  respects same_steps body ->
  (forall e w, same_steps w (snd (handler e w))) ->
  steps (snd (try_except body handler w)) = steps w.
Proof. intros Hb Hh. apply (try_except_rel same_steps); auto; typeclasses eauto. Qed.

(** Premises of the form [store_ok same_steps ...] and the like. *)
Ltac steps_side :=
  repeat match goal with
    | |- Forall _ _ => constructor
    | |- forall _, _ => intro
    end;
  try apply store_ok_steps.

Ltac by_class := try typeclasses eauto.

Ltac respects_steps :=
  repeat first
    [ apply respects_ret; by_class | apply respects_raise; by_class
    | apply respects_get; by_class
    | apply respects_say; by_class | apply respects_when; by_class
    | apply respects_mkdir; by_class; steps_side
    | apply respects_copy2; by_class; steps_side
    | apply respects_copytree; by_class; steps_side
    | apply respects_rmtree; by_class; steps_side
    | apply respects_iterdir_dirs; by_class
    | apply respects_mkdtemp; by_class
    | apply respects_urlretrieve; by_class
    | apply respects_extractall; by_class
    | apply respects_modify; by_class; intro; reflexivity
    | apply respects_bind; by_class; [|intro]
    | match goal with
      | |- respects _ (if ?b then _ else _) => destruct b
      | |- respects _ (match ?x with _ => _ end) => destruct x
      end ].

Lemma validate_target_steps w :
  steps (snd (validate_target w)) =
  Ret ValidateTarget (Some (fst (validate_target w))) :: Call ValidateTarget :: steps w.
Proof.
  apply traced_steps. intros w'.
  destruct (exists_ target_dir w'); simpl; [|reflexivity].
  destruct (is_dir target_dir w'); reflexivity.
Qed.

Lemma check_existing_installation_steps self w :
  steps (snd (check_existing_installation self w)) =
  Ret CheckExisting (Some (fst (check_existing_installation self w)))
    :: Call CheckExisting :: steps w.
Proof.
  apply traced_steps. intros w'. cbv zeta.
  destruct (_ || _); [|reflexivity]. destruct (force self); reflexivity.
Qed.

Lemma create_backup_steps e self w :
  steps (snd (create_backup e self w)) =
  Ret Backup (Some (fst (create_backup e self w))) :: Call Backup :: steps w.
Proof.
  apply traced_steps. intros w'.
  destruct (negb (backup self)); [reflexivity|]. cbv zeta.
  unfold same_steps. rewrite try_except_steps; [reflexivity| |intros; reflexivity].
  respects_steps.
Qed.

Lemma download_from_github_steps e self w :
  steps (snd (download_from_github e self w)) =
  Ret Fetch (Some (fst (download_from_github e self w))) :: Call Fetch :: steps w.
Proof.
  apply traced_steps. intros w'. cbv zeta.
  unfold same_steps. rewrite try_except_steps; [reflexivity| |intros; reflexivity].
  unfold temp_path. respects_steps.
Qed.

Lemma install_files_steps w :
  steps (snd (install_files w)) =
  Ret Install (Some (fst (install_files w))) :: Call Install :: steps w.
Proof.
  apply traced_steps. intros w'.
  apply try_except_steps; [|intros; reflexivity].
  unfold install_body, install_marker, install_copilot, install_readme.
  respects_steps.
Qed.

Lemma cleanup_steps w :
  steps (cleanup w) = Ret Cleanup None :: Call Cleanup :: steps w.
Proof.
  apply traced_unit_steps. intros w'.
  destruct (_ && _); [|reflexivity].
  apply try_except_steps; [|intros; reflexivity].
  respects_steps.
Qed.

Lemma rollback_steps w :
  steps (rollback w) = Ret Rollback None :: Call Rollback :: steps w.
Proof.
  apply traced_unit_steps. intros w'.
  destruct (backup_dir w'); [|reflexivity]. cbv zeta.
  destruct (negb _); [reflexivity|].
  unfold same_steps. rewrite try_except_steps; [reflexivity| |intros; reflexivity].
  respects_steps.
Qed.

Lemma steps_print l m w : steps (log (Print l m) w) = steps w.
Proof. reflexivity. Qed.

(** The trace of methods along each way through [install]. *)
Lemma run_steps e self w0 o w' :
  run e self w0 o w' -> steps w' = rev (flow o) ++ steps w0.
Proof.
  destruct 1;
    repeat match goal with
      | H : validate_target ?w = (?r, ?w1) |- _ =>
          let S := fresh "S" in
          pose proof (validate_target_steps w) as S; rewrite H in S; clear H
      | H : check_existing_installation ?s ?w = (?r, ?w1) |- _ =>
          let S := fresh "S" in
          pose proof (check_existing_installation_steps s w) as S;
          rewrite H in S; clear H
      | H : create_backup ?e ?s ?w = (?r, ?w1) |- _ =>
          let S := fresh "S" in
          pose proof (create_backup_steps e s w) as S; rewrite H in S; clear H
      | H : download_from_github ?e ?s ?w = (?r, ?w1) |- _ =>
          let S := fresh "S" in
          pose proof (download_from_github_steps e s w) as S;
          rewrite H in S; clear H
      | H : install_files ?w = (?r, ?w1) |- _ =>
          let S := fresh "S" in
          pose proof (install_files_steps w) as S; rewrite H in S; clear H
      end;
    simpl fst in *; simpl snd in *;
    unfold print_post_install, print, print_header, print_error in *;
    try match goal with |- context [match ?b with _ => _ end] => destruct b end;
    rewrite ?steps_print, ?cleanup_steps, ?rollback_steps, ?steps_print in *;
    repeat match goal with S : steps _ = _ |- _ => rewrite S; clear S end;
    reflexivity.
Qed.

(** Every run follows one of the six ways of the workflow. *)
Lemma install_flow e self target :
  exists o,
    rev (steps (snd (install e self (init_world target)))) = flow o /\
    fst (install e self (init_world target)) = succeeded o.
Proof.
  destruct (install_run e self (init_world target)) as (o & Hrun & Hres).
  exists o. split; auto.
  rewrite (run_steps _ _ _ _ _ Hrun). simpl. rewrite app_nil_r.
  apply rev_involutive.
Qed.

(** ** The frame of each method *)

#[export] Instance only_temp_stepwise : Stepwise only_temp.
Proof.
  split; unfold only_temp.
  - auto.
  - intros a b c [] []. split; congruence.
  - intros e w _. auto.
Qed.

#[export] Instance only_temp_temp : TempFree only_temp.
Proof. intros o w. split; reflexivity. Qed.

#[export] Instance keeps_backup_dir_stepwise : Stepwise keeps_backup_dir.
Proof.
  split; unfold keeps_backup_dir.
  - auto.
  - intros a b c. congruence.
  - intros e w _. auto.
Qed.

#[export] Instance keeps_backup_dir_temp : TempFree keeps_backup_dir.
Proof. intros o w. reflexivity. Qed.

Lemma store_ok_backup_dir p v w : store_ok keeps_backup_dir p v w.
Proof. intros o' _. destruct p as [[] names]; reflexivity. Qed.

#[export] Instance touches_stepwise names : Stepwise (touches names).
Proof.
  split; unfold touches.
  - intros w. repeat split; auto.
  - intros a b c (T1 & D1 & K1 & F1) (T2 & D2 & K2 & F2).
    repeat split; try congruence; auto.
    intros x q N. rewrite F2, F1; auto.
  - intros e w _. repeat split; auto.
Qed.

Lemma store_ok_touches names x p v w :
  In x names -> store_ok (touches names) (TargetDir, x :: p) v w.
Proof.
  intros I o' S. cbn [fst snd area] in S.
  destruct w as [tg tm td bd ev]; cbn [fs_target] in S.
  unfold touches; cbn [fs_target fs_temp temp_dir set_area fst snd].
  repeat split; auto.
  - intros _. now apply store_keeps_dir in S.
  - intros y q N. apply (lookup_store_diverge (x :: p) (y :: q) v tg o'); auto.
    simpl. destruct (String.eqb x y) eqn:E; auto.
    apply String.eqb_eq in E; subst. contradiction.
Qed.

#[export] Instance only_temp_quiet : Quiet only_temp.
Proof. intros e w. split; reflexivity. Qed.

#[export] Instance keeps_backup_dir_quiet : Quiet keeps_backup_dir.
Proof. intros e w. reflexivity. Qed.

#[export] Instance touches_quiet names : Quiet (touches names).
Proof. intros e w. unfold touches. repeat split; auto. Qed.

Lemma traced_rel R `{Stepwise R} `{Quiet R} s body w :
  (forall w, R w (snd (body w))) -> R w (snd (traced s body w)).
Proof.
  intros Hb. unfold traced. specialize (Hb (log (Call s) w)).
  destruct (body _) as [r w']. simpl in *.
  eapply rel_trans; [apply rel_quiet|].
  eapply rel_trans; [exact Hb | apply rel_quiet].
Qed.

Lemma traced_unit_rel R `{Stepwise R} `{Quiet R} s body w :
  (forall w, R w (body w)) -> R w (traced_unit s body w).
Proof.
  intros Hb. unfold traced_unit.
  eapply rel_trans; [apply rel_quiet|].
  eapply rel_trans; [apply Hb | apply rel_quiet].
Qed.

Lemma rel_after_log R `{Stepwise R} `{Quiet R} e w w' :
  R (log e w) w' -> R w w'.
Proof. intros Hr. eapply rel_trans; [apply rel_quiet | exact Hr]. Qed.


(** Discharge [respects R m] call by call; [side] proves that the stores
    of each call are steps of [R]. *)
Ltac respects_with side :=
  repeat first
    [ apply respects_ret; by_class | apply respects_raise; by_class
    | apply respects_get; by_class
    | apply respects_say; by_class | apply respects_when; by_class
    | apply respects_mkdir; by_class; side
    | apply respects_copy2; by_class; side
    | apply respects_copytree; by_class; side
    | apply respects_rmtree; by_class; side
    | apply respects_iterdir_dirs; by_class
    | apply respects_mkdtemp; by_class
    | apply respects_urlretrieve; by_class
    | apply respects_extractall; by_class
    | apply respects_bind; by_class; [|intro]
    | match goal with
      | |- respects _ (if ?b then _ else _) => destruct b
      | |- respects _ (match ?x with _ => _ end) => destruct x
      end ].

Ltac side_intros :=
  simpl prefixes; simpl removelast;
  repeat match goal with
    | |- Forall _ _ => constructor
    | |- forall _, _ => intro
    end.

Ltac touches_side :=
  side_intros; try (apply store_ok_touches; simpl; auto).

Ltac backup_dir_side := side_intros; try apply store_ok_backup_dir.

(** *** validate_target and check_existing_installation change nothing *)

Lemma validate_target_same w : same_state w (snd (validate_target w)).
Proof.
  unfold validate_target, traced.
  destruct (negb (exists_ target_dir _)); [repeat split|].
  destruct (negb (is_dir target_dir _)); repeat split.
Qed.

Lemma validate_target_true w :
  fst (validate_target w) = true -> exists es, fs_target w = Some (Dir es).
Proof.
  unfold validate_target, traced, exists_, is_dir, wlookup. simpl.
  destruct (fs_target w) as [[d|es]|]; simpl; try discriminate. eauto.
Qed.

Lemma check_existing_installation_same self w :
  same_state w (snd (check_existing_installation self w)).
Proof.
  unfold check_existing_installation, traced. cbv zeta.
  destruct (_ || _); [|repeat split]. destruct (force self); repeat split.
Qed.

(** *** create_backup *)

Lemma touches_set_backup_dir names b w : touches names w (set_backup_dir b w).
Proof. unfold touches. repeat split; auto. Qed.

Lemma create_backup_touches e self w :
  touches [backup_name (now e)] w (snd (create_backup e self w)).
Proof.
  unfold create_backup. apply (traced_rel (touches _)); try typeclasses eauto. intros w'.
  destruct (negb (backup self)); [apply rel_refl|]. cbv zeta.
  eapply rel_trans; [apply touches_set_backup_dir|].
  apply (try_except_rel (touches _)); try typeclasses eauto.
  - respects_with touches_side.
  - intros; apply rel_quiet.
Qed.

Lemma create_backup_disabled e self w :
  backup self = false ->
  create_backup e self w = (true, log (Ret Backup (Some true)) (log (Call Backup) w)).
Proof. intros B. unfold create_backup, traced. now rewrite B. Qed.

(** *** download_from_github and cleanup *)

Lemma download_from_github_only_temp e self w :
  only_temp w (snd (download_from_github e self w)).
Proof.
  unfold download_from_github. apply (traced_rel only_temp); try typeclasses eauto.
  intros w'. cbv zeta.
  apply (rel_after_log only_temp (Print LInfo MsgDownloadingFrom)).
  apply (try_except_rel only_temp); try typeclasses eauto.
  - unfold temp_path.
    respects_with ltac:(idtac).
    apply respects_modify; try typeclasses eauto. intros; split; reflexivity.
  - intros. split; reflexivity.
Qed.

Lemma cleanup_only_temp w : only_temp w (cleanup w).
Proof.
  unfold cleanup. apply (traced_unit_rel only_temp); try typeclasses eauto. intros w'.
  destruct (_ && _); [|apply rel_refl].
  apply (try_except_rel only_temp); try typeclasses eauto.
  - respects_with ltac:(side_intros; try apply store_ok_temp; try typeclasses eauto).
  - intros; apply rel_quiet.
Qed.

(** *** install_files and rollback *)

Lemma install_files_touches w :
  touches [".github"; ".copilot"] w (snd (install_files w)).
Proof.
  unfold install_files. apply (traced_rel (touches _)); try typeclasses eauto. intros w'.
  apply (try_except_rel (touches _)); try typeclasses eauto.
  - unfold install_body, install_marker, install_copilot, install_readme.
    respects_with touches_side.
  - intros; apply rel_quiet.
Qed.

Lemma install_files_backup_dir w : backup_dir (snd (install_files w)) = backup_dir w.
Proof.
  change (keeps_backup_dir w (snd (install_files w))).
  unfold install_files. apply (traced_rel keeps_backup_dir); try typeclasses eauto. intros w'.
  apply (try_except_rel keeps_backup_dir); try typeclasses eauto.
  - unfold install_body, install_marker, install_copilot, install_readme.
    respects_with backup_dir_side.
  - intros; apply rel_quiet.
Qed.

Lemma rollback_touches w : touches [".github"; ".copilot"] w (rollback w).
Proof.
  unfold rollback. apply (traced_unit_rel (touches _)); try typeclasses eauto. intros w'.
  destruct (backup_dir w'); [|apply rel_refl]. cbv zeta.
  destruct (negb _); [apply rel_refl|].
  apply (rel_after_log (touches _) (Print LWarning MsgRestoring)).
  apply (try_except_rel (touches _)); try typeclasses eauto.
  - respects_with touches_side.
  - intros; apply rel_quiet.
Qed.

Lemma rollback_backup_dir w : backup_dir (rollback w) = backup_dir w.
Proof.
  change (keeps_backup_dir w (rollback w)).
  unfold rollback. apply (traced_unit_rel keeps_backup_dir); try typeclasses eauto. intros w'.
  destruct (backup_dir w'); [|apply rel_refl]. cbv zeta.
  destruct (negb _); [apply rel_refl|].
  apply (rel_after_log keeps_backup_dir (Print LWarning MsgRestoring)).
  apply (try_except_rel keeps_backup_dir); try typeclasses eauto.
  - respects_with backup_dir_side.
  - intros; apply rel_quiet.
Qed.

(** ** The temporary directory *)

Lemma download_from_github_temp_tidy e self w :
  fs_temp w = None -> temp_tidy (snd (download_from_github e self w)).
Proof.
  intros T. unfold temp_tidy.
  unfold download_from_github, traced, try_except, bind, mkdtemp, modify,
    urlretrieve, extractall, say, ret, raise, get, wstore, wlookup, temp_path.
  cbn [fst snd area set_area log print_info fs_temp fs_target temp_dir
       set_temp_dir subpath app].
  destruct (mkdtemp_ok e); cbn; auto.
  destruct (download_url (github_url self)) as [url|]; cbn; eauto.
  destruct (urlopen e url) as [zip|[part|]]; cbn; eauto.
  destruct (zip_members e zip) as [members|part]; cbn; eauto.
  destruct (snd (extract_members members _)); cbn; eauto.
Qed.

Lemma cleanup_removes_temp w : temp_tidy w -> fs_temp (cleanup w) = None.
Proof.
  unfold cleanup, traced_unit, exists_, wlookup, temp_path.
  intros [T | (D & es & T)]; cbn [fst snd area log fs_temp temp_dir lookup].
  - rewrite T, andb_false_r. simpl. exact T.
  - rewrite T, D. cbn [andb].
    unfold try_except, rmtree, bind, modify, get, wstore, wlookup, say.
    cbn [fst snd area log fs_temp lookup]. rewrite T. reflexivity.
Qed.

Lemma touches_temp_tidy names w w' : touches names w w' -> temp_tidy w -> temp_tidy w'.
Proof. intros (T & D & _) H. unfold temp_tidy in *. now rewrite T, D. Qed.

(** ** Facts about the ways through the workflow *)

Lemma run_In_flow e self w0 o w' ev :
  run e self w0 o w' -> steps w0 = [] ->
  In ev (events w') -> is_control ev = true -> In ev (flow o).
Proof.
  intros Hrun H0 Hin Hc.
  apply in_rev. rewrite <- (app_nil_r (rev (flow o))), <- H0.
  rewrite <- (run_steps _ _ _ _ _ Hrun). unfold steps.
  apply filter_In. auto.
Qed.

Lemma create_backup_backup_dir e self w :
  backup_dir (snd (create_backup e self w)) =
  if backup self then Some (backup_name (now e)) else backup_dir w.
Proof.
  unfold create_backup, traced.
  destruct (backup self); simpl negb; cbv iota; [|reflexivity]. cbv zeta.
  destruct (try_except _ _ _) as [r w'] eqn:E. simpl.
  assert (K : keeps_backup_dir
                (set_backup_dir (Some (backup_name (now e))) (log (Call Backup) w))
                (snd (r, w'))).
  { rewrite <- E. apply (try_except_rel keeps_backup_dir); try typeclasses eauto.
    - respects_with backup_dir_side.
    - intros; apply rel_quiet. }
  exact K.
Qed.

(** The state when the fetch step starts. *)
Lemma before_fetch e self target w1 w2 w3 :
  validate_target (print_header MsgInstallerHeader (init_world target)) = (true, w1) ->
  check_existing_installation self w1 = (true, w2) ->
  create_backup e self w2 = (true, w3) ->
  (exists es, target = Some (Dir es)) /\
  touches [backup_name (now e)] (init_world target) w3 /\
  (backup self = false -> fs_target w3 = target) /\
  backup_dir w3 = (if backup self then Some (backup_name (now e)) else None).
Proof.
  intros E1 E2 E3.
  pose proof (validate_target_same (print_header MsgInstallerHeader (init_world target))) as S1.
  pose proof (validate_target_true (print_header MsgInstallerHeader (init_world target))) as D1.
  rewrite E1 in S1, D1. simpl in S1, D1. specialize (D1 eq_refl).
  pose proof (check_existing_installation_same self w1) as S2.
  rewrite E2 in S2. simpl in S2.
  pose proof (create_backup_touches e self w2) as T3.
  pose proof (create_backup_backup_dir e self w2) as B3.
  rewrite E3 in T3, B3. simpl in T3, B3.
  destruct S1 as (A1 & A2 & A3 & A4 & A5), S2 as (C1 & C2 & C3 & C4 & C5).
  repeat split.
  - exact D1.
  - destruct T3 as (T & _). rewrite T, C2, A2. reflexivity.
  - destruct T3 as (_ & T & _). rewrite T, C3, A3. reflexivity.
  - intros _. destruct T3 as (_ & _ & T & _). apply T.
    rewrite C1, A1. exact D1.
  - intros x q N. destruct T3 as (_ & _ & _ & T). rewrite T, C1, A1; auto.
  - intros B. rewrite (create_backup_disabled e self w2 B) in E3.
    inversion E3; subst. simpl. now rewrite C1, A1.
  - rewrite B3, C4, A4. reflexivity.
Qed.

(** Once the fetch step was entered, the temporary directory is gone when
    the run ends. *)
Lemma run_temp_removed e self target o w' :
  run e self (init_world target) o w' ->
  In (Call Fetch) (flow o) ->
  fs_temp w' = None.
Proof.
  intros Hrun Hflow.
  destruct Hrun as [w1 E1 | w1 w2 E1 E2 | w1 w2 w3 E1 E2 E3
                   | w1 w2 w3 w4 E1 E2 E3 E4
                   | w1 w2 w3 w4 w5 E1 E2 E3 E4 E5
                   | w1 w2 w3 w4 w5 E1 E2 E3 E4 E5];
    try (exfalso; simpl in Hflow; intuition discriminate); clear Hflow;
    destruct (before_fetch _ _ _ _ _ _ E1 E2 E3) as (_ & (T & _) & _);
    pose proof (download_from_github_temp_tidy e self w3 T) as D;
    rewrite E4 in D; simpl in D.
  - now apply cleanup_removes_temp.
  - apply cleanup_removes_temp.
    eapply touches_temp_tidy; [apply rollback_touches|].
    pose proof (install_files_touches w4) as I. rewrite E5 in I.
    change (temp_tidy w5). exact (touches_temp_tidy _ w4 w5 I D).
  - assert (C : fs_temp (cleanup w5) = None).
    { apply cleanup_removes_temp.
      pose proof (install_files_touches w4) as I. rewrite E5 in I.
      exact (touches_temp_tidy _ w4 w5 I D). }
    unfold print_post_install. destruct (backup_dir _); exact C.
Qed.

(** C9: on every way through [install] that enters the fetch step (fetch
    failure, install failure, success) [cleanup] is called after it and is
    the last method to run; when the run ends the temporary directory does
    not exist. *)
Theorem cleanup_runs_after_fetch e self target :
  In (Call Fetch) (events (snd (install e self (init_world target)))) ->
  (exists before between,
     rev (steps (snd (install e self (init_world target)))) =
     before ++ Call Fetch :: between ++ [Call Cleanup; Ret Cleanup None]) /\
  fs_temp (snd (install e self (init_world target))) = None.
Proof.
  intros Hin.
  destruct (install_run e self (init_world target)) as (o & Hrun & _).
  pose proof (run_In_flow _ _ _ _ _ _ Hrun eq_refl Hin eq_refl) as Hflow.
  split; [|exact (run_temp_removed _ _ _ _ _ Hrun Hflow)].
  pose proof (run_steps _ _ _ _ _ Hrun) as Hs. simpl in Hs.
  rewrite app_nil_r in Hs. rewrite Hs, rev_involutive. clear Hs Hrun Hin.
  destruct o; try (exfalso; simpl in Hflow; intuition discriminate).
  - exists (passed ValidateTarget ++ passed CheckExisting ++ passed Backup),
      [Ret Fetch (Some false)]. reflexivity.
  - exists (passed ValidateTarget ++ passed CheckExisting ++ passed Backup),
      (Ret Fetch (Some true) :: failed Install ++ ran Rollback). reflexivity.
  - exists (passed ValidateTarget ++ passed CheckExisting ++ passed Backup),
      (Ret Fetch (Some true) :: passed Install). reflexivity.
Qed.

Lemma cleanup_runs_after_fetch_witness :
  fs_temp (snd (install (Sample.online Sample.bundle)
                  (mkInstaller Sample.repo false true)
                  (init_world (Some Sample.plain)))) = None.
Proof.
  apply (cleanup_runs_after_fetch (Sample.online Sample.bundle)
           (mkInstaller Sample.repo false true) (Some Sample.plain)).
  vm_compute. tauto.
Defined.

(** ** create_backup, exactly *)

Lemma backup_name_not_github t : String.eqb ".github" (backup_name t) = false.
Proof. reflexivity. Qed.

Lemma backup_name_not_copilot t : String.eqb ".copilot" (backup_name t) = false.
Proof. reflexivity. Qed.

Lemma not_backup_name_github t : String.eqb (backup_name t) ".github" = false.
Proof. reflexivity. Qed.

Lemma not_backup_name_copilot t : String.eqb (backup_name t) ".copilot" = false.
Proof. reflexivity. Qed.

Arguments backup_name : simpl never.

Lemma lookup_cons x q es :
  lookup (x :: q) (Some (Dir es)) = lookup q (assoc x es).
Proof. reflexivity. Qed.

Lemma store_cons x q v es :
  store (x :: q) v (Some (Dir es)) =
  match store q v (assoc x es) with
  | Some (Some c) => Some (Some (Dir (upsert x c es)))
  | Some None => Some (Some (Dir (remove_entry x es)))
  | None => None
  end.
Proof. reflexivity. Qed.

Lemma bind_ok {A B} (m : M A) (k : A -> M B) w a w' :
  m w = (Ok a, w') -> bind m k w = k a w'.
Proof. intros E. unfold bind. now rewrite E. Qed.

Lemma bind_raise {A B} (m : M A) (k : A -> M B) w e w' :
  m w = (Raise e, w') -> bind m k w = (Raise e, w').
Proof. intros E. unfold bind. now rewrite E. Qed.

Lemma bind_get {A B} (f : world -> A) (k : A -> M B) w :
  bind (get f) k w = k (f w) w.
Proof. reflexivity. Qed.

Lemma bind_say {B} l m (k : unit -> M B) w :
  bind (say l m) k w = k tt (log (Print l m) w).
Proof. reflexivity. Qed.

Lemma bind_assoc {A B C} (m : M A) (k : A -> M B) (h : B -> M C) w :
  bind (bind m k) h w = bind m (fun a => bind (k a) h) w.
Proof. unfold bind. destruct (m w) as [[a|e] w1]; reflexivity. Qed.

(** *** The calls, when they succeed *)

Lemma mkdir_new p w o' :
  wlookup p w = None ->
  store (snd p) (Some (Dir [])) (area (fst p) w) = Some o' ->
  mkdir false p w = (Ok tt, set_area (fst p) o' (log (Op (OpMkdir p)) w)).
Proof.
  intros L S. unfold mkdir, bind, modify, mkdir_exist_ok, wstore.
  change (wlookup p (log (Op (OpMkdir p)) w)) with (wlookup p w).
  rewrite L.
  change (area (fst p) (log (Op (OpMkdir p)) w)) with (area (fst p) w).
  now rewrite S.
Qed.

Lemma mkdir_existing p w es :
  wlookup p w = Some (Dir es) ->
  mkdir false p w = (Ok tt, log (Op (OpMkdir p)) w).
Proof.
  intros L. unfold mkdir, bind, modify, mkdir_exist_ok.
  change (wlookup p (log (Op (OpMkdir p)) w)) with (wlookup p w).
  now rewrite L.
Qed.

Lemma mkdir_parents_top r x w :
  mkdir true (r, [x]) w = mkdir false (r, [x]) w.
Proof.
  unfold mkdir, makedirs_exist_ok, bind, modify. simpl.
  unfold bind. destruct (mkdir_exist_ok _ _) as [[[]|] ?]; reflexivity.
Qed.

Lemma copy2_file src dst w d o' :
  wlookup src w = Some (File d) ->
  is_dir dst w = false ->
  path_eqb src dst = false ->
  store (snd dst) (Some (File d)) (area (fst dst) w) = Some o' ->
  copy2 src dst w = (Ok tt, set_area (fst dst) o' (log (Op (OpCopy2 src dst)) w)).
Proof.
  intros L D N S. unfold copy2, bind, modify, get, wstore.
  change (is_dir dst (log (Op (OpCopy2 src dst)) w)) with (is_dir dst w).
  rewrite D. cbv beta iota zeta. rewrite N. cbn [andb].
  change (wlookup src (log (Op (OpCopy2 src dst)) w)) with (wlookup src w).
  rewrite L. cbv beta iota zeta.
  change (is_dir dst (log (Op (OpCopy2 src dst)) w)) with (is_dir dst w).
  rewrite D.
  change (area (fst dst) (log (Op (OpCopy2 src dst)) w)) with (area (fst dst) w).
  now rewrite S.
Qed.

Lemma copytree_dir src dst w es o' :
  wlookup src w = Some (Dir es) ->
  wlookup dst w = None ->
  makedirs_exist_ok (parent dst) (log (Op (OpCopytree src dst)) w) =
    (Ok tt, log (Op (OpCopytree src dst)) w) ->
  store (snd dst) (Some (Dir es)) (area (fst dst) w) = Some o' ->
  copytree src dst w =
  (Ok tt, set_area (fst dst) o' (log (Op (OpCopytree src dst)) w)).
Proof.
  intros L X P S. unfold copytree, bind, modify, get, wstore, exists_.
  change (wlookup src (log (Op (OpCopytree src dst)) w)) with (wlookup src w).
  rewrite L. cbv beta iota zeta.
  change (wlookup dst (log (Op (OpCopytree src dst)) w)) with (wlookup dst w).
  rewrite X, P.
  change (area (fst dst) (log (Op (OpCopytree src dst)) w)) with (area (fst dst) w).
  now rewrite S.
Qed.


(** *** Lookups and stores next to an entry added at the end *)

Lemma lookup_last_other x y q v es :
  String.eqb y x = false ->
  lookup (y :: q) (Some (Dir (es ++ [(x, v)]))) = lookup (y :: q) (Some (Dir es)).
Proof. intros N. simpl. now rewrite assoc_last_neq. Qed.

Lemma lookup_last x q v es :
  assoc x es = None ->
  lookup (x :: q) (Some (Dir (es ++ [(x, v)]))) = lookup q (Some v).
Proof. intros A. simpl. now rewrite assoc_last_eq. Qed.

Lemma store_last x q v u c es :
  assoc x es = None ->
  store q v (Some u) = Some (Some c) ->
  store (x :: q) v (Some (Dir (es ++ [(x, u)]))) =
  Some (Some (Dir (es ++ [(x, c)]))).
Proof.
  intros A S. simpl. rewrite assoc_last_eq, S by exact A.
  now rewrite upsert_last.
Qed.

Lemma bind_ret {A B} (a : A) (k : A -> M B) w : bind (ret a) k w = k a w.
Proof. reflexivity. Qed.

Ltac world_cbn :=
  cbn [fst snd area set_area log set_backup_dir set_temp_dir
       fs_target fs_temp temp_dir backup_dir events
       target_dir temp_path subpath parent app removelast
       print print_header print_success print_warning print_error print_info].

Ltac state_cbn :=
  unfold print, print_header, print_success, print_warning, print_error,
    print_info, set_backup_dir, set_temp_dir, log;
  cbn [area set_area fs_target fs_temp temp_dir backup_dir events].

Section BackupSteps.

Variables (e : env) (tm : option node) (td : bool) (es : listing).
Hypothesis Fresh : assoc (backup_name (now e)) es = None.

Lemma backup_mkdir_step bd ev :
  mkdir false (target_dir // (backup_name (now e))) (mkWorld (Some (Dir es)) tm td bd ev) =
  (Ok tt, mkWorld (Some (Dir (es ++ [((backup_name (now e)), Dir [])]))) tm td bd
            (Op (OpMkdir (target_dir // (backup_name (now e)))) :: ev)).
Proof.
  erewrite mkdir_new; [reflexivity| |].
  - unfold wlookup. world_cbn. rewrite lookup_cons. exact Fresh.
  - world_cbn. rewrite store_cons. cbn [store].
    rewrite upsert_absent by exact Fresh. reflexivity.
Qed.

Lemma backup_copy2_step d bd ev :
  lookup [".github"; "copilot-instructions.md"] (Some (Dir es)) = Some (File d) ->
  copy2 (target_dir // ".github" // "copilot-instructions.md")
    (target_dir // (backup_name (now e)) // "copilot-instructions.md")
    (mkWorld (Some (Dir (es ++ [((backup_name (now e)), Dir [])]))) tm td bd ev) =
  (Ok tt,
   mkWorld (Some (Dir (es ++ [((backup_name (now e)), Dir [("copilot-instructions.md", File d)])])))
     tm td bd
     (Op (OpCopy2 (target_dir // ".github" // "copilot-instructions.md")
            (target_dir // (backup_name (now e)) // "copilot-instructions.md")) :: ev)).
Proof.
  intros Hd. erewrite copy2_file; [reflexivity| | | |].
  - unfold wlookup. world_cbn.
    rewrite lookup_last_other by reflexivity. exact Hd.
  - unfold is_dir, wlookup. world_cbn. rewrite lookup_last by exact Fresh.
    reflexivity.
  - reflexivity.
  - world_cbn. apply store_last; [exact Fresh | reflexivity].
Qed.

Lemma backup_copytree_step c kept bd ev :
  assoc ".copilot" es = Some (Dir c) ->
  assoc ".copilot" kept = None ->
  copytree (target_dir // ".copilot") (target_dir // (backup_name (now e)) // ".copilot")
    (mkWorld (Some (Dir (es ++ [((backup_name (now e)), Dir kept)]))) tm td bd ev) =
  (Ok tt,
   mkWorld (Some (Dir (es ++ [((backup_name (now e)), Dir (kept ++ [(".copilot", Dir c)]))])))
     tm td bd
     (Op (OpCopytree (target_dir // ".copilot") (target_dir // (backup_name (now e)) // ".copilot"))
        :: ev)).
Proof.
  intros Hd Hk. erewrite copytree_dir; [reflexivity| | | |].
  - unfold wlookup. world_cbn.
    rewrite lookup_last_other, lookup_cons by reflexivity. exact Hd.
  - unfold wlookup. world_cbn. rewrite lookup_last by exact Fresh.
    rewrite lookup_cons. exact Hk.
  - unfold makedirs_exist_ok. world_cbn. simpl prefixes. cbn [mkdir_each].
    unfold bind, mkdir_exist_ok, wlookup. world_cbn.
    rewrite lookup_last by exact Fresh. reflexivity.
  - world_cbn. apply store_last; [exact Fresh|].
    rewrite store_cons. cbn [store]. now rewrite upsert_absent.
Qed.

(** The states in which [create_backup] looks for the marker file and for
    [.copilot] are the target with the new directory at the end. *)
Lemma backup_sees_marker kept bd ev :
  exists_ (target_dir // ".github" // "copilot-instructions.md")
    (mkWorld (Some (Dir (es ++ [((backup_name (now e)), Dir kept)]))) tm td bd ev) =
  match lookup [".github"; "copilot-instructions.md"] (Some (Dir es)) with
  | Some _ => true
  | None => false
  end.
Proof.
  unfold exists_, wlookup. world_cbn.
  now rewrite lookup_last_other by reflexivity.
Qed.

Lemma backup_sees_copilot kept bd ev :
  exists_ (target_dir // ".copilot")
    (mkWorld (Some (Dir (es ++ [((backup_name (now e)), Dir kept)]))) tm td bd ev) =
  match assoc ".copilot" es with Some _ => true | None => false end.
Proof.
  unfold exists_, wlookup. world_cbn.
  now rewrite lookup_last_other, lookup_cons by reflexivity.
Qed.

End BackupSteps.

Lemma copy2_src_dir src dst w cs :
  wlookup src w = Some (Dir cs) ->
  exists e w', copy2 src dst w = (Raise e, w').
Proof.
  intros L. unfold copy2, bind, modify, get, raise.
  destruct (path_eqb _ _ && _); [eauto|].
  change (wlookup src (log (Op (OpCopy2 src dst)) w)) with (wlookup src w).
  rewrite L. eauto.
Qed.

Lemma copytree_src_file src dst w d :
  wlookup src w = Some (File d) ->
  exists e w', copytree src dst w = (Raise e, w').
Proof.
  intros L. unfold copytree, bind, modify, get, raise.
  change (wlookup src (log (Op (OpCopytree src dst)) w)) with (wlookup src w).
  rewrite L. eauto.
Qed.

(** With backup enabled and a name that is not taken, [create_backup]
    succeeds whenever the marker is absent or a regular file and [.copilot]
    is absent or a directory, and adds one entry to the target. *)
Lemma create_backup_fresh e self tm td bd ev es :
  backup self = true ->
  assoc (backup_name (now e)) es = None ->
  (lookup [".github"; "copilot-instructions.md"] (Some (Dir es)) = None \/
   exists d, lookup [".github"; "copilot-instructions.md"] (Some (Dir es)) = Some (File d)) ->
  (assoc ".copilot" es = None \/ exists c, assoc ".copilot" es = Some (Dir c)) ->
  exists ev',
    create_backup e self (mkWorld (Some (Dir es)) tm td bd ev) =
    (true, mkWorld (Some (Dir (es ++ [(backup_name (now e), Dir (saved es))])))
             tm td (Some (backup_name (now e))) ev').
Proof.
  intros B F Hm Hc.
  unfold create_backup, traced. rewrite B. cbn [negb]. cbv zeta.
  unfold try_except. state_cbn.
  rewrite (bind_ok _ _ _ _ _ (backup_mkdir_step e tm td es F _ _)).
  rewrite bind_get, (backup_sees_marker e tm td es).
  unfold saved, saved_marker, saved_copilot.
  destruct Hm as [Hm | [d Hm]]; rewrite Hm; cbn [when].
  - rewrite bind_ret, bind_get, (backup_sees_copilot e tm td es).
    destruct Hc as [Hc | [c Hc]]; rewrite Hc; cbn [when].
    + eexists. reflexivity.
    + rewrite bind_assoc.
      rewrite (bind_ok _ _ _ _ _
                 (backup_copytree_step e tm td es F _ [] _ _ Hc eq_refl)).
      eexists. reflexivity.
  - rewrite bind_assoc.
    rewrite (bind_ok _ _ _ _ _ (backup_copy2_step e tm td es F _ _ _ Hm)).
    rewrite bind_say, bind_get. state_cbn.
    rewrite (backup_sees_copilot e tm td es).
    destruct Hc as [Hc | [c Hc]]; rewrite Hc; cbn [when].
    + eexists. reflexivity.
    + rewrite bind_assoc.
      rewrite (bind_ok _ _ _ _ _
                 (backup_copytree_step e tm td es F _
                    [("copilot-instructions.md", File d)] _ _ Hc eq_refl)).
      eexists. reflexivity.
Qed.

(** Conversely, a backup that succeeded under a name that was not taken
    found the marker absent or a regular file, and [.copilot] absent or a
    directory. *)
Lemma create_backup_true_shape e self tm td bd ev es :
  backup self = true ->
  assoc (backup_name (now e)) es = None ->
  fst (create_backup e self (mkWorld (Some (Dir es)) tm td bd ev)) = true ->
  (lookup [".github"; "copilot-instructions.md"] (Some (Dir es)) = None \/
   exists d, lookup [".github"; "copilot-instructions.md"] (Some (Dir es)) = Some (File d)) /\
  (assoc ".copilot" es = None \/ exists c, assoc ".copilot" es = Some (Dir c)).
Proof.
  intros B F.
  unfold create_backup, traced. rewrite B. cbn [negb]. cbv zeta.
  unfold try_except. state_cbn.
  rewrite (bind_ok _ _ _ _ _ (backup_mkdir_step e tm td es F _ _)).
  rewrite bind_get, (backup_sees_marker e tm td es).
  destruct (lookup [".github"; "copilot-instructions.md"] (Some (Dir es)))
    as [[d|cs]|] eqn:Hm; cbn [when].
  - (* a regular file *)
    rewrite bind_assoc.
    rewrite (bind_ok _ _ _ _ _ (backup_copy2_step e tm td es F _ _ _ Hm)).
    rewrite bind_say, bind_get. state_cbn.
    rewrite (backup_sees_copilot e tm td es).
    destruct (assoc ".copilot" es) as [[f|c]|] eqn:Hc; cbn [when];
      try (intros _; split; eauto; fail).
    rewrite bind_assoc.
    edestruct (copytree_src_file (target_dir // ".copilot")
                 (target_dir // backup_name (now e) // ".copilot")) as (x & w' & E);
      [|rewrite (bind_raise _ _ _ _ _ E); discriminate].
    unfold wlookup. world_cbn.
    rewrite lookup_last_other, lookup_cons by reflexivity. exact Hc.
  - (* a directory *)
    rewrite bind_assoc.
    edestruct (copy2_src_dir (target_dir // ".github" // "copilot-instructions.md")
                 (target_dir // backup_name (now e) // "copilot-instructions.md"))
      as (x & w' & E); [|rewrite (bind_raise _ _ _ _ _ E); discriminate].
    unfold wlookup. world_cbn.
    rewrite lookup_last_other by reflexivity. exact Hm.
  - (* absent *)
    rewrite bind_ret, bind_get, (backup_sees_copilot e tm td es).
    destruct (assoc ".copilot" es) as [[f|c]|] eqn:Hc; cbn [when];
      try (intros _; split; eauto; fail).
    rewrite bind_assoc.
    edestruct (copytree_src_file (target_dir // ".copilot")
                 (target_dir // backup_name (now e) // ".copilot")) as (x & w' & E);
      [|rewrite (bind_raise _ _ _ _ _ E); discriminate].
    unfold wlookup. world_cbn.
    rewrite lookup_last_other, lookup_cons by reflexivity. exact Hc.
Qed.

(** C4 (as amended): with backup disabled [create_backup] succeeds and
    changes nothing.  With backup enabled and a timestamped name that is not
    taken, it succeeds whenever the marker is absent or a regular file and
    [.copilot] is absent or a directory, and the only change to the target
    is the new timestamped directory at the end of the root, holding a copy
    of the marker file and of [.copilot] when they exist; with nothing to
    back up the new directory is empty. *)
Theorem create_backup_effect e self w es :
  fs_target w = Some (Dir es) ->
  (backup self = false ->
   create_backup e self w =
   (true, log (Ret Backup (Some true)) (log (Call Backup) w))) /\
  (backup self = true ->
   assoc (backup_name (now e)) es = None ->
   (lookup [".github"; "copilot-instructions.md"] (Some (Dir es)) = None \/
    exists d, lookup [".github"; "copilot-instructions.md"] (Some (Dir es)) =
              Some (File d)) ->
   (assoc ".copilot" es = None \/ exists c, assoc ".copilot" es = Some (Dir c)) ->
   fst (create_backup e self w) = true /\
   fs_target (snd (create_backup e self w)) =
   Some (Dir (es ++ [(backup_name (now e), Dir (saved es))])) /\
   backup_dir (snd (create_backup e self w)) = Some (backup_name (now e))) /\
  (lookup [".github"; "copilot-instructions.md"] (Some (Dir es)) = None ->
   assoc ".copilot" es = None -> saved es = []).
Proof.
  intros Ht. split; [|split].
  - apply create_backup_disabled.
  - intros B F Hm Hc. destruct w as [tg tm td bd ev]. simpl in Ht. subst tg.
    destruct (create_backup_fresh e self tm td bd ev es B F Hm Hc) as [ev' E].
    rewrite E. auto.
  - intros Hm Hc. unfold saved, saved_marker, saved_copilot. now rewrite Hm, Hc.
Qed.

Lemma create_backup_effect_witness :
  fs_target (snd (create_backup (Sample.online Sample.bundle)
                    (mkInstaller Sample.repo true true)
                    (init_world (Some Sample.installed)))) =
  Some (Dir [("main.py", File "print(1)");
             (".github", Dir [("copilot-instructions.md", File "old instructions")]);
             (".copilot", Dir [("agents", Dir [("old.md", File "old agent")])]);
             (".copilot_backup_20260101_120000",
              Dir [("copilot-instructions.md", File "old instructions");
                   (".copilot", Dir [("agents", Dir [("old.md", File "old agent")])])])]).
Proof.
  pose proof (create_backup_effect (Sample.online Sample.bundle)
                (mkInstaller Sample.repo true true)
                (init_world (Some Sample.installed)) _ eq_refl) as (_ & H & _).
  destruct H as (_ & H & _).
  - reflexivity.
  - reflexivity.
  - right. eexists. reflexivity.
  - right. eexists. reflexivity.
  - exact H.
Defined.

(** With backup enabled and nothing to back up, the backup step is not a
    no-operation: it leaves an empty timestamped directory in the target. *)
Lemma create_backup_without_installation_adds_directory :
  let w := init_world (Some Sample.plain) in
  let r := create_backup (Sample.online Sample.bundle)
             (mkInstaller Sample.repo false true) w in
  lookup [".github"; "copilot-instructions.md"] (fs_target w) = None /\
  lookup [".copilot"] (fs_target w) = None /\
  fst r = true /\
  fs_target (snd r) =
    Some (Dir [("main.py", File "print(1)");
               (".copilot_backup_20260101_120000", Dir [])]) /\
  fs_target (snd r) <> fs_target w.
Proof. repeat split. discriminate. Qed.

(** ** Failure of the fetch step *)

(** A failed fetch with backup enabled: the target is not what it was, the
    backup directory made before the fetch is still there. *)
Lemma fetch_failure_keeps_backup_directory :
  let w' := snd (install Sample.offline (mkInstaller Sample.repo true true)
                   (init_world (Some Sample.installed))) in
  In (Ret Fetch (Some false)) (events w') /\
  fs_temp w' = None /\
  lookup [".copilot_backup_20260101_120000"] (Some Sample.installed) = None /\
  lookup [".copilot_backup_20260101_120000"] (fs_target w') =
    Some (Dir [("copilot-instructions.md", File "old instructions");
               (".copilot", Dir [("agents", Dir [("old.md", File "old agent")])])]) /\
  fs_target w' <> Some Sample.installed.
Proof.
  vm_compute. repeat split; try discriminate. tauto.
Qed.

(** ** The download URL *)

Lemma requested_urls_log_other ev w :
  (forall u p, ev <> Op (OpUrlretrieve u p)) ->
  requested_urls (log ev w) = requested_urls w.
Proof.
  intros N. unfold requested_urls. simpl.
  destruct ev as [| | |[]]; try reflexivity. now destruct (N url dst).
Qed.

(** What [download_from_github] asks [urlretrieve] for. *)
Lemma download_from_github_requests e self w :
  mkdtemp_ok e = true ->
  requested_urls (snd (download_from_github e self w)) =
  match download_url (github_url self) with
  | Some url => url :: requested_urls w
  | None => requested_urls w
  end /\
  (download_url (github_url self) = None ->
   fst (download_from_github e self w) = false).
Proof.
  intros Mk.
  unfold download_from_github, traced, try_except, bind, mkdtemp, modify,
    urlretrieve, extractall, say, ret, raise, get, wstore, wlookup, temp_path.
  rewrite Mk.
  cbn [fst snd area set_area log print_info fs_temp fs_target temp_dir
       set_temp_dir subpath app].
  destruct (download_url (github_url self)) as [url|]; cbn; [|auto].
  split; [|discriminate].
  destruct (urlopen e url) as [zip|[part|]]; cbn; auto.
  destruct (zip_members e zip) as [members|part]; cbn; auto.
  destruct (snd (extract_members members _)); cbn; auto.
Qed.

(** C7 (as amended): for a URL that contains "github.com" and, once its
    trailing slashes are stripped, has at least two "/"-separated segments,
    the URL requested is the archive of branch main of the repository named
    by the last two segments; a URL that contains "github.com" and has fewer
    than two segments is rejected, nothing is requested and the fetch step
    fails; every URL that does not contain "github.com" is requested
    verbatim. *)
Theorem download_url_derivation e self w :
  mkdtemp_ok e = true ->
  let url := github_url self in
  let parts := PyStr.split "/" (PyStr.rstrip "/" url) in
  let w' := snd (download_from_github e self w) in
  (PyStr.contains "github.com" url = true -> 2 <= length parts ->
   requested_urls w' =
   ("https://github.com/" ++ PyStr.from_end 2 parts ++ "/" ++
    PyStr.from_end 1 parts ++ "/archive/refs/heads/main.zip")%string
   :: requested_urls w) /\
  (PyStr.contains "github.com" url = true -> length parts < 2 ->
   requested_urls w' = requested_urls w /\
   fst (download_from_github e self w) = false) /\
  (PyStr.contains "github.com" url = false ->
   requested_urls w' = url :: requested_urls w).
Proof.
  intros Mk url parts w'.
  destruct (download_from_github_requests e self w Mk) as [R F].
  fold url in R, F. fold w' in R. unfold download_url in R, F.
  fold parts in R, F.
  split; [|split].
  - intros C L. rewrite C in R.
    apply Nat.leb_le in L. rewrite L in R. exact R.
  - intros C L. rewrite C in R, F.
    assert (L' : Nat.leb 2 (length parts) = false) by (apply Nat.leb_gt; lia).
    rewrite L' in R, F. auto.
  - intros C. rewrite C in R. exact R.
Qed.

Lemma download_url_derivation_witness :
  requested_urls
    (snd (download_from_github (Sample.online Sample.bundle)
            (mkInstaller "https://github.com/user/copilot-agents/" false true)
            (init_world (Some Sample.plain)))) =
  ["https://github.com/user/copilot-agents/archive/refs/heads/main.zip"].
Proof.
  apply (download_url_derivation (Sample.online Sample.bundle)
           (mkInstaller "https://github.com/user/copilot-agents/" false true)
           (init_world (Some Sample.plain)) eq_refl).
  - reflexivity.
  - simpl. lia.
Defined.

(** A URL that contains "github.com" but no "/": no download URL is derived
    from it and it is not used verbatim either; the fetch step fails without
    asking for anything. *)
Lemma github_url_without_segments_is_rejected :
  let r := download_from_github (Sample.online Sample.bundle)
             (mkInstaller "github.com" false true)
             (init_world (Some Sample.plain)) in
  PyStr.contains "github.com" "github.com" = true /\
  download_url "github.com" = None /\
  requested_urls (snd r) = [] /\
  fst r = false.
Proof. repeat split. Qed.

(** *** The last two segments of a repository URL *)

Lemma split_nonempty c s : PyStr.split c s <> [].
Proof.
  destruct s as [|a s]; simpl; [discriminate|].
  destruct (Ascii.eqb a c); [discriminate|].
  destruct (PyStr.split c s); discriminate.
Qed.

Lemma split_app_sep c s t :
  PyStr.split c (s ++ String c t) = PyStr.split c s ++ PyStr.split c t.
Proof.
  induction s as [|a s IH]; simpl.
  - now rewrite Ascii.eqb_refl.
  - destruct (Ascii.eqb a c); [now rewrite IH|].
    rewrite IH. pose proof (split_nonempty c s) as N.
    destruct (PyStr.split c s); [congruence | reflexivity].
Qed.

Lemma split_free c s : PyStr.free_of c s = true -> PyStr.split c s = [s].
Proof.
  induction s as [|a s IH]; simpl; [reflexivity|].
  destruct (Ascii.eqb a c); [discriminate|]. simpl.
  intros F. now rewrite IH.
Qed.

Lemma rstrip_free c s :
  PyStr.free_of c s = true -> PyStr.rstrip c s = s.
Proof.
  induction s as [|a s IH]; simpl; [reflexivity|].
  destruct (Ascii.eqb a c) eqn:E; [discriminate|]. simpl.
  intros F. rewrite IH by exact F. now destruct s.
Qed.

Lemma rstrip_app_free c t s :
  PyStr.free_of c s = true -> s <> EmptyString ->
  PyStr.rstrip c (t ++ s) = (t ++ s)%string.
Proof.
  intros F N. induction t as [|a t IH]; simpl.
  - now apply rstrip_free.
  - rewrite IH. destruct (t ++ s)%string eqn:E; [|reflexivity].
    destruct t; simpl in E; [congruence | discriminate].
Qed.

Lemma string_app_assoc (a b c : string) : ((a ++ b) ++ c = a ++ (b ++ c))%string.
Proof. induction a; simpl; congruence. Qed.

(** A URL that ends in [/user/repo]: its last two segments are [user] and
    [repo], and they are what the archive URL is made from. *)
Lemma download_url_owner_repo pre user repo :
  PyStr.free_of "/" user = true ->
  PyStr.free_of "/" repo = true ->
  repo <> EmptyString ->
  let url := (pre ++ "/" ++ user ++ "/" ++ repo)%string in
  PyStr.contains "github.com" url = true ->
  download_url url = Some (archive_url user repo).
Proof.
  intros Fu Fr Nr url C. unfold download_url. rewrite C.
  assert (R : PyStr.rstrip "/" url = url).
  { unfold url.
    rewrite <- (string_app_assoc user), <- (string_app_assoc "/"),
      <- (string_app_assoc pre).
    now apply rstrip_app_free. }
  rewrite R. unfold url.
  change (pre ++ "/" ++ user ++ "/" ++ repo)%string
    with (pre ++ String "/" (user ++ String "/" repo))%string.
  rewrite !split_app_sep, (split_free _ _ Fu), (split_free _ _ Fr).
  unfold PyStr.from_end. rewrite !length_app. simpl length.
  set (n := length (PyStr.split "/" pre)).
  replace (n + (1 + 1) - 2) with (n + 0) by lia.
  replace (n + (1 + 1) - 1) with (n + 1) by lia.
  subst n. rewrite !app_nth2_plus. simpl nth.
  destruct (Nat.leb 2 _) eqn:L; [reflexivity|].
  apply Nat.leb_gt in L. lia.
Qed.

(** ** install_files, part by part *)

Lemma install_body_no_dirs w :
  temp_dir w = true -> (exists es, fs_temp w = Some (Dir es)) ->
  extracted_dirs w = [] ->
  install_body w = (Ok false, log (Print LError MsgNoDirInArchive) w).
Proof.
  intros Td [es Tm] X. unfold install_body, iterdir_dirs.
  rewrite bind_get, Td. cbn [negb]. rewrite bind_assoc, bind_get.
  unfold wlookup, temp_path. cbn [fst snd area lookup]. rewrite Tm.
  rewrite bind_assoc, bind_get, bind_ret.
  unfold extracted_dirs in X. rewrite Tm in X. unfold temp_path in X.
  rewrite X. reflexivity.
Qed.

Lemma install_body_source w src rest :
  temp_dir w = true -> extracted_dirs w = src :: rest ->
  install_body w =
  (install_marker src ;; install_copilot src ;; install_readme src ;; ret true) w.
Proof.
  intros Td X. unfold install_body, iterdir_dirs.
  rewrite bind_get, Td. cbn [negb]. rewrite bind_assoc, bind_get.
  unfold wlookup, temp_path. cbn [fst snd area lookup].
  unfold extracted_dirs in X.
  destruct (fs_temp w) as [[d|es]|]; try discriminate.
  rewrite bind_assoc, bind_get, bind_ret. unfold temp_path in X.
  rewrite X. reflexivity.
Qed.

Lemma install_marker_missing src w :
  exists_ (src // "copilot-instructions.md") w = false ->
  install_marker src w = (Ok tt, log (Print LWarning MsgMarkerMissing) w).
Proof. intros X. unfold install_marker. now rewrite bind_get, X. Qed.

Lemma install_copilot_missing src w :
  exists_ (src // ".copilot") w = false ->
  install_copilot src w = (Ok tt, log (Print LWarning MsgCopilotMissing) w).
Proof. intros X. unfold install_copilot. now rewrite bind_get, X. Qed.

Lemma install_readme_missing src w :
  exists_ (src // "README.md") w = false ->
  install_readme src w = (Ok tt, w).
Proof. intros X. unfold install_readme. now rewrite bind_get, X. Qed.


Lemma bind_inv_ok {A B} (m : M A) (k : A -> M B) w b w' :
  bind m k w = (Ok b, w') ->
  exists a w1, m w = (Ok a, w1) /\ k a w1 = (Ok b, w').
Proof.
  unfold bind. destruct (m w) as [[a|e] w1]; [eauto | discriminate].
Qed.

Lemma extracted_dirs_temp w p : In p (extracted_dirs w) -> fst p = TempDir.
Proof.
  unfold extracted_dirs. destruct (fs_temp w) as [[d|es]|]; try contradiction.
  intros I. apply filter_In in I. destruct I as [I _].
  apply in_map_iff in I. destruct I as (x & <- & _). reflexivity.
Qed.

Lemma lookup_app p : forall q o, lookup (p ++ q) o = lookup q (lookup p o).
Proof.
  induction p as [|x p IH]; intros q o; simpl; [reflexivity|].
  destruct o as [[d|es]|]; auto using lookup_none.
  all: now rewrite lookup_none.
Qed.

#[export] Instance keeps_copilot_entries_stepwise : Stepwise keeps_copilot_entries.
Proof.
  split; unfold keeps_copilot_entries.
  - auto.
  - intros a b c H1 H2 x q N. rewrite H2, H1; auto.
  - intros e w _ x q N. reflexivity.
Qed.

#[export] Instance keeps_copilot_entries_quiet : Quiet keeps_copilot_entries.
Proof. intros e w x q N. reflexivity. Qed.

Lemma store_ok_readme p v w :
  store_ok keeps_copilot_entries (TargetDir, ".copilot" :: "README.md" :: p) v w.
Proof.
  intros o' S x q N. cbn [fst snd area set_area fs_target] in *.
  apply (lookup_store_diverge (".copilot" :: "README.md" :: p)
           (".copilot" :: x :: q) v (fs_target w) o'); [|exact S].
  cbn [diverge]. rewrite String.eqb_refl.
  destruct (String.eqb "README.md" x) eqn:E; [|reflexivity].
  apply String.eqb_eq in E. congruence.
Qed.

Lemma store_ok_copilot_new w :
  wlookup (TargetDir, [".copilot"]) w = None ->
  store_ok keeps_copilot_entries (TargetDir, [".copilot"]) (Some (Dir [])) w.
Proof.
  intros L o' S x q N. cbn [fst snd area set_area fs_target] in *.
  unfold wlookup in L. cbn [fst snd area] in L.
  apply lookup_store_eq in S.
  change (".copilot" :: x :: q) with ([".copilot"] ++ x :: q).
  rewrite !lookup_app, S, L. cbn [lookup assoc]. now rewrite !lookup_none.
Qed.

Lemma install_readme_keeps_entries src w :
  keeps_copilot_entries w (snd (install_readme src w)).
Proof.
  revert w. change (respects keeps_copilot_entries (install_readme src)).
  unfold install_readme.
  respects_with ltac:(side_intros;
                        first [ apply store_ok_readme
                              | now apply store_ok_copilot_new
                              | idtac ]).
Qed.

Lemma install_marker_touches src w :
  touches [".github"] w (snd (install_marker src w)).
Proof.
  revert w. change (respects (touches [".github"]) (install_marker src)).
  unfold install_marker. respects_with touches_side.
Qed.

Lemma install_marker_backup_dir src w :
  backup_dir (snd (install_marker src w)) = backup_dir w.
Proof.
  revert w. change (respects keeps_backup_dir (install_marker src)).
  unfold install_marker. respects_with backup_dir_side.
Qed.




(** ** Items missing from the archive *)

Lemma bind_ret_true_not_false {A} (m : M A) w w' :
  (m ;; ret true) w <> (Ok false, w').
Proof. unfold bind, ret. destruct (m w) as [[a|e] w1]; discriminate. Qed.

(** [install_files] returns [False] only when there is no directory at the
    top of the temporary directory, or when one of its calls raises. *)
Lemma install_files_fails_only w w' :
  temp_dir w = true ->
  install_files w = (false, w') ->
  extracted_dirs w = [] \/
  exists e w1, install_body (log (Call Install) w) = (Raise e, w1).
Proof.
  intros Td E. unfold install_files, traced, try_except in E.
  destruct (install_body (log (Call Install) w)) as [[b|e] w1] eqn:B; [|eauto].
  left. injection E as -> _.
  destruct (extracted_dirs w) as [|src rest] eqn:X; [reflexivity|].
  rewrite (install_body_source _ src rest) in B by assumption.
  exfalso. rewrite <- !bind_assoc in B.
  exact (bind_ret_true_not_false _ _ _ B).
Qed.

(** The archive has neither the marker file nor [.copilot] nor a readme:
    two warnings, success, and nothing else. *)
Lemma install_files_nothing_to_install w src rest :
  temp_dir w = true ->
  extracted_dirs w = src :: rest ->
  exists_ (src // "copilot-instructions.md") w = false ->
  exists_ (src // ".copilot") w = false ->
  exists_ (src // "README.md") w = false ->
  install_files w =
  (true,
   log (Ret Install (Some true))
     (log (Print LWarning MsgCopilotMissing)
        (log (Print LWarning MsgMarkerMissing) (log (Call Install) w)))).
Proof.
  intros Td X Hm Hc Hr. unfold install_files, traced, try_except.
  rewrite (install_body_source _ src rest) by assumption.
  erewrite bind_ok; [|apply install_marker_missing; exact Hm].
  erewrite bind_ok; [|apply install_copilot_missing; exact Hc].
  erewrite bind_ok; [|apply install_readme_missing; exact Hr].
  reflexivity.
Qed.

(** The archive has neither the marker file nor [.copilot] but it has a
    readme: the readme is installed as [.copilot/README.md], with a success
    message after the two warnings. *)
Lemma install_files_readme_only w src rest d es :
  temp_dir w = true ->
  extracted_dirs w = src :: rest ->
  exists_ (src // "copilot-instructions.md") w = false ->
  exists_ (src // ".copilot") w = false ->
  wlookup (src // "README.md") w = Some (File d) ->
  fs_target w = Some (Dir es) ->
  (assoc ".copilot" es = None ->
   exists w',
     install_files w = (true, w') /\
     fs_target w' = Some (Dir (es ++ [(".copilot", Dir [("README.md", File d)])])) /\
     prints w' = Print LSuccess MsgInstalledReadme
                 :: Print LWarning MsgCopilotMissing
                 :: Print LWarning MsgMarkerMissing :: prints w) /\
  (forall c,
     assoc ".copilot" es = Some (Dir c) ->
     (forall cs, assoc "README.md" c <> Some (Dir cs)) ->
     exists w',
       install_files w = (true, w') /\
       fs_target w' =
         Some (Dir (upsert ".copilot" (Dir (upsert "README.md" (File d) c)) es)) /\
       prints w' = Print LSuccess MsgInstalledReadme
                   :: Print LWarning MsgCopilotMissing
                   :: Print LWarning MsgMarkerMissing :: prints w).
Proof.
  intros Td X Hm Hc Hr Ht.
  assert (Hs : fst src = TempDir)
    by (apply (extracted_dirs_temp w); rewrite X; now left).
  destruct src as [r names]. simpl in Hs. subst r.
  assert (Hx : exists_ ((TempDir, names) // "README.md") w = true)
    by (unfold exists_; now rewrite Hr).
  split.
  - intros Ha. eexists. split; [|split].
    + unfold install_files, traced, try_except.
      rewrite (install_body_source _ (TempDir, names) rest) by assumption.
      erewrite bind_ok; [|apply install_marker_missing; exact Hm].
      erewrite bind_ok; [|apply install_copilot_missing; exact Hc].
      unfold install_readme at 1. rewrite bind_assoc, bind_get.
      change (exists_ ((TempDir, names) // "README.md") _)
        with (exists_ ((TempDir, names) // "README.md") w).
      rewrite Hx. cbn [when]. rewrite !bind_assoc.
      change (parent (target_dir // ".copilot" // "README.md"))
        with (TargetDir, [".copilot"]).
      erewrite bind_ok; cycle 1.
      { rewrite mkdir_parents_top. eapply mkdir_new.
        - unfold wlookup. cbn [fst snd area log fs_target]. rewrite Ht.
          rewrite lookup_cons. exact Ha.
        - cbn [fst snd area log fs_target]. rewrite Ht, store_cons.
          cbn [store]. rewrite upsert_absent by exact Ha. reflexivity. }
      rewrite ?bind_assoc. erewrite bind_ok; cycle 1.
      { eapply copy2_file.
        - exact Hr.
        - unfold is_dir, wlookup.
          cbn [fst snd area set_area log fs_target target_dir subpath app].
          rewrite lookup_last by exact Ha. reflexivity.
        - reflexivity.
        - cbn [fst snd area set_area log fs_target target_dir subpath app].
          apply store_last; [exact Ha | reflexivity]. }
      reflexivity.
    + reflexivity.
    + reflexivity.
  - intros c Ha Hn. eexists. split; [|split].
    + unfold install_files, traced, try_except.
      rewrite (install_body_source _ (TempDir, names) rest) by assumption.
      erewrite bind_ok; [|apply install_marker_missing; exact Hm].
      erewrite bind_ok; [|apply install_copilot_missing; exact Hc].
      unfold install_readme at 1. rewrite bind_assoc, bind_get.
      change (exists_ ((TempDir, names) // "README.md") _)
        with (exists_ ((TempDir, names) // "README.md") w).
      rewrite Hx. cbn [when]. rewrite !bind_assoc.
      change (parent (target_dir // ".copilot" // "README.md"))
        with (TargetDir, [".copilot"]).
      erewrite bind_ok; cycle 1.
      { rewrite mkdir_parents_top. eapply mkdir_existing.
        unfold wlookup. cbn [fst snd area log fs_target]. rewrite Ht.
        rewrite lookup_cons. exact Ha. }
      rewrite ?bind_assoc. erewrite bind_ok; cycle 1.
      { eapply copy2_file.
        - exact Hr.
        - unfold is_dir, wlookup.
          cbn [fst snd area set_area log fs_target target_dir subpath app].
          rewrite Ht, !lookup_cons, Ha. cbn [lookup].
          destruct (assoc "README.md" c) as [[f|cs]|] eqn:A; try reflexivity.
          now destruct (Hn cs).
        - reflexivity.
        - cbn [fst snd area set_area log fs_target target_dir subpath app].
          rewrite Ht, store_cons, Ha, store_cons. cbn [store]. reflexivity. }
      reflexivity.
    + reflexivity.
    + reflexivity.
Qed.

Lemma main_snd e self target :
  snd (main e self target) = snd (install e self (init_world target)).
Proof. unfold main. now destruct (install _ _ _). Qed.

Lemma main_fst e self target :
  fst (main e self target) =
  if fst (install e self (init_world target)) then 0 else 1.
Proof. unfold main. now destruct (install _ _ _). Qed.

(** A run in which [install_files] returned [True] exits with code 0. *)
Lemma install_success_exit_code e self target :
  In (Ret Install (Some true)) (events (snd (main e self target))) ->
  fst (main e self target) = 0.
Proof.
  rewrite main_snd, main_fst. intros Hin.
  destruct (install_run e self (init_world target)) as (o & Hrun & ->).
  pose proof (run_In_flow _ _ _ _ _ _ Hrun eq_refl Hin eq_refl) as Hflow.
  destruct o; try reflexivity; exfalso; simpl in Hflow; intuition discriminate.
Qed.

(** C10 (as amended): [install_files] returns [False] only when no
    directory is found at the top of the temporary directory or when one of
    its calls raises.  An archive without the marker file and without
    [.copilot] is not a failure: without a readme either, [install_files]
    prints two warnings, returns [True] and writes nothing; with a readme
    and no [.copilot] entry in the target, it also creates [.copilot] with
    the readme in it and prints a success message.  A run in which
    [install_files] returned [True] exits with code 0. *)
Theorem missing_items_are_warnings :
  (forall w w',
     temp_dir w = true -> install_files w = (false, w') ->
     extracted_dirs w = [] \/
     exists e w1, install_body (log (Call Install) w) = (Raise e, w1)) /\
  (forall w src rest,
     temp_dir w = true -> extracted_dirs w = src :: rest ->
     exists_ (src // "copilot-instructions.md") w = false ->
     exists_ (src // ".copilot") w = false ->
     exists_ (src // "README.md") w = false ->
     install_files w =
     (true,
      log (Ret Install (Some true))
        (log (Print LWarning MsgCopilotMissing)
           (log (Print LWarning MsgMarkerMissing) (log (Call Install) w))))) /\
  (forall w src rest d es,
     temp_dir w = true -> extracted_dirs w = src :: rest ->
     exists_ (src // "copilot-instructions.md") w = false ->
     exists_ (src // ".copilot") w = false ->
     wlookup (src // "README.md") w = Some (File d) ->
     fs_target w = Some (Dir es) -> assoc ".copilot" es = None ->
     exists w',
       install_files w = (true, w') /\
       fs_target w' = Some (Dir (es ++ [(".copilot", Dir [("README.md", File d)])])) /\
       prints w' = Print LSuccess MsgInstalledReadme
                   :: Print LWarning MsgCopilotMissing
                   :: Print LWarning MsgMarkerMissing :: prints w) /\
  (forall e self target,
     In (Ret Install (Some true)) (events (snd (main e self target))) ->
     fst (main e self target) = 0).
Proof.
  split; [|split; [|split]].
  - apply install_files_fails_only.
  - apply install_files_nothing_to_install.
  - intros w src rest d es Td X Hm Hc Hr Ht Ha.
    now apply (proj1 (install_files_readme_only w src rest d es Td X Hm Hc Hr Ht)).
  - apply install_success_exit_code.
Qed.

Lemma missing_items_are_warnings_witness :
  fst (main (Sample.online [("empty-main", Dir [("notes.txt", File "n")])])
         (mkInstaller Sample.repo false false) (Some Sample.plain)) = 0 /\
  fst (install_files
         (mkWorld (Some Sample.plain)
            (Some (Dir [("repo.zip", File "PK");
                        ("empty-main", Dir [("notes.txt", File "n")])]))
            true None [])) = true.
Proof.
  split.
  - apply (proj2 (proj2 (proj2 missing_items_are_warnings))).
    vm_compute. tauto.
  - rewrite (proj1 (proj2 missing_items_are_warnings)
               (mkWorld (Some Sample.plain)
                  (Some (Dir [("repo.zip", File "PK");
                              ("empty-main", Dir [("notes.txt", File "n")])]))
                  true None [])
               (TempDir, ["empty-main"]) [] eq_refl eq_refl eq_refl eq_refl eq_refl).
    reflexivity.
Defined.

(** Two archives without the marker file and without [.copilot], each with
    a readme.  On a target where [.copilot] is a regular file, [mkdir]
    raises: [install_files] fails although no copy was attempted, and the
    run exits with code 1.  On a plain target the run exits with code 0 but
    it has printed a success message and has created [.copilot] in the
    target. *)
Lemma readme_step_fails_or_writes :
  let stray := Dir [("main.py", File "print(1)"); (".copilot", File "stray")] in
  let a := main (Sample.online Sample.readme_only)
             (mkInstaller Sample.repo true false) (Some stray) in
  let b := main (Sample.online Sample.readme_only)
             (mkInstaller Sample.repo false false) (Some Sample.plain) in
  (fst a = 1 /\
   In (Ret Install (Some false)) (events (snd a)) /\
   ops (snd a) =
     [Op (OpRmtree temp_path);
      Op (OpMkdir (target_dir // ".copilot"));
      Op (OpExtractall temp_path);
      Op (OpUrlretrieve
            "https://github.com/user/copilot-agents/archive/refs/heads/main.zip"
            (temp_path // "repo.zip"));
      Op OpMkdtemp]) /\
  (fst b = 0 /\
   In (Print LSuccess MsgInstalledReadme) (events (snd b)) /\
   lookup [".copilot"] (Some Sample.plain) = None /\
   lookup [".copilot"] (fs_target (snd b)) =
     Some (Dir [("README.md", File "readme")])).
Proof. vm_compute. repeat split; tauto. Qed.

(** ** What a failed install leaves *)

#[export] Instance inst_shape_stepwise : Stepwise inst_shape.
Proof.
  split; unfold inst_shape.
  - auto.
  - intros a b c [] []. auto.
  - intros e w _. auto.
Qed.

#[export] Instance inst_shape_quiet : Quiet inst_shape.
Proof. intros e w. unfold inst_shape. auto. Qed.

(** A store that leaves the marker path and [.copilot] alone. *)
Lemma shape_store_elsewhere p v w o' :
  diverge p [".github"; "copilot-instructions.md"] = true ->
  diverge p [".copilot"] = true ->
  store p v (fs_target w) = Some o' ->
  inst_shape w (set_area TargetDir o' w).
Proof.
  intros D1 D2 S. unfold inst_shape, marker_is_file, copilot_dir_or_absent.
  cbn [set_area fs_target].
  rewrite (lookup_store_diverge _ _ _ _ _ D1 S).
  rewrite (lookup_store_diverge _ _ _ _ _ D2 S). auto.
Qed.








(** ** rollback, exactly *)



(** ** Failure of the install step *)





(** ** The invariant of the target tree *)

Lemma after_backup_touches e self target w1 w2 r w3 :
  validate_target (print_header MsgInstallerHeader (init_world target)) = (true, w1) ->
  check_existing_installation self w1 = (true, w2) ->
  create_backup e self w2 = (r, w3) ->
  touches [backup_name (now e)] (init_world target) w3.
Proof.
  intros E1 E2 E3.
  pose proof (validate_target_same (print_header MsgInstallerHeader (init_world target))) as S1.
  pose proof (check_existing_installation_same self w1) as S2.
  pose proof (create_backup_touches e self w2) as T3.
  rewrite E1 in S1. rewrite E2 in S2. rewrite E3 in T3.
  cbn [snd] in S1, S2, T3.
  destruct S1 as (A1 & A2 & A3 & _), S2 as (C1 & C2 & C3 & _).
  destruct T3 as (T & D & K & F). unfold touches.
  rewrite T, D, C2, C3, A2, A3. repeat split; auto.
  - intros H. apply K. now rewrite C1, A1.
  - intros x q N. rewrite F, C1, A1; auto.
Qed.




(** The backup needs a name that is not in use: a leftover directory of
    that name whose [copilot-instructions.md] is a directory receives the
    backup of the marker inside it, and [rollback] then cannot read the
    marker back and gives up before it restores [.copilot]. *)
Lemma stale_backup_directory_defeats_rollback :
  let stale :=
    Dir [("main.py", File "print(1)");
         (".github", Dir [("copilot-instructions.md", File "old instructions")]);
         (".copilot", Dir [("agents", Dir [("old.md", File "old agent")])]);
         (".copilot_backup_20260101_120000",
          Dir [("copilot-instructions.md", Dir [])])] in
  let archive :=
    [("copilot-agents-main",
      Dir [(".copilot", Dir [("agents", Dir [("a.md", File "agent a")])]);
           ("README.md", Dir [])])] in
  let w' := snd (install (Sample.online archive)
                   (mkInstaller Sample.repo true true)
                   (init_world (Some stale))) in
  In (Ret Backup (Some true)) (events w') /\
  In (Ret Install (Some false)) (events w') /\
  In (Print LError MsgRestoreError) (events w') /\
  lookup [".copilot"; "agents"] (fs_target w') =
    Some (Dir [("a.md", File "agent a")]).
Proof. vm_compute. repeat split; tauto. Qed.

(** * Further properties of the installer *)

(** ** The workflow and the frame of each method *)

(** X1: every run of [install], hence of [main], follows one of the six
    ways of the workflow: the methods are entered and left in the order of
    [flow], a method that returned [False] is the last one of the checks, and
    the exit code is 0 exactly on the way on which every method passed. *)
Theorem workflow_of_every_run e args target :
  exists o,
    rev (steps (snd (main e args target))) = flow o /\
    fst (install e args (init_world target)) = succeeded o /\
    fst (main e args target) = (if succeeded o then 0 else 1).
Proof.
  destruct (install_run e args (init_world target)) as (o & Hrun & Hres).
  exists o. rewrite main_snd, main_fst, Hres. repeat split.
  rewrite (run_steps _ _ _ _ _ Hrun). simpl. rewrite app_nil_r.
  apply rev_involutive.
Qed.

(** X2: whatever its outcome, [create_backup] writes nowhere but below the
    timestamped backup directory: every other path of the target, the
    temporary directory and [self.temp_dir] are what they were. *)
Theorem create_backup_writes_only_backup_dir e self w :
  fs_temp (snd (create_backup e self w)) = fs_temp w /\
  temp_dir (snd (create_backup e self w)) = temp_dir w /\
  (forall x q, x <> backup_name (now e) ->
     lookup (x :: q) (fs_target (snd (create_backup e self w))) =
     lookup (x :: q) (fs_target w)).
Proof.
  destruct (create_backup_touches e self w) as (T & D & _ & F).
  repeat split; auto. intros x q N. apply F. simpl. intuition congruence.
Qed.

Lemma create_backup_writes_only_backup_dir_witness :
  lookup ["main.py"]
    (fs_target (snd (create_backup (Sample.online Sample.bundle)
                       (mkInstaller Sample.repo true true)
                       (init_world (Some Sample.installed))))) =
  Some (File "print(1)").
Proof.
  destruct (create_backup_writes_only_backup_dir (Sample.online Sample.bundle)
              (mkInstaller Sample.repo true true)
              (init_world (Some Sample.installed))) as (_ & _ & H).
  rewrite (H "main.py" []); [reflexivity|].
  apply String.eqb_neq. reflexivity.
Defined.

(** X3: whatever its outcome, also when it fails half way, [install_files]
    writes nowhere but below [.github] and [.copilot] in the target: the
    backup directory and every other entry of the target, the temporary
    directory, [self.temp_dir] and [self.backup_dir] are what they were. *)
Theorem install_files_writes_only_installation w :
  fs_temp (snd (install_files w)) = fs_temp w /\
  temp_dir (snd (install_files w)) = temp_dir w /\
  backup_dir (snd (install_files w)) = backup_dir w /\
  (forall x q, x <> ".github" -> x <> ".copilot" ->
     lookup (x :: q) (fs_target (snd (install_files w))) =
     lookup (x :: q) (fs_target w)).
Proof.
  destruct (install_files_touches w) as (T & D & _ & F).
  repeat split; auto using install_files_backup_dir.
  intros x q N1 N2. apply F. simpl. intuition congruence.
Qed.

Lemma install_files_writes_only_installation_witness :
  lookup ["main.py"]
    (fs_target
       (snd (install_files
               (snd (download_from_github (Sample.online Sample.broken)
                       (mkInstaller Sample.repo true false)
                       (init_world (Some Sample.installed))))))) =
  Some (File "print(1)").
Proof.
  destruct (install_files_writes_only_installation
              (snd (download_from_github (Sample.online Sample.broken)
                      (mkInstaller Sample.repo true false)
                      (init_world (Some Sample.installed))))) as (_ & _ & _ & H).
  rewrite (H "main.py" []); [reflexivity | discriminate | discriminate].
Defined.

Lemma rollback_without_backup w :
  backup_dir w = None ->
  rollback w = log (Ret Rollback None) (log (Call Rollback) w).
Proof.
  intros B. unfold rollback, traced_unit.
  change (backup_dir (log (Call Rollback) w)) with (backup_dir w).
  now rewrite B.
Qed.

(** X4: whatever happens in it, [rollback] writes nowhere but below
    [.github] and [.copilot]: it never changes the backup it reads, the rest
    of the target or the temporary directory; and when no backup was made
    ([self.backup_dir] unset) it does nothing at all, no library call and no
    message. *)
Theorem rollback_writes_only_installation w :
  fs_temp (rollback w) = fs_temp w /\
  backup_dir (rollback w) = backup_dir w /\
  (forall x q, x <> ".github" -> x <> ".copilot" ->
     lookup (x :: q) (fs_target (rollback w)) = lookup (x :: q) (fs_target w)) /\
  (backup_dir w = None ->
   fs_target (rollback w) = fs_target w /\
   ops (rollback w) = ops w /\ prints (rollback w) = prints w).
Proof.
  destruct (rollback_touches w) as (T & _ & _ & F).
  repeat split; auto using rollback_backup_dir.
  - intros x q N1 N2. apply F. simpl. intuition congruence.
  - now rewrite rollback_without_backup.
  - now rewrite rollback_without_backup.
  - now rewrite rollback_without_backup.
Qed.

Lemma rollback_writes_only_installation_witness :
  ops (rollback (init_world (Some Sample.installed))) = [].
Proof.
  apply (rollback_writes_only_installation (init_world (Some Sample.installed))).
  reflexivity.
Defined.

(** X5: [download_from_github] and [cleanup] never write to the target:
    whether the download succeeds, fails in [mkdtemp], is refused for its
    URL, fails on the network or in the zip file, the target tree and
    [self.backup_dir] are what they were. *)
Theorem fetch_and_cleanup_leave_target e self w :
  fs_target (snd (download_from_github e self w)) = fs_target w /\
  backup_dir (snd (download_from_github e self w)) = backup_dir w /\
  fs_target (cleanup w) = fs_target w /\
  backup_dir (cleanup w) = backup_dir w.
Proof.
  destruct (download_from_github_only_temp e self w) as [A B].
  destruct (cleanup_only_temp w) as [C D]. auto.
Qed.

(** ** The download URL *)

Lemma rstrip_app_sep c s : PyStr.rstrip c (s ++ String c "") = PyStr.rstrip c s.
Proof.
  induction s as [|a s IH]; simpl.
  - now rewrite Ascii.eqb_refl.
  - now rewrite IH.
Qed.

Lemma rstrip_no_trailing c s s0 : PyStr.rstrip c s <> (s0 ++ String c "")%string.
Proof.
  revert s0. induction s as [|a s IH]; intros s0; simpl.
  - destruct s0; discriminate.
  - destruct (PyStr.rstrip c s) as [|b r] eqn:R.
    + destruct (Ascii.eqb a c) eqn:E; [destruct s0; discriminate|].
      destruct s0 as [|x s0]; simpl.
      * intros H. injection H as ->. now rewrite Ascii.eqb_refl in E.
      * destruct s0; discriminate.
    + destruct s0 as [|x s0]; simpl; [discriminate|].
      intros H. injection H as _ H. exact (IH s0 H).
Qed.

Lemma prefix_app pat : forall s t,
  String.prefix pat s = true -> String.prefix pat (s ++ t) = true.
Proof.
  induction pat as [|a pat IH]; intros s t; [now destruct s, t|].
  destruct s as [|b s]; simpl; [discriminate|].
  destruct (ascii_dec a b); [apply IH | discriminate].
Qed.

Lemma contains_app pat s t :
  PyStr.contains pat s = true -> PyStr.contains pat (s ++ t) = true.
Proof.
  induction s as [|a s IH]; simpl.
  - destruct pat; [|discriminate]. intros _. now destruct t.
  - intros H. apply orb_true_iff in H. apply orb_true_iff.
    destruct H as [H|H]; [left | right; auto].
    exact (prefix_app pat (String a s) t H).
Qed.

Lemma split_length c s :
  Nat.leb 2 (length (PyStr.split c s)) = negb (PyStr.free_of c s).
Proof.
  induction s as [|a s IH]; simpl; [reflexivity|].
  destruct (Ascii.eqb a c); simpl.
  - pose proof (split_nonempty c s) as N.
    destruct (PyStr.split c s); [congruence | reflexivity].
  - rewrite <- IH. pose proof (split_nonempty c s) as N.
    destruct (PyStr.split c s) as [|w ws]; [congruence | reflexivity].
Qed.

Lemma split_all_free c s : Forall (fun p => PyStr.free_of c p = true) (PyStr.split c s).
Proof.
  induction s as [|a s IH]; simpl.
  - constructor; [reflexivity | constructor].
  - destruct (Ascii.eqb a c) eqn:E.
    + constructor; [reflexivity | exact IH].
    + destruct (PyStr.split c s) as [|w ws]; constructor; simpl; rewrite ?E; auto.
      * now inversion IH.
      * now inversion IH.
Qed.

Lemma split_singleton c s t : PyStr.split c s = [t] -> s = t.
Proof.
  revert t. induction s as [|a s IH]; intros t; simpl.
  - now intros [= <-].
  - pose proof (split_nonempty c s) as N.
    destruct (Ascii.eqb a c).
    + destruct (PyStr.split c s); [congruence | discriminate].
    + destruct (PyStr.split c s) as [|w ws]; [congruence|].
      intros [= <- ->]. now rewrite (IH w eq_refl).
Qed.

Lemma split_snoc c s : forall l r,
  l <> [] -> PyStr.split c s = l ++ [r] ->
  exists s0, s = (s0 ++ String c r)%string /\ PyStr.split c s0 = l.
Proof.
  induction s as [|a s IH]; intros l r Nl; simpl.
  - destruct l as [|x [|y l]]; [congruence | discriminate | discriminate].
  - destruct l as [|x l]; [congruence|]. clear Nl.
    destruct (Ascii.eqb a c) eqn:E.
    + apply Ascii.eqb_eq in E. subst a. simpl. intros [= <- H].
      destruct l as [|y l].
      * apply split_singleton in H. subst s. exists EmptyString. auto.
      * destruct (IH (y :: l) r) as (s0 & -> & S0); [discriminate | exact H|].
        exists (String c s0). simpl. rewrite Ascii.eqb_refl, S0. auto.
    + destruct (PyStr.split c s) as [|w ws] eqn:S; simpl.
      * now destruct (split_nonempty c s).
      * intros [= <- ->].
        destruct (IH (w :: l) r) as (s0 & -> & S0); [discriminate | reflexivity|].
        exists (String a s0). simpl. rewrite E, S0. auto.
Qed.

Lemma from_end_snoc2 l u r :
  PyStr.from_end 2 (l ++ [u; r]) = u /\ PyStr.from_end 1 (l ++ [u; r]) = r.
Proof.
  unfold PyStr.from_end. rewrite length_app. simpl length.
  replace (length l + 2 - 2) with (length l + 0) by lia.
  replace (length l + 2 - 1) with (length l + 1) by lia.
  now rewrite !app_nth2_plus.
Qed.

Lemma list_two_last {A} (l : list A) :
  2 <= length l -> exists l0 u r, l = l0 ++ [u; r].
Proof.
  intros L. destruct (exists_last (l := l)) as (l1 & r & ->).
  { destruct l; simpl in L; [lia | discriminate]. }
  rewrite length_app in L. simpl in L.
  destruct (exists_last (l := l1)) as (l0 & u & ->).
  { destruct l1; simpl in L; [lia | discriminate]. }
  exists l0, u, r. now rewrite <- app_assoc.
Qed.

(** X6: a source URL that contains "github.com" is rejected exactly when,
    its trailing slashes apart, it contains no slash at all; every other
    URL, of GitHub or not, yields a URL to download from. *)
Theorem download_url_rejected_iff u :
  download_url u = None <->
  PyStr.contains "github.com" u = true /\
  PyStr.free_of "/" (PyStr.rstrip "/" u) = true.
Proof.
  unfold download_url. rewrite split_length.
  destruct (PyStr.contains "github.com" u);
    destruct (PyStr.free_of "/" (PyStr.rstrip "/" u)); simpl;
    split; try tauto; try discriminate; intros [? ?]; discriminate.
Qed.

(** X7: whatever a GitHub URL looks like, what is downloaded is the archive
    of branch main of a repository of github.com: the owner and the
    repository are the two segments the URL ends with once its trailing
    slashes are stripped (whatever precedes them is ignored), neither
    contains a slash, and the repository name is not empty. *)
Theorem download_url_github_shape u d :
  PyStr.contains "github.com" u = true ->
  download_url u = Some d ->
  exists pre user repo,
    d = archive_url user repo /\
    PyStr.rstrip "/" u = (pre ++ user ++ "/" ++ repo)%string /\
    (pre = EmptyString \/ exists pre', pre = (pre' ++ "/")%string) /\
    PyStr.free_of "/" user = true /\
    PyStr.free_of "/" repo = true /\
    repo <> EmptyString.
Proof.
  intros C. unfold download_url. rewrite C.
  destruct (Nat.leb 2 _) eqn:L; [|discriminate]. apply Nat.leb_le in L.
  destruct (list_two_last _ L) as (l & user & repo & S).
  rewrite S. destruct (from_end_snoc2 l user repo) as [-> ->].
  intros [= <-].
  pose proof (split_all_free "/" (PyStr.rstrip "/" u)) as F. rewrite S in F.
  apply Forall_app in F. destruct F as [_ F].
  inversion F as [|? ? Fu F']; subst. inversion F' as [|? ? Fr _]; subst.
  change (l ++ [user; repo]) with (l ++ [user] ++ [repo]) in S.
  rewrite app_assoc in S.
  assert (Nl : l ++ [user] <> []) by (destruct l; discriminate).
  destruct (split_snoc _ _ _ _ Nl S) as (s0 & R & S0).
  assert (Nr : repo <> EmptyString).
  { intros ->. exact (rstrip_no_trailing _ _ _ R). }
  destruct l as [|x l].
  - apply split_singleton in S0. subst s0.
    exists EmptyString, user, repo. repeat split; auto.
  - assert (Nx : x :: l <> []) by discriminate.
    destruct (split_snoc _ _ _ _ Nx S0) as (s1 & -> & _).
    exists (s1 ++ "/")%string, user, repo. repeat split; eauto.
    rewrite R. rewrite !string_app_assoc. reflexivity.
Qed.

Lemma download_url_github_shape_witness :
  exists pre user repo,
    archive_url "user" "copilot-agents" = archive_url user repo /\
    PyStr.rstrip "/" Sample.repo = (pre ++ user ++ "/" ++ repo)%string /\
    (pre = EmptyString \/ exists pre', pre = (pre' ++ "/")%string) /\
    PyStr.free_of "/" user = true /\
    PyStr.free_of "/" repo = true /\
    repo <> EmptyString.
Proof.
  apply (download_url_github_shape Sample.repo); reflexivity.
Defined.

(** X8: trailing slashes of a GitHub URL do not matter: the URL with one
    more slash at its end is resolved to the same download URL, or rejected
    alike. *)
Theorem download_url_trailing_slash u :
  PyStr.contains "github.com" u = true ->
  download_url (u ++ "/") = download_url u.
Proof.
  intros C. unfold download_url.
  rewrite (contains_app _ _ "/" C), C, rstrip_app_sep. reflexivity.
Qed.

Lemma download_url_trailing_slash_witness :
  download_url (Sample.repo ++ "/") = download_url Sample.repo.
Proof.
  apply download_url_trailing_slash. reflexivity.
Defined.

(** ** What a whole run leaves in the target *)

Lemma print_post_install_state w :
  fs_target (print_post_install w) = fs_target w /\
  fs_temp (print_post_install w) = fs_temp w /\
  backup_dir (print_post_install w) = backup_dir w.
Proof.
  unfold print_post_install, print, print_header. cbv zeta.
  cbn [log backup_dir]. destruct (backup_dir w) eqn:E; repeat split; exact E.
Qed.

Lemma not_installation_names x :
  x <> ".github" -> x <> ".copilot" -> ~ In x [".github"; ".copilot"].
Proof. simpl. intuition congruence. Qed.

Lemma backup_name_beside_installation t : ~ In (backup_name t) [".github"; ".copilot"].
Proof.
  simpl. intros [H|[H|[]]].
  - pose proof (backup_name_not_github t) as N.
    rewrite H, String.eqb_refl in N. discriminate.
  - pose proof (backup_name_not_copilot t) as N.
    rewrite H, String.eqb_refl in N. discriminate.
Qed.

(** From the state the backup step returned to the end of the run, only
    [.github] and [.copilot] may change in the target. *)
Lemma after_backup_frame e self target o w' w1 w2 w3 :
  validate_target (print_header MsgInstallerHeader (init_world target)) = (true, w1) ->
  check_existing_installation self w1 = (true, w2) ->
  create_backup e self w2 = (true, w3) ->
  run e self (init_world target) o w' ->
  backup_dir w' = backup_dir w3 /\
  ((exists es, fs_target w3 = Some (Dir es)) ->
   exists es', fs_target w' = Some (Dir es')) /\
  forall x q, ~ In x [".github"; ".copilot"] ->
    lookup (x :: q) (fs_target w') = lookup (x :: q) (fs_target w3).
Proof.
  intros E1 E2 E3 Hrun.
  destruct Hrun as [v1 F1 | v1 v2 F1 F2 | v1 v2 v3 F1 F2 F3
                   | v1 v2 v3 v4 F1 F2 F3 F4
                   | v1 v2 v3 v4 v5 F1 F2 F3 F4 F5
                   | v1 v2 v3 v4 v5 F1 F2 F3 F4 F5];
    rewrite E1 in F1; try discriminate; injection F1 as <-;
    rewrite E2 in F2; try discriminate; injection F2 as <-;
    rewrite E3 in F3; try discriminate; injection F3 as <-.
  - destruct (download_from_github_only_temp e self w3) as [O B].
    rewrite F4 in O, B. simpl in O, B.
    destruct (cleanup_only_temp v4) as [C D].
    rewrite D, B, C, O. repeat split; auto.
  - destruct (download_from_github_only_temp e self w3) as [O B].
    rewrite F4 in O, B. simpl in O, B.
    pose proof (install_files_touches v4) as (_ & _ & K5 & T5).
    pose proof (install_files_backup_dir v4) as B5.
    rewrite F5 in K5, T5, B5. cbn [snd] in K5, T5, B5.
    destruct (rollback_touches (print_error MsgInstallFailed v5)) as (_ & _ & K6 & T6).
    pose proof (rollback_backup_dir (print_error MsgInstallFailed v5)) as B6.
    destruct (cleanup_only_temp (rollback (print_error MsgInstallFailed v5))) as [C D].
    change (fs_target (print_error MsgInstallFailed v5)) with (fs_target v5) in *.
    change (backup_dir (print_error MsgInstallFailed v5)) with (backup_dir v5) in *.
    rewrite D, B6, C, B5, B. repeat split.
    + intros H. apply K6, K5. now rewrite O.
    + intros x q N. rewrite (T6 x q N), (T5 x q N), O. reflexivity.
  - destruct (download_from_github_only_temp e self w3) as [O B].
    rewrite F4 in O, B. simpl in O, B.
    pose proof (install_files_touches v4) as (_ & _ & K5 & T5).
    pose proof (install_files_backup_dir v4) as B5.
    rewrite F5 in K5, T5, B5. cbn [snd] in K5, T5, B5.
    destruct (cleanup_only_temp v5) as [C D].
    destruct (print_post_install_state (cleanup v5)) as (P1 & _ & P3).
    rewrite P3, P1, D, C, B5, B. repeat split.
    + intros H. apply K5. now rewrite O.
    + intros x q N. rewrite (T5 x q N), O. reflexivity.
Qed.

(** X9: whatever the outcome of a run, everything in the target outside
    [.github], [.copilot] and the timestamped backup directory is what it
    was before the run, a target that was a directory is still one, and no
    temporary directory is left behind; with backup disabled the backup
    name is no exception. *)
Theorem run_keeps_rest_of_target e self target :
  let w' := snd (main e self target) in
  fs_temp w' = None /\
  ((exists es, target = Some (Dir es)) ->
   exists es', fs_target w' = Some (Dir es')) /\
  (forall x q, x <> ".github" -> x <> ".copilot" -> x <> backup_name (now e) ->
     lookup (x :: q) (fs_target w') = lookup (x :: q) target) /\
  (backup self = false ->
   forall x q, x <> ".github" -> x <> ".copilot" ->
     lookup (x :: q) (fs_target w') = lookup (x :: q) target).
Proof.
  intros w'. subst w'. rewrite main_snd.
  destruct (install_run e self (init_world target)) as (o & Hrun & _).
  remember (snd (install e self (init_world target))) as w' eqn:Ew. clear Ew.
  pose proof Hrun as Hrun'.
  destruct Hrun as [w1 E1 | w1 w2 E1 E2 | w1 w2 w3 E1 E2 E3
                   | w1 w2 w3 w4 E1 E2 E3 E4
                   | w1 w2 w3 w4 w5 E1 E2 E3 E4 E5
                   | w1 w2 w3 w4 w5 E1 E2 E3 E4 E5].
  - pose proof (validate_target_same (print_header MsgInstallerHeader (init_world target)))
      as (A1 & A2 & _).
    rewrite E1 in A1, A2. simpl in A1, A2. rewrite A1, A2. repeat split; auto.
  - pose proof (validate_target_same (print_header MsgInstallerHeader (init_world target)))
      as (A1 & A2 & _).
    pose proof (check_existing_installation_same self w1) as (C1 & C2 & _).
    rewrite E1 in A1, A2. rewrite E2 in C1, C2. simpl in A1, A2, C1, C2.
    rewrite C1, C2, A1, A2. repeat split; auto.
  - pose proof (after_backup_touches _ _ _ _ _ _ _ E1 E2 E3) as (T & _ & K & F).
    cbn [print_error log fs_temp fs_target init_world] in *.
    repeat split; auto.
    + intros x q N1 N2 N3. apply F. simpl. intuition congruence.
    + intros B. rewrite (create_backup_disabled e self w2 B) in E3. discriminate.
  - destruct (before_fetch _ _ _ _ _ _ E1 E2 E3) as (_ & (_ & _ & K & F) & Nb & _).
    destruct (after_backup_frame _ _ _ _ _ _ _ _ E1 E2 E3 Hrun') as (_ & K' & F').
    cbn [init_world fs_target] in *.
    repeat split.
    + apply (run_temp_removed _ _ _ _ _ Hrun'). simpl. tauto.
    + auto.
    + intros x q N1 N2 N3. rewrite F' by now apply not_installation_names.
      apply F. simpl. intuition congruence.
    + intros B x q N1 N2. rewrite F' by now apply not_installation_names.
      now rewrite Nb.
  - destruct (before_fetch _ _ _ _ _ _ E1 E2 E3) as (_ & (_ & _ & K & F) & Nb & _).
    destruct (after_backup_frame _ _ _ _ _ _ _ _ E1 E2 E3 Hrun') as (_ & K' & F').
    cbn [init_world fs_target] in *.
    repeat split.
    + apply (run_temp_removed _ _ _ _ _ Hrun'). simpl. tauto.
    + auto.
    + intros x q N1 N2 N3. rewrite F' by now apply not_installation_names.
      apply F. simpl. intuition congruence.
    + intros B x q N1 N2. rewrite F' by now apply not_installation_names.
      now rewrite Nb.
  - destruct (before_fetch _ _ _ _ _ _ E1 E2 E3) as (_ & (_ & _ & K & F) & Nb & _).
    destruct (after_backup_frame _ _ _ _ _ _ _ _ E1 E2 E3 Hrun') as (_ & K' & F').
    cbn [init_world fs_target] in *.
    repeat split.
    + apply (run_temp_removed _ _ _ _ _ Hrun'). simpl. tauto.
    + auto.
    + intros x q N1 N2 N3. rewrite F' by now apply not_installation_names.
      apply F. simpl. intuition congruence.
    + intros B x q N1 N2. rewrite F' by now apply not_installation_names.
      now rewrite Nb.
Qed.

Lemma run_keeps_rest_of_target_witness :
  lookup ["main.py"]
    (fs_target (snd (main (Sample.online Sample.broken)
                       (mkInstaller Sample.repo true true)
                       (Some Sample.installed)))) =
  Some (File "print(1)").
Proof.
  destruct (run_keeps_rest_of_target (Sample.online Sample.broken)
              (mkInstaller Sample.repo true true) (Some Sample.installed))
    as (_ & _ & H & _).
  rewrite (H "main.py" []); [reflexivity | discriminate | discriminate |].
  apply String.eqb_neq. reflexivity.
Defined.

(** The state the backup step returns when it succeeds under a name that
    was not in use. *)
Lemma backup_made e self es w1 w2 w3 :
  backup self = true ->
  assoc (backup_name (now e)) es = None ->
  validate_target (print_header MsgInstallerHeader (init_world (Some (Dir es)))) = (true, w1) ->
  check_existing_installation self w1 = (true, w2) ->
  create_backup e self w2 = (true, w3) ->
  fs_target w3 = Some (Dir (es ++ [(backup_name (now e), Dir (saved es))])) /\
  backup_dir w3 = Some (backup_name (now e)).
Proof.
  intros B Fr E1 E2 E3.
  pose proof (validate_target_same (print_header MsgInstallerHeader (init_world (Some (Dir es))))) as (A1 & _).
  pose proof (check_existing_installation_same self w1) as (C1 & _).
  rewrite E1 in A1. rewrite E2 in C1. simpl in A1, C1. rewrite A1 in C1.
  destruct w2 as [tg2 tm2 td2 bd2 ev2]. simpl in C1. subst tg2.
  assert (Sh := create_backup_true_shape e self tm2 td2 bd2 ev2 es B Fr).
  rewrite E3 in Sh. destruct (Sh eq_refl) as [Hm Hc].
  destruct (create_backup_fresh e self tm2 td2 bd2 ev2 es B Fr Hm Hc) as [ev3 E3'].
  rewrite E3' in E3. injection E3 as <-. auto.
Qed.

(** X10: a backup that was made is never touched again: when the backup
    step succeeded under a name that was not in use, then at the end of the
    run, whether the run succeeded, the fetch failed or the install failed
    and was rolled back, the backup directory holds exactly the marker file
    and the [.copilot] directory the target had before the run, and
    [self.backup_dir] names it. *)
Theorem backup_survives_run e self es :
  let w' := snd (main e self (Some (Dir es))) in
  backup self = true ->
  assoc (backup_name (now e)) es = None ->
  In (Ret Backup (Some true)) (events w') ->
  lookup [backup_name (now e)] (fs_target w') = Some (Dir (saved es)) /\
  backup_dir w' = Some (backup_name (now e)).
Proof.
  intros w' B Fr Hin. subst w'. rewrite main_snd in *.
  destruct (install_run e self (init_world (Some (Dir es)))) as (o & Hrun & _).
  remember (snd (install e self (init_world (Some (Dir es))))) as w' eqn:Ew. clear Ew.
  pose proof (run_In_flow _ _ _ _ _ _ Hrun eq_refl Hin eq_refl) as Hflow.
  pose proof Hrun as Hrun'.
  destruct Hrun as [w1 E1 | w1 w2 E1 E2 | w1 w2 w3 E1 E2 E3
                   | w1 w2 w3 w4 E1 E2 E3 E4
                   | w1 w2 w3 w4 w5 E1 E2 E3 E4 E5
                   | w1 w2 w3 w4 w5 E1 E2 E3 E4 E5];
    try (exfalso; simpl in Hflow; intuition discriminate); clear Hflow Hin;
    destruct (backup_made _ _ _ _ _ _ B Fr E1 E2 E3) as [T3 B3];
    destruct (after_backup_frame _ _ _ _ _ _ _ _ E1 E2 E3 Hrun') as (Bd & _ & F');
    (split; [|now rewrite Bd]);
    rewrite (F' _ [] (backup_name_beside_installation (now e))), T3;
    rewrite lookup_cons; cbn [lookup]; now apply assoc_last_eq.
Qed.

Lemma backup_survives_run_witness :
  lookup [backup_name Sample.clock]
    (fs_target (snd (main (Sample.online Sample.broken)
                       (mkInstaller Sample.repo true true)
                       (Some Sample.installed)))) =
  Some (Dir [("copilot-instructions.md", File "old instructions");
             (".copilot", Dir [("agents", Dir [("old.md", File "old agent")])])]).
Proof.
  apply (backup_survives_run (Sample.online Sample.broken)
           (mkInstaller Sample.repo true true)
           [("main.py", File "print(1)");
            (".github", Dir [("copilot-instructions.md", File "old instructions")]);
            (".copilot", Dir [("agents", Dir [("old.md", File "old agent")])])]).
  - reflexivity.
  - reflexivity.
  - vm_compute. tauto.
Defined.

(** X11: with backup enabled and a backup name that is not in use,
    [create_backup] succeeds exactly when the marker path is absent or a
    regular file and [.copilot] is absent or a directory: it fails, and
    makes the run stop, only for a marker path that is a directory or a
    [.copilot] that is a regular file. *)
Theorem create_backup_succeeds_iff e self w es :
  backup self = true ->
  fs_target w = Some (Dir es) ->
  assoc (backup_name (now e)) es = None ->
  fst (create_backup e self w) = true <->
  (lookup [".github"; "copilot-instructions.md"] (Some (Dir es)) = None \/
   exists d, lookup [".github"; "copilot-instructions.md"] (Some (Dir es)) = Some (File d)) /\
  (assoc ".copilot" es = None \/ exists c, assoc ".copilot" es = Some (Dir c)).
Proof.
  intros B Ht Fr. destruct w as [tg tm td bd ev]. simpl in Ht. subst tg. split.
  - now apply create_backup_true_shape.
  - intros [Hm Hc].
    destruct (create_backup_fresh e self tm td bd ev es B Fr Hm Hc) as [ev' E].
    now rewrite E.
Qed.

Lemma create_backup_succeeds_iff_witness :
  fst (create_backup (Sample.online Sample.bundle)
         (mkInstaller Sample.repo true true)
         (init_world (Some Sample.installed))) = true.
Proof.
  apply (create_backup_succeeds_iff (Sample.online Sample.bundle)
           (mkInstaller Sample.repo true true)
           (init_world (Some Sample.installed))
           [("main.py", File "print(1)");
            (".github", Dir [("copilot-instructions.md", File "old instructions")]);
            (".copilot", Dir [("agents", Dir [("old.md", File "old agent")])])]);
    try reflexivity.
  split; right; eexists; reflexivity.
Defined.

(** X12: when the backup step fails the run stops there: exit code 1 after
    the message that the run is aborted, nothing is downloaded or installed
    (the fetch, install, rollback and cleanup steps are never entered), no
    temporary directory is made, and nothing outside the backup directory
    has changed in the target; backup was enabled. *)
Theorem backup_failure_aborts e self target :
  let w' := snd (main e self target) in
  In (Ret Backup (Some false)) (events w') ->
  fst (main e self target) = 1 /\
  backup self = true /\
  hd_error (events w') = Some (Print LError MsgBackupAbort) /\
  (forall s, In (Call s) (events w') ->
     s = ValidateTarget \/ s = CheckExisting \/ s = Backup) /\
  fs_temp w' = None /\
  (forall x q, x <> backup_name (now e) ->
     lookup (x :: q) (fs_target w') = lookup (x :: q) target).
Proof.
  intros w' Hin. subst w'. rewrite main_fst, main_snd in *.
  destruct (install_run e self (init_world target)) as (o & Hrun & Hres).
  rewrite Hres. clear Hres.
  remember (snd (install e self (init_world target))) as w' eqn:Ew. clear Ew.
  pose proof (run_In_flow _ _ _ _ _ _ Hrun eq_refl Hin eq_refl) as Hflow.
  assert (Ho : o = BackupFailed)
    by (destruct o; try reflexivity; exfalso; simpl in Hflow; intuition discriminate).
  subst o. clear Hflow Hin.
  assert (Hc : forall s, In (Call s) (events w') ->
                 s = ValidateTarget \/ s = CheckExisting \/ s = Backup).
  { intros s I.
    pose proof (run_In_flow _ _ _ _ _ _ Hrun eq_refl I eq_refl) as Hf.
    simpl in Hf. intuition congruence. }
  inversion Hrun as [| |w1 w2 w3 E1 E2 E3| | |]; subst.
  pose proof (after_backup_touches _ _ _ _ _ _ _ E1 E2 E3) as (T & _ & _ & F).
  cbn [print_error log fs_temp fs_target init_world events hd_error] in *.
  repeat split; auto.
  - destruct (backup self) eqn:B; [reflexivity|].
    rewrite (create_backup_disabled e self w2 B) in E3. discriminate.
  - intros x q N. apply F. simpl. intuition congruence.
Qed.

Lemma backup_failure_aborts_witness :
  fs_temp (snd (main (Sample.online Sample.bundle)
                  (mkInstaller Sample.repo true true)
                  (Some (Dir [(".copilot", File "not a directory")])))) = None.
Proof.
  apply (backup_failure_aborts (Sample.online Sample.bundle)
           (mkInstaller Sample.repo true true)
           (Some (Dir [(".copilot", File "not a directory")]))).
  vm_compute. tauto.
Defined.

(** ** Failure after the backup: what remains in the target *)

#[export] Instance stays_dir_stepwise x : Stepwise (stays_dir x).
Proof.
  split; unfold stays_dir.
  - auto.
  - intros a b c H1 H2 H. auto.
  - intros e w _ H. exact H.
Qed.

#[export] Instance stays_dir_quiet x : Quiet (stays_dir x).
Proof. intros e w H. exact H. Qed.

Lemma store_ok_stays_below x y p v w :
  store_ok (stays_dir x) (TargetDir, x :: y :: p) v w.
Proof.
  intros o' S _. cbn [fst snd area set_area fs_target] in *.
  exact (lookup_store_above _ _ _ _ _ _ S).
Qed.

Lemma store_ok_stays_new x w :
  store_ok (stays_dir x) (TargetDir, [x]) (Some (Dir [])) w.
Proof.
  intros o' S _. cbn [fst snd area set_area fs_target] in *.
  apply lookup_store_eq in S. eauto.
Qed.

Ltac stays_side :=
  side_intros;
  first [ apply store_ok_stays_below | apply store_ok_stays_new | idtac ].

(** A [mkdir] that returned has left a directory. *)
Lemma mkdir_ok_dir p w w' :
  mkdir false p w = (Ok tt, w') -> exists es, wlookup p w' = Some (Dir es).
Proof.
  unfold mkdir, bind, modify, mkdir_exist_ok.
  set (w0 := log (Op (OpMkdir p)) w).
  destruct (wlookup p w0) as [[d|es]|] eqn:L; try discriminate.
  - intros [= <-]. eauto.
  - unfold wstore. destruct (store _ _ _) as [o'|] eqn:S; [|discriminate].
    intros [= <-]. apply lookup_store_eq in S. exists [].
    unfold wlookup. destruct p as [[] names]; exact S.
Qed.

(** With backup enabled, a [create_backup] that returned [True] has left
    the backup directory in the target, whether its name was in use or not. *)
Lemma create_backup_leaves_dir e self w w' :
  backup self = true ->
  create_backup e self w = (true, w') ->
  exists bk, lookup [backup_name (now e)] (fs_target w') = Some (Dir bk).
Proof.
  intros B. unfold create_backup, traced. rewrite B. cbn [negb]. cbv zeta.
  unfold try_except.
  set (w0 := set_backup_dir (Some (backup_name (now e))) (log (Call Backup) w)).
  destruct (bind (mkdir false _) _ w0) as [[b|ex] w1] eqn:Body; [|discriminate].
  intros [= -> <-].
  change (fs_target (log (Ret Backup (Some true)) w1)) with (fs_target w1).
  apply bind_inv_ok in Body. destruct Body as ([] & wA & Emk & Body).
  destruct (mkdir_ok_dir _ _ _ Emk) as [bk0 L0].
  unfold wlookup in L0. cbn [fst snd target_dir subpath app area] in L0.
  cbv beta in Body.
  match type of Body with
  | ?m wA = _ =>
      assert (R : respects (stays_dir (backup_name (now e))) m)
        by respects_with stays_side;
      specialize (R wA)
  end.
  rewrite Body in R. cbn [snd] in R. apply R. eauto.
Qed.

(** C2 (as amended): when the fetch step fails the run fails, the temporary
    directory is gone, and every path of the target outside the timestamped
    backup directory is what it was before the run; with backup disabled the
    whole target tree is identical to its state before the run; with backup
    enabled the backup directory made before the fetch is still in the
    target, and when its name was not in use before the run it holds the
    copy of the marker file and of [.copilot] that the backup step made. *)
Theorem fetch_failure_leaves_target e self target :
  In (Ret Fetch (Some false)) (events (snd (install e self (init_world target)))) ->
  fst (install e self (init_world target)) = false /\
  fs_temp (snd (install e self (init_world target))) = None /\
  (backup self = false ->
   fs_target (snd (install e self (init_world target))) = target) /\
  (forall x q, x <> backup_name (now e) ->
     lookup (x :: q) (fs_target (snd (install e self (init_world target)))) =
     lookup (x :: q) target) /\
  (backup self = true ->
   exists bk,
     lookup [backup_name (now e)]
       (fs_target (snd (install e self (init_world target)))) = Some (Dir bk)) /\
  (backup self = true ->
   forall es, target = Some (Dir es) -> assoc (backup_name (now e)) es = None ->
     lookup [backup_name (now e)]
       (fs_target (snd (install e self (init_world target)))) =
     Some (Dir (saved es))).
Proof.
  intros Hin.
  destruct (install_run e self (init_world target)) as (o & Hrun & Hres).
  rewrite Hres. clear Hres.
  remember (snd (install e self (init_world target))) as w' eqn:Ew. clear Ew.
  pose proof (run_In_flow _ _ _ _ _ _ Hrun eq_refl Hin eq_refl) as Hflow.
  destruct Hrun as [w1 E1 | w1 w2 E1 E2 | w1 w2 w3 E1 E2 E3
                   | w1 w2 w3 w4 E1 E2 E3 E4
                   | w1 w2 w3 w4 w5 E1 E2 E3 E4 E5
                   | w1 w2 w3 w4 w5 E1 E2 E3 E4 E5];
    try (exfalso; simpl in Hflow; intuition discriminate); clear Hflow Hin.
  destruct (before_fetch _ _ _ _ _ _ E1 E2 E3) as (_ & (T & _ & _ & Fr) & Nb & _).
  pose proof (download_from_github_temp_tidy e self w3 T) as D.
  pose proof (download_from_github_only_temp e self w3) as [O _].
  rewrite E4 in D, O. simpl in D, O.
  destruct (cleanup_only_temp w4) as [C _].
  repeat split.
  - now apply cleanup_removes_temp.
  - intros B. rewrite C, O. auto.
  - intros x q N. rewrite C, O. apply Fr. simpl. intuition congruence.
  - intros B. rewrite C, O. exact (create_backup_leaves_dir e self w2 w3 B E3).
  - intros B es -> Fresh. rewrite C, O.
    destruct (backup_made _ _ _ _ _ _ B Fresh E1 E2 E3) as [T3 _].
    rewrite T3, lookup_cons. cbn [lookup]. now apply assoc_last_eq.
Qed.

Lemma fetch_failure_leaves_target_witness :
  lookup [backup_name Sample.clock]
    (fs_target (snd (install Sample.offline (mkInstaller Sample.repo true true)
                       (init_world (Some Sample.installed))))) =
  Some (Dir [("copilot-instructions.md", File "old instructions");
             (".copilot", Dir [("agents", Dir [("old.md", File "old agent")])])]).
Proof.
  destruct (fetch_failure_leaves_target Sample.offline
              (mkInstaller Sample.repo true true) (Some Sample.installed))
    as (_ & _ & _ & _ & _ & H).
  - vm_compute. tauto.
  - apply (H eq_refl
             [("main.py", File "print(1)");
              (".github", Dir [("copilot-instructions.md", File "old instructions")]);
              (".copilot", Dir [("agents", Dir [("old.md", File "old agent")])])]);
      reflexivity.
Defined.

(** *** What rollback leaves alone *)








(** ** The fetch step, exactly *)

(** *** Extraction into the temporary directory *)








(** *** download_from_github *)

(** A fetch that returned [True] had everything it needs. *)
Lemma fetch_true_inv e self w :
  fst (download_from_github e self w) = true ->
  mkdtemp_ok e = true /\
  exists url zip members,
    download_url (github_url self) = Some url /\
    urlopen e url = Downloaded zip /\
    zip_members e zip = Unzipped members /\
    extract_error members (Some (Dir [("repo.zip", File zip)])) = None.
Proof.
  unfold download_from_github, traced, try_except, bind, mkdtemp, modify,
    urlretrieve, extractall, say, ret, raise, get, wstore, wlookup, temp_path.
  cbn [fst snd area set_area log print_info fs_temp fs_target temp_dir
       set_temp_dir subpath app].
  destruct (mkdtemp_ok e); cbn; [|discriminate].
  destruct (download_url (github_url self)) as [url|]; cbn; [|discriminate].
  destruct (urlopen e url) as [zip|[part|]] eqn:U; cbn; try discriminate.
  destruct (zip_members e zip) as [members|part] eqn:Z; cbn; [|discriminate].
  destruct (snd (extract_members members _)) eqn:X; cbn; [discriminate|].
  intros _. split; [reflexivity|]. exists url, zip, members. auto.
Qed.


(** The temporary directory that a fetch that returned [True] has made. *)
Lemma fetch_staged e self w url zip members :
  fst (download_from_github e self w) = true ->
  download_url (github_url self) = Some url ->
  urlopen e url = Downloaded zip ->
  zip_members e zip = Unzipped members ->
  fs_temp (snd (download_from_github e self w)) =
    extract_into members (Some (Dir [("repo.zip", File zip)])) /\
  temp_dir (snd (download_from_github e self w)) = true.
Proof.
  intros Ok D U Z. revert Ok.
  unfold download_from_github, traced, try_except, bind, mkdtemp, modify,
    urlretrieve, extractall, say, ret, raise, get, wstore, wlookup, temp_path.
  cbn [fst snd area set_area log print_info fs_temp fs_target temp_dir
       set_temp_dir subpath app].
  destruct (mkdtemp_ok e); cbn; [|discriminate].
  rewrite D. cbn. rewrite U. cbn. rewrite Z. cbn.
  destruct (snd (extract_members members _)); cbn; [discriminate|]. auto.
Qed.





(** ** What a successful install step has installed *)

Lemma install_copilot_touches src w :
  touches [".copilot"] w (snd (install_copilot src w)).
Proof.
  revert w. change (respects (touches [".copilot"]) (install_copilot src)).
  unfold install_copilot. respects_with touches_side.
Qed.

Lemma install_readme_touches src w :
  touches [".copilot"] w (snd (install_readme src w)).
Proof.
  revert w. change (respects (touches [".copilot"]) (install_readme src)).
  unfold install_readme. respects_with touches_side.
Qed.

Lemma wlookup_temp p w w' :
  fst p = TempDir -> fs_temp w' = fs_temp w -> wlookup p w' = wlookup p w.
Proof.
  destruct p as [r names]. simpl. intros -> T. unfold wlookup. simpl. now rewrite T.
Qed.

Lemma basename_subpath p x : basename (p // x) = x.
Proof. unfold basename, subpath. simpl. apply last_last. Qed.

(** A [copy2] that returned has put the content of the source file at the
    destination, or below it when the destination is a directory. *)
Lemma copy2_ok_inv src dst w w' :
  copy2 src dst w = (Ok tt, w') ->
  exists d,
    wlookup src w = Some (File d) /\
    wlookup (if is_dir dst w then dst // basename src else dst) w' = Some (File d).
Proof.
  unfold copy2, bind, modify, get, raise.
  set (w0 := log (Op (OpCopy2 src dst)) w).
  change (is_dir dst w0) with (is_dir dst w).
  set (dst' := if is_dir dst w then dst // basename src else dst).
  cbv beta iota zeta.
  destruct (path_eqb src dst' && exists_ src w0); [discriminate|].
  change (wlookup src w0) with (wlookup src w).
  destruct (wlookup src w) as [[d|cs]|]; try discriminate.
  destruct (is_dir dst' w0); [discriminate|].
  unfold wstore. destruct (store _ _ _) as [o'|] eqn:S; [|discriminate].
  intros [= <-]. exists d. split; [reflexivity|].
  apply lookup_store_eq in S. unfold wlookup.
  destruct dst' as [[] names]; exact S.
Qed.

(** A [copytree] that returned has put the source directory at the
    destination, which did not exist. *)
Lemma copytree_ok_inv src dst w w' :
  copytree src dst w = (Ok tt, w') ->
  exists es,
    wlookup src w = Some (Dir es) /\ wlookup dst w' = Some (Dir es).
Proof.
  unfold copytree, bind, modify, get, raise.
  set (w0 := log (Op (OpCopytree src dst)) w).
  change (wlookup src w0) with (wlookup src w).
  destruct (wlookup src w) as [[d|es]|]; try discriminate.
  destruct (exists_ dst w0); [discriminate|].
  destruct (makedirs_exist_ok (parent dst) w0) as [[[]|ex] w1]; [|discriminate].
  unfold wstore. destruct (store _ _ _) as [o'|] eqn:S; [|discriminate].
  intros [= <-]. exists es. split; [reflexivity|].
  apply lookup_store_eq in S. unfold wlookup.
  destruct dst as [[] names]; exact S.
Qed.

(** [mkdir] keeps what is below the directory. *)
Lemma mkdir_keeps_below p x w w' :
  mkdir false p w = (Ok tt, w') -> wlookup (p // x) w' = wlookup (p // x) w.
Proof.
  unfold mkdir, bind, modify, mkdir_exist_ok.
  set (w0 := log (Op (OpMkdir p)) w).
  change (wlookup p w0) with (wlookup p w).
  destruct (wlookup p w) as [[d|es]|] eqn:L; try discriminate.
  - now intros [= <-].
  - unfold wstore. destruct (store _ _ _) as [o'|] eqn:S; [|discriminate].
    intros [= <-]. apply lookup_store_eq in S.
    unfold wlookup in *. destruct p as [[] names];
      cbn [fst snd subpath area set_area fs_target fs_temp log w0] in *;
      rewrite !lookup_app, S, L; reflexivity.
Qed.

Lemma respects_fs_temp names {A} (m : M A) w :
  respects (touches names) m -> fs_temp (snd (m w)) = fs_temp w.
Proof. intros R. now destruct (R w) as (T & _). Qed.

Lemma lookup_first_dir x y p o v :
  lookup (x :: y :: p) o = Some v -> exists es, lookup [x] o = Some (Dir es).
Proof.
  change (x :: y :: p) with ([x] ++ y :: p). rewrite lookup_app. intros H.
  apply (lookup_below_dir y p). congruence.
Qed.

(** The readme part leaves [.copilot] a directory. *)
Lemma install_readme_keeps_copilot_dir src wb wc c :
  install_readme src wb = (Ok tt, wc) ->
  lookup [".copilot"] (fs_target wb) = Some (Dir c) ->
  exists c', lookup [".copilot"] (fs_target wc) = Some (Dir c').
Proof.
  intros E L. unfold install_readme in E. rewrite bind_get in E.
  destruct (exists_ (src // "README.md") wb); cbn [when] in E.
  - apply bind_inv_ok in E. destruct E as ([] & w5 & E5 & E).
    apply bind_inv_ok in E. destruct E as ([] & w6 & E6 & E).
    injection E as <-.
    destruct (copy2_ok_inv _ _ _ _ E6) as (r & _ & Ld).
    change (fs_target (log (Print LSuccess MsgInstalledReadme) w6)) with (fs_target w6).
    destruct (is_dir (target_dir // ".copilot" // "README.md") w5);
      unfold wlookup in Ld; cbn [fst snd target_dir subpath app area] in Ld;
      exact (lookup_first_dir _ _ _ _ _ Ld).
  - injection E as <-. eauto.
Qed.

(** The three parts of a successful [install_files]. *)
Lemma install_files_true_inv w w' src rest :
  install_files w = (true, w') ->
  extracted_dirs w = src :: rest ->
  exists wa wb wc,
    install_marker src (log (Call Install) w) = (Ok tt, wa) /\
    install_copilot src wa = (Ok tt, wb) /\
    install_readme src wb = (Ok tt, wc) /\
    w' = log (Ret Install (Some true)) wc.
Proof.
  intros E X. unfold install_files, traced, try_except in E.
  destruct (temp_dir w) eqn:Td.
  - rewrite (install_body_source _ src rest) in E by assumption.
    destruct (bind _ _ _) as [[b|ex] w1] eqn:B in E; [|discriminate].
    apply bind_inv_ok in B. destruct B as ([] & wa & Ea & B).
    apply bind_inv_ok in B. destruct B as ([] & wb & Eb & B).
    apply bind_inv_ok in B. destruct B as ([] & wc & Ec & B).
    injection B as <- <-. injection E as <-. eauto 8.
  - unfold install_body in E. rewrite bind_get in E.
    change (temp_dir (log (Call Install) w)) with (temp_dir w) in E.
    rewrite Td in E. discriminate.
Qed.

(** The common start of the three lemmas below: the states between the
    parts of a successful [install_files], and what each part leaves
    alone. *)
Ltac install_parts E X :=
  let T := fresh "T" in
  match type of X with
  | extracted_dirs ?w = ?src :: _ =>
      assert (Hs : fst src = TempDir)
        by (apply (extracted_dirs_temp w); rewrite X; now left);
      destruct (install_files_true_inv _ _ _ _ E X)
        as (wa & wb & wc & Ea & Eb & Ec & ->);
      pose proof (install_marker_touches src (log (Call Install) w)) as Ta;
      pose proof (install_copilot_touches src wa) as Tb;
      pose proof (install_readme_touches src wb) as Tc;
      pose proof (install_readme_keeps_entries src wb) as Kc;
      rewrite Ea in Ta; rewrite Eb in Tb; rewrite Ec in Tc, Kc;
      cbn [snd] in Ta, Tb, Tc, Kc;
      destruct Ta as (Ta & _ & _ & _), Tb as (Tb & _ & _ & Fb),
               Tc as (Tc & _ & _ & Fc);
      change (fs_temp (log (Call Install) w)) with (fs_temp w) in Ta;
      change (fs_target (log (Ret Install (Some true)) wc)) with (fs_target wc)
  end.

(** The marker file of the archive, after a successful [install_files]. *)
Lemma installed_marker w w' src rest n :
  install_files w = (true, w') ->
  extracted_dirs w = src :: rest ->
  wlookup (src // "copilot-instructions.md") w = Some n ->
  exists d, n = File d /\
    lookup (if is_dir (target_dir // ".github" // "copilot-instructions.md") w
            then [".github"; "copilot-instructions.md"; "copilot-instructions.md"]
            else [".github"; "copilot-instructions.md"])
      (fs_target w') = Some (File d).
Proof.
  intros E X Hn. install_parts E X.
  unfold install_marker in Ea. rewrite bind_get in Ea.
  unfold exists_ in Ea at 1.
  change (wlookup (src // "copilot-instructions.md") (log (Call Install) w))
    with (wlookup (src // "copilot-instructions.md") w) in Ea.
  rewrite Hn in Ea.
  apply bind_inv_ok in Ea. destruct Ea as ([] & w1 & E1 & Ea).
  apply bind_inv_ok in Ea. destruct Ea as ([] & w2 & E2 & Ea).
  injection Ea as <-.
  pose proof (mkdir_keeps_below _ "copilot-instructions.md" _ _ E1) as Kd.
  assert (T1 : fs_temp w1 = fs_temp w).
  { pose proof (respects_fs_temp [".github"]
                  (mkdir false (target_dir // ".github")) (log (Call Install) w)) as R.
    rewrite E1 in R. apply R. respects_with touches_side. }
  destruct (copy2_ok_inv _ _ _ _ E2) as (d & Ls & Ld).
  rewrite (wlookup_temp _ w w1) in Ls by (auto; apply Hs).
  rewrite Hn in Ls. injection Ls as ->. exists d. split; [reflexivity|].
  assert (Hd : is_dir (target_dir // ".github" // "copilot-instructions.md") w1 =
               is_dir (target_dir // ".github" // "copilot-instructions.md") w).
  { unfold is_dir. now rewrite Kd. }
  rewrite Hd, basename_subpath in Ld.
  destruct (is_dir (target_dir // ".github" // "copilot-instructions.md") w);
    unfold wlookup in Ld; cbn [fst snd target_dir subpath app area] in Ld;
    rewrite Fc, Fb by (simpl; intuition discriminate); exact Ld.
Qed.

(** The [.copilot] directory of the archive. *)
Lemma installed_copilot w w' src rest n :
  install_files w = (true, w') ->
  extracted_dirs w = src :: rest ->
  wlookup (src // ".copilot") w = Some n ->
  exists c, n = Dir c /\
    (exists c', lookup [".copilot"] (fs_target w') = Some (Dir c')) /\
    forall x q, x <> "README.md" ->
      lookup (".copilot" :: x :: q) (fs_target w') = lookup (x :: q) (Some (Dir c)).
Proof.
  intros E X Hn. install_parts E X.
  unfold install_copilot in Eb. rewrite bind_get in Eb.
  unfold exists_ in Eb at 1.
  rewrite (wlookup_temp _ w wa), Hn in Eb by (auto; apply Hs).
  rewrite bind_get in Eb.
  apply bind_inv_ok in Eb. destruct Eb as ([] & w3 & E3 & Eb).
  apply bind_inv_ok in Eb. destruct Eb as ([] & w4 & E4 & Eb).
  injection Eb as <-.
  assert (T3 : fs_temp w3 = fs_temp wa).
  { pose proof (respects_fs_temp [".copilot"]
                  (when (exists_ (target_dir // ".copilot") wa)
                     (rmtree (target_dir // ".copilot"))) wa) as R.
    rewrite E3 in R. apply R. respects_with touches_side. }
  destruct (copytree_ok_inv _ _ _ _ E4) as (c & Ls & Ld).
  rewrite (wlookup_temp _ w w3), Hn in Ls by (try congruence; apply Hs).
  injection Ls as ->. exists c. split; [reflexivity|].
  unfold wlookup in Ld. cbn [fst snd target_dir subpath app area] in Ld.
  split; [exact (install_readme_keeps_copilot_dir _ _ _ _ Ec Ld)|].
  intros x q N. rewrite (Kc x q N).
  change (fs_target (log (Print LSuccess MsgInstalledCopilot) w4)) with (fs_target w4).
  change (".copilot" :: x :: q) with ([".copilot"] ++ x :: q).
  now rewrite lookup_app, Ld.
Qed.

(** The readme of the archive. *)
Lemma installed_readme w w' src rest n :
  install_files w = (true, w') ->
  extracted_dirs w = src :: rest ->
  wlookup (src // "README.md") w = Some n ->
  exists r, n = File r /\
    (lookup [".copilot"; "README.md"] (fs_target w') = Some (File r) \/
     lookup [".copilot"; "README.md"; "README.md"] (fs_target w') = Some (File r)).
Proof.
  intros E X Hn. install_parts E X.
  unfold install_readme in Ec. rewrite bind_get in Ec.
  unfold exists_ in Ec at 1.
  rewrite (wlookup_temp _ w wb), Hn in Ec by (try congruence; apply Hs).
  cbn [when] in Ec.
  apply bind_inv_ok in Ec. destruct Ec as ([] & w5 & E5 & Ec).
  apply bind_inv_ok in Ec. destruct Ec as ([] & w6 & E6 & Ec).
  injection Ec as <-.
  assert (T5 : fs_temp w5 = fs_temp wb).
  { pose proof (respects_fs_temp [".copilot"]
                  (mkdir true (parent (target_dir // ".copilot" // "README.md"))) wb) as R.
    rewrite E5 in R. apply R. respects_with touches_side. }
  destruct (copy2_ok_inv _ _ _ _ E6) as (r & Ls & Ld).
  rewrite (wlookup_temp _ w w5), Hn in Ls by (try congruence; apply Hs).
  injection Ls as ->. exists r. split; [reflexivity|].
  rewrite basename_subpath in Ld.
  change (fs_target (log (Print LSuccess MsgInstalledReadme) w6)) with (fs_target w6).
  destruct (is_dir (target_dir // ".copilot" // "README.md") w5);
    unfold wlookup in Ld; cbn [fst snd target_dir subpath app area] in Ld; auto.
Qed.

(** X15: what [install_files] has installed when it returns [True]: each of
    the three items that the archive's first top-level directory holds is a
    regular file (the marker, the readme) or a directory ([.copilot]), and
    - the marker file is in the target, byte for byte, at
      [.github/copilot-instructions.md], or inside that path if it was a
      directory;
    - [.copilot] in the target is a directory and holds the source
      directory, nothing else: each of its entries other than README.md is
      the one of the source;
    - the readme is at [.copilot/README.md], or inside that path when it is
      a directory. *)
Theorem install_files_installs w w' src rest :
  install_files w = (true, w') ->
  extracted_dirs w = src :: rest ->
  (forall n, wlookup (src // "copilot-instructions.md") w = Some n ->
     exists d, n = File d /\
       lookup (if is_dir (target_dir // ".github" // "copilot-instructions.md") w
               then [".github"; "copilot-instructions.md"; "copilot-instructions.md"]
               else [".github"; "copilot-instructions.md"])
         (fs_target w') = Some (File d)) /\
  (forall n, wlookup (src // ".copilot") w = Some n ->
     exists c, n = Dir c /\
       (exists c', lookup [".copilot"] (fs_target w') = Some (Dir c')) /\
       forall x q, x <> "README.md" ->
         lookup (".copilot" :: x :: q) (fs_target w') = lookup (x :: q) (Some (Dir c))) /\
  (forall n, wlookup (src // "README.md") w = Some n ->
     exists r, n = File r /\
       (lookup [".copilot"; "README.md"] (fs_target w') = Some (File r) \/
        lookup [".copilot"; "README.md"; "README.md"] (fs_target w') = Some (File r))).
Proof.
  intros E X. split; [|split]; intros n Hn.
  - exact (installed_marker w w' src rest n E X Hn).
  - exact (installed_copilot w w' src rest n E X Hn).
  - exact (installed_readme w w' src rest n E X Hn).
Qed.

Lemma install_files_installs_witness :
  lookup [".github"; "copilot-instructions.md"]
    (fs_target
       (snd (install_files
               (snd (download_from_github (Sample.online Sample.bundle)
                       (mkInstaller Sample.repo false false)
                       (init_world (Some Sample.plain))))))) =
  Some (File "new instructions").
Proof.
  pose (w := snd (download_from_github (Sample.online Sample.bundle)
                    (mkInstaller Sample.repo false false)
                    (init_world (Some Sample.plain)))).
  destruct (install_files_installs w (snd (install_files w))
              (TempDir, ["copilot-agents-main"]) [] eq_refl eq_refl) as (H & _).
  destruct (H (File "new instructions") eq_refl) as (d & Hd & L).
  injection Hd as <-. exact L.
Defined.

(** ** A successful run, end to end *)

Lemma extracted_dirs_fs_temp w w0 :
  fs_temp w = fs_temp w0 -> extracted_dirs w = extracted_dirs w0.
Proof.
  intros T. unfold extracted_dirs. rewrite T.
  destruct (fs_temp w0) as [[d|es]|] eqn:T0; try reflexivity.
  apply filter_ext_in. intros p I. apply in_map_iff in I.
  destruct I as (x & <- & _). unfold is_dir.
  rewrite (wlookup_temp (temp_path // fst x) w0 w); [reflexivity..|congruence].
Qed.

(** The states of a run that succeeded. *)
Lemma run_installed_inv e self target w' :
  run e self (init_world target) Installed w' ->
  exists w3 w4 w5,
    touches [backup_name (now e)] (init_world target) w3 /\
    download_from_github e self w3 = (true, w4) /\
    install_files w4 = (true, w5) /\
    fs_target w' = fs_target w5.
Proof.
  intros Hrun. inversion Hrun as [| | | | |w1 w2 w3 w4 w5 E1 E2 E3 E4 E5]; subst.
  destruct (before_fetch _ _ _ _ _ _ E1 E2 E3) as (_ & T & _).
  exists w3, w4, w5. repeat split; try assumption; try apply T.
  destruct (print_post_install_state (cleanup w5)) as (P & _).
  destruct (cleanup_only_temp w5) as [C _]. now rewrite P, C.
Qed.

(** The install step of a run that exits with code 0: it starts from the
    extracted archive and from a target in which the marker path is what it
    was before the run, and the run ends with the target it leaves. *)
Lemma run_installed_states e self target url zip members src rest :
  fst (main e self target) = 0 ->
  download_url (github_url self) = Some url ->
  urlopen e url = Downloaded zip ->
  zip_members e zip = Unzipped members ->
  extracted_dirs (staged zip members) = src :: rest ->
  exists w4 w5,
    install_files w4 = (true, w5) /\
    extracted_dirs w4 = src :: rest /\
    (forall x, wlookup (src // x) (staged zip members) = wlookup (src // x) w4) /\
    is_dir (target_dir // ".github" // "copilot-instructions.md") w4 =
      match lookup [".github"; "copilot-instructions.md"] target with
      | Some (Dir _) => true
      | _ => false
      end /\
    fs_target (snd (main e self target)) = fs_target w5.
Proof.
  intros Ok0 Du Uo Zm X. rewrite main_snd. rewrite main_fst in Ok0.
  destruct (install_run e self (init_world target)) as (o & Hrun & Hres).
  rewrite Hres in Ok0.
  assert (o = Installed) by (destruct o; simpl in Ok0; try discriminate; reflexivity).
  subst o. clear Ok0 Hres.
  destruct (run_installed_inv _ _ _ _ Hrun) as (w3 & w4 & w5 & T3 & E4 & E5 & Ft).
  assert (Ok4 : fst (download_from_github e self w3) = true) by now rewrite E4.
  destruct (fetch_staged e self w3 url zip members Ok4 Du Uo Zm) as (T4 & _).
  destruct (download_from_github_only_temp e self w3) as [O4 _].
  rewrite E4 in T4, O4. cbn [snd] in T4, O4.
  assert (X4 : extracted_dirs w4 = src :: rest)
    by (rewrite <- X; now apply extracted_dirs_fs_temp).
  assert (Hs : fst src = TempDir)
    by (apply (extracted_dirs_temp w4); rewrite X4; now left).
  exists w4, w5. repeat split; auto.
  - intros x. apply wlookup_temp; [exact Hs | now rewrite T4].
  - unfold is_dir, wlookup. cbn [fst snd target_dir subpath app area].
    rewrite O4. destruct T3 as (_ & _ & _ & F).
    rewrite F; [reflexivity|]. simpl. intros [H|[]].
    pose proof (not_backup_name_github (now e)) as N.
    rewrite H, String.eqb_refl in N. discriminate.
Qed.

(** X16: a run that exits with code 0 has installed what the archive holds.
    For an archive whose top-level names are distinct and that has exactly
    one directory [src] at its top (as the archives of GitHub have;
    [install_files] then takes it whatever the order in which the temporary
    directory is listed):
    the marker file of [src] is in the target at
    [.github/copilot-instructions.md] (inside that path if it was a
    directory before the run), each entry of [.copilot] in the target other
    than README.md is the entry of [.copilot] of [src], and the readme of
    [src] is at [.copilot/README.md] or inside it. *)
Theorem successful_run_installs e self target url zip members src :
  let w' := snd (main e self target) in
  fst (main e self target) = 0 ->
  download_url (github_url self) = Some url ->
  urlopen e url = Downloaded zip ->
  zip_members e zip = Unzipped members ->
  distinct (map fst members) = true ->
  extracted_dirs (staged zip members) = [src] ->
  (forall n, wlookup (src // "copilot-instructions.md") (staged zip members) = Some n ->
     exists d, n = File d /\
       lookup (match lookup [".github"; "copilot-instructions.md"] target with
               | Some (Dir _) =>
                   [".github"; "copilot-instructions.md"; "copilot-instructions.md"]
               | _ => [".github"; "copilot-instructions.md"]
               end)
         (fs_target w') = Some (File d)) /\
  (forall n, wlookup (src // ".copilot") (staged zip members) = Some n ->
     exists c, n = Dir c /\
       (exists c', lookup [".copilot"] (fs_target w') = Some (Dir c')) /\
       forall x q, x <> "README.md" ->
         lookup (".copilot" :: x :: q) (fs_target w') = lookup (x :: q) (Some (Dir c))) /\
  (forall n, wlookup (src // "README.md") (staged zip members) = Some n ->
     exists r, n = File r /\
       (lookup [".copilot"; "README.md"] (fs_target w') = Some (File r) \/
        lookup [".copilot"; "README.md"; "README.md"] (fs_target w') = Some (File r))).
Proof.
  intros w' Ok0 Du Uo Zm _ X. subst w'.
  destruct (run_installed_states e self target url zip members src []
              Ok0 Du Uo Zm X) as (w4 & w5 & E5 & X4 & L4 & D & ->).
  split; [|split]; intros n Hn; rewrite L4 in Hn.
  - destruct (installed_marker w4 w5 src [] n E5 X4 Hn) as (d & -> & L).
    exists d. split; [reflexivity|]. rewrite D in L.
    destruct (lookup [".github"; "copilot-instructions.md"] target) as [[f|g]|];
      exact L.
  - exact (installed_copilot w4 w5 src [] n E5 X4 Hn).
  - exact (installed_readme w4 w5 src [] n E5 X4 Hn).
Qed.

Lemma successful_run_installs_witness :
  lookup [".copilot"; "agents"; "a.md"]
    (fs_target (snd (main (Sample.online Sample.bundle)
                       (mkInstaller Sample.repo true true)
                       (Some Sample.installed)))) =
  Some (File "agent a").
Proof.
  destruct (successful_run_installs (Sample.online Sample.bundle)
              (mkInstaller Sample.repo true true) (Some Sample.installed)
              "https://github.com/user/copilot-agents/archive/refs/heads/main.zip"
              "PK" Sample.bundle (TempDir, ["copilot-agents-main"])
              eq_refl eq_refl eq_refl eq_refl eq_refl eq_refl) as (_ & H & _).
  destruct (H (Dir [("agents", Dir [("a.md", File "agent a"); ("b.md", File "agent b")])])
              eq_refl) as (c & Hc & _ & L).
  injection Hc as <-. apply (L "agents" ["a.md"]). discriminate.
Defined.

(** ** The other files of .github *)

#[export] Instance keeps_github_entries_stepwise : Stepwise keeps_github_entries.
Proof.
  split; unfold keeps_github_entries.
  - auto.
  - intros a b c H1 H2 x q N. rewrite H2, H1; auto.
  - intros e w _ x q N. reflexivity.
Qed.

#[export] Instance keeps_github_entries_quiet : Quiet keeps_github_entries.
Proof. intros e w x q N. reflexivity. Qed.

Lemma store_ok_github_marker p v w :
  store_ok keeps_github_entries
    (TargetDir, ".github" :: "copilot-instructions.md" :: p) v w.
Proof.
  intros o' S x q N. cbn [fst snd area set_area fs_target] in *.
  apply (lookup_store_diverge (".github" :: "copilot-instructions.md" :: p)
           (".github" :: x :: q) v (fs_target w) o'); [|exact S].
  cbn [diverge]. rewrite String.eqb_refl.
  destruct (String.eqb "copilot-instructions.md" x) eqn:E; [|reflexivity].
  apply String.eqb_eq in E. congruence.
Qed.

Lemma store_ok_github_new w :
  wlookup (TargetDir, [".github"]) w = None ->
  store_ok keeps_github_entries (TargetDir, [".github"]) (Some (Dir [])) w.
Proof.
  intros L o' S x q N. cbn [fst snd area set_area fs_target] in *.
  unfold wlookup in L. cbn [fst snd area] in L.
  apply lookup_store_eq in S.
  change (".github" :: x :: q) with ([".github"] ++ x :: q).
  rewrite !lookup_app, S, L. cbn [lookup assoc]. now rewrite !lookup_none.
Qed.

Lemma store_ok_github_other y p v w :
  String.eqb y ".github" = false ->
  store_ok keeps_github_entries (TargetDir, y :: p) v w.
Proof.
  intros E o' S x q N. cbn [fst snd area set_area fs_target] in *.
  apply (lookup_store_diverge (y :: p) (".github" :: x :: q) v (fs_target w) o');
    [|exact S].
  cbn [diverge]. now rewrite E.
Qed.

Ltac github_side :=
  side_intros;
  first [ apply store_ok_github_marker
        | now apply store_ok_github_new
        | apply store_ok_github_other; reflexivity
        | idtac ].

Lemma create_backup_keeps_github e self w :
  keeps_github_entries w (snd (create_backup e self w)).
Proof.
  unfold create_backup. apply (traced_rel keeps_github_entries); try typeclasses eauto.
  intros w'. destruct (negb (backup self)); [apply rel_refl|]. cbv zeta.
  eapply rel_trans; [|apply (try_except_rel keeps_github_entries); try typeclasses eauto].
  - intros x q N. reflexivity.
  - respects_with github_side.
  - intros; apply rel_quiet.
Qed.

Lemma install_files_keeps_github w :
  keeps_github_entries w (snd (install_files w)).
Proof.
  unfold install_files. apply (traced_rel keeps_github_entries); try typeclasses eauto.
  intros w'. apply (try_except_rel keeps_github_entries); try typeclasses eauto.
  - unfold install_body, install_marker, install_copilot, install_readme.
    respects_with github_side.
  - intros; apply rel_quiet.
Qed.

Lemma rollback_keeps_github w : keeps_github_entries w (rollback w).
Proof.
  unfold rollback. apply (traced_unit_rel keeps_github_entries); try typeclasses eauto.
  intros w'. destruct (backup_dir w'); [|apply rel_refl]. cbv zeta.
  destruct (negb _); [apply rel_refl|].
  apply (rel_after_log keeps_github_entries (Print LWarning MsgRestoring)).
  apply (try_except_rel keeps_github_entries); try typeclasses eauto.
  - respects_with github_side.
  - intros; apply rel_quiet.
Qed.

Lemma keeps_github_of_target w w' :
  fs_target w' = fs_target w -> keeps_github_entries w w'.
Proof. intros E x q N. now rewrite E. Qed.

(** X17: a run never touches the other files of [.github] (workflows,
    issue templates, ...): whatever the outcome, every entry below
    [.github] other than [copilot-instructions.md] is what it was before the
    run. *)
Theorem run_keeps_other_github_entries e self target x q :
  x <> "copilot-instructions.md" ->
  lookup (".github" :: x :: q) (fs_target (snd (main e self target))) =
  lookup (".github" :: x :: q) target.
Proof.
  intros N. rewrite main_snd.
  change target with (fs_target (init_world target)) at 2.
  revert x q N.
  change (keeps_github_entries (init_world target)
            (snd (install e self (init_world target)))).
  destruct (install_run e self (init_world target)) as (o & Hrun & _).
  remember (snd (install e self (init_world target))) as w' eqn:Ew. clear Ew.
  assert (V : forall w1 r,
            validate_target (print_header MsgInstallerHeader (init_world target)) = (r, w1) ->
            keeps_github_entries (init_world target) w1).
  { intros w1 r E1. apply keeps_github_of_target.
    pose proof (validate_target_same (print_header MsgInstallerHeader (init_world target)))
      as (A & _).
    now rewrite E1 in A. }
  assert (C : forall w1 w2 r, check_existing_installation self w1 = (r, w2) ->
                keeps_github_entries w1 w2).
  { intros w1 w2 r E2. apply keeps_github_of_target.
    pose proof (check_existing_installation_same self w1) as (A & _).
    now rewrite E2 in A. }
  assert (B : forall w2 w3 r, create_backup e self w2 = (r, w3) ->
                keeps_github_entries w2 w3).
  { intros w2 w3 r E3. pose proof (create_backup_keeps_github e self w2) as K.
    now rewrite E3 in K. }
  assert (D : forall w3 w4 r, download_from_github e self w3 = (r, w4) ->
                keeps_github_entries w3 w4).
  { intros w3 w4 r E4. apply keeps_github_of_target.
    pose proof (download_from_github_only_temp e self w3) as (A & _).
    now rewrite E4 in A. }
  assert (I : forall w4 w5 r, install_files w4 = (r, w5) ->
                keeps_github_entries w4 w5).
  { intros w4 w5 r E5. pose proof (install_files_keeps_github w4) as K.
    now rewrite E5 in K. }
  assert (Cl : forall w, keeps_github_entries w (cleanup w)).
  { intros w. apply keeps_github_of_target. apply cleanup_only_temp. }
  assert (Tr := @rel_trans keeps_github_entries _).
  destruct Hrun as [w1 E1 | w1 w2 E1 E2 | w1 w2 w3 E1 E2 E3
                   | w1 w2 w3 w4 E1 E2 E3 E4
                   | w1 w2 w3 w4 w5 E1 E2 E3 E4 E5
                   | w1 w2 w3 w4 w5 E1 E2 E3 E4 E5].
  - exact (V _ _ E1).
  - exact (Tr _ _ _ (V _ _ E1) (C _ _ _ E2)).
  - eapply Tr; [|apply (rel_quiet (R := keeps_github_entries))].
    exact (Tr _ _ _ (Tr _ _ _ (V _ _ E1) (C _ _ _ E2)) (B _ _ _ E3)).
  - eapply Tr; [|apply Cl].
    exact (Tr _ _ _ (Tr _ _ _ (Tr _ _ _ (V _ _ E1) (C _ _ _ E2)) (B _ _ _ E3))
             (D _ _ _ E4)).
  - eapply Tr; [|apply Cl]. eapply Tr; [|apply rollback_keeps_github].
    eapply Tr; [|apply (rel_quiet (R := keeps_github_entries))].
    exact (Tr _ _ _ (Tr _ _ _ (Tr _ _ _ (Tr _ _ _ (V _ _ E1) (C _ _ _ E2))
             (B _ _ _ E3)) (D _ _ _ E4)) (I _ _ _ E5)).
  - eapply Tr; [|apply keeps_github_of_target, print_post_install_state].
    eapply Tr; [|apply Cl].
    exact (Tr _ _ _ (Tr _ _ _ (Tr _ _ _ (Tr _ _ _ (V _ _ E1) (C _ _ _ E2))
             (B _ _ _ E3)) (D _ _ _ E4)) (I _ _ _ E5)).
Qed.

Lemma run_keeps_other_github_entries_witness :
  lookup [".github"; "workflows"; "ci.yml"]
    (fs_target (snd (main (Sample.online Sample.bundle)
                       (mkInstaller Sample.repo true true)
                       (Some (Dir [(".github",
                                    Dir [("workflows", Dir [("ci.yml", File "ci")]);
                                         ("copilot-instructions.md", File "old")])]))))) =
  Some (File "ci").
Proof.
  apply (run_keeps_other_github_entries (Sample.online Sample.bundle)
           (mkInstaller Sample.repo true true)
           (Some (Dir [(".github",
                        Dir [("workflows", Dir [("ci.yml", File "ci")]);
                             ("copilot-instructions.md", File "old")])]))
           "workflows" ["ci.yml"]).
  discriminate.
Defined.

(** ** What a run that succeeds needs, and what it leaves for the next *)

Lemma validate_target_dir w es :
  fs_target w = Some (Dir es) -> fst (validate_target w) = true.
Proof.
  intros T. unfold validate_target, traced, exists_, is_dir, wlookup.
  cbn [fst snd target_dir area log fs_target lookup]. now rewrite T.
Qed.

Lemma check_existing_installation_result self w :
  fst (check_existing_installation self w) =
  force self ||
  negb (exists_ (target_dir // ".github" // "copilot-instructions.md") w ||
        exists_ (target_dir // ".copilot") w).
Proof.
  unfold check_existing_installation, traced. cbv zeta.
  change (exists_ (target_dir // ".github" // "copilot-instructions.md")
            (log (Call CheckExisting) w))
    with (exists_ (target_dir // ".github" // "copilot-instructions.md") w).
  change (exists_ (target_dir // ".copilot") (log (Call CheckExisting) w))
    with (exists_ (target_dir // ".copilot") w).
  destruct (_ || _); destruct (force self); reflexivity.
Qed.

Lemma exists_target p w :
  exists_ (TargetDir, p) w = true <-> lookup p (fs_target w) <> None.
Proof.
  unfold exists_, wlookup. cbn [fst snd area].
  destruct (lookup p (fs_target w)); split; congruence.
Qed.

(** A run on a target that has an installation, without [force]. *)
Lemma blocked_run e self target :
  force self = false ->
  lookup [".github"; "copilot-instructions.md"] target <> None \/
  lookup [".copilot"] target <> None ->
  fst (main e self target) = 1 /\
  fs_target (snd (main e self target)) = target /\
  ops (snd (main e self target)) = [].
Proof.
  intros F H. rewrite main_fst, main_snd.
  destruct (install_run e self (init_world target)) as (o & Hrun & Hres).
  rewrite Hres. clear Hres.
  remember (snd (install e self (init_world target))) as w' eqn:Ew. clear Ew.
  assert (D : exists es, target = Some (Dir es))
    by (destruct H as [H|H]; eapply lookup_below_dir; eauto).
  destruct D as [es ->].
  pose proof (validate_target_dir (print_header MsgInstallerHeader (init_world (Some (Dir es))))
                es eq_refl) as V.
  pose proof (validate_target_same (print_header MsgInstallerHeader (init_world (Some (Dir es)))))
    as (A1 & _ & _ & _ & A5).
  assert (C : forall w1, fs_target w1 = Some (Dir es) ->
                fst (check_existing_installation self w1) = false).
  { intros w1 T1. rewrite check_existing_installation_result, F. cbn [orb].
    apply negb_false_iff, orb_true_iff.
    destruct H as [H|H]; [left | right]; apply exists_target; now rewrite T1. }
  destruct Hrun as [w1 E1 | w1 w2 E1 E2 | w1 w2 w3 E1 E2 E3
                   | w1 w2 w3 w4 E1 E2 E3 E4
                   | w1 w2 w3 w4 w5 E1 E2 E3 E4 E5
                   | w1 w2 w3 w4 w5 E1 E2 E3 E4 E5];
    rewrite E1 in V, A1, A5; cbn [fst snd] in V, A1, A5; try discriminate;
    specialize (C w1 A1); rewrite E2 in C; try discriminate.
  pose proof (check_existing_installation_same self w1) as (C1 & _ & _ & _ & C5).
  rewrite E2 in C1, C5. cbn [snd] in C1, C5.
  repeat split.
  - now rewrite C1.
  - now rewrite C5, A5.
Qed.

(** X18: an installation is not overwritten by accident: after a run that
    exits with code 0 and whose archive (its top-level names distinct) had
    exactly one directory at its top, holding the marker file, [.copilot]
    or a readme, a second run on the same project without --force exits
    with code 1, makes no call that writes to the file system and leaves
    the target as the first run left it. *)
Theorem second_run_needs_force e self target url zip members src e2 self2 :
  let t' := fs_target (snd (main e self target)) in
  fst (main e self target) = 0 ->
  download_url (github_url self) = Some url ->
  urlopen e url = Downloaded zip ->
  zip_members e zip = Unzipped members ->
  distinct (map fst members) = true ->
  extracted_dirs (staged zip members) = [src] ->
  wlookup (src // "copilot-instructions.md") (staged zip members) <> None \/
  wlookup (src // ".copilot") (staged zip members) <> None \/
  wlookup (src // "README.md") (staged zip members) <> None ->
  force self2 = false ->
  fst (main e2 self2 t') = 1 /\
  fs_target (snd (main e2 self2 t')) = t' /\
  ops (snd (main e2 self2 t')) = [].
Proof.
  intros t' Ok0 Du Uo Zm _ X Hsrc F2. subst t'.
  destruct (run_installed_states e self target url zip members src []
              Ok0 Du Uo Zm X) as (w4 & w5 & E5 & X4 & L4 & _ & ->).
  rewrite !L4 in Hsrc.
  apply blocked_run; [exact F2|].
  destruct Hsrc as [S|[S|S]].
  - left. destruct (wlookup (src // "copilot-instructions.md") w4) as [n|] eqn:Hn;
      [|congruence].
    destruct (installed_marker w4 w5 src [] n E5 X4 Hn) as (d & _ & L).
    destruct (is_dir (target_dir // ".github" // "copilot-instructions.md") w4).
    + destruct (lookup_first_dir _ _ _ _ _ L) as (g & _).
      change [".github"; "copilot-instructions.md"; "copilot-instructions.md"]
        with ([".github"; "copilot-instructions.md"] ++ ["copilot-instructions.md"]) in L.
      rewrite lookup_app in L. intros N. rewrite N in L. discriminate.
    + congruence.
  - right. destruct (wlookup (src // ".copilot") w4) as [n|] eqn:Hn; [|congruence].
    destruct (installed_copilot w4 w5 src [] n E5 X4 Hn) as (c & _ & (c' & L) & _).
    congruence.
  - right. destruct (wlookup (src // "README.md") w4) as [n|] eqn:Hn; [|congruence].
    destruct (installed_readme w4 w5 src [] n E5 X4 Hn) as (r & _ & [L|L]);
      destruct (lookup_first_dir _ _ _ _ _ L) as (c' & Lc); congruence.
Qed.

Lemma second_run_needs_force_witness :
  fst (main Sample.offline (mkInstaller Sample.repo false true)
         (fs_target (snd (main (Sample.online Sample.bundle)
                            (mkInstaller Sample.repo false true)
                            (Some Sample.plain))))) = 1.
Proof.
  apply (second_run_needs_force (Sample.online Sample.bundle)
           (mkInstaller Sample.repo false true) (Some Sample.plain)
           "https://github.com/user/copilot-agents/archive/refs/heads/main.zip"
           "PK" Sample.bundle (TempDir, ["copilot-agents-main"])
           Sample.offline (mkInstaller Sample.repo false true));
    try reflexivity.
  left. discriminate.
Defined.

Lemma staged_is_dir zip members : exists es, fs_temp (staged zip members) = Some (Dir es).
Proof. unfold staged, extract_into. cbn [fs_temp]. eauto. Qed.

(** X19: what exit code 0 requires: the target is a directory; it had no
    installation, or --force was given; [mkdtemp] succeeded, the source URL
    was accepted, the download completed and the zip file had a directory
    at its top. *)
Theorem success_requires e self target :
  fst (main e self target) = 0 ->
  (exists es, target = Some (Dir es)) /\
  (force self = true \/
   (lookup [".github"; "copilot-instructions.md"] target = None /\
    lookup [".copilot"] target = None)) /\
  mkdtemp_ok e = true /\
  exists url zip members,
    download_url (github_url self) = Some url /\
    urlopen e url = Downloaded zip /\
    zip_members e zip = Unzipped members /\
    extracted_dirs (staged zip members) <> [].
Proof.
  intros Ok0. rewrite main_fst in Ok0.
  destruct (install_run e self (init_world target)) as (o & Hrun & Hres).
  rewrite Hres in Ok0.
  assert (o = Installed) by (destruct o; simpl in Ok0; try discriminate; reflexivity).
  subst o. clear Ok0 Hres.
  inversion Hrun as [| | | | |w1 w2 w3 w4 w5 E1 E2 E3 E4 E5]; subst.
  destruct (before_fetch _ _ _ _ _ _ E1 E2 E3) as (Dt & _).
  split; [exact Dt|].
  pose proof (validate_target_same (print_header MsgInstallerHeader (init_world target)))
    as (A1 & _).
  rewrite E1 in A1. cbn [snd] in A1.
  split.
  { pose proof (check_existing_installation_result self w1) as C.
    rewrite E2 in C. cbn [fst] in C. symmetry in C.
    apply orb_true_iff in C. destruct C as [C|C]; [now left | right].
    apply negb_true_iff, orb_false_iff in C. destruct C as [C1 C2].
    unfold exists_, wlookup in C1, C2.
    cbn [fst snd target_dir subpath app area] in C1, C2.
    rewrite A1 in C1, C2. cbn [print_header log fs_target init_world] in C1, C2.
    split.
    - destruct (lookup [".github"; "copilot-instructions.md"] target);
        [discriminate | reflexivity].
    - destruct (lookup [".copilot"] target); [discriminate | reflexivity]. }
  pose proof (fetch_true_inv e self w3) as S.
  rewrite E4 in S.
  destruct (S eq_refl) as (Mk & url & zip & members & Du & Uo & Zm & _).
  split; [exact Mk|]. exists url, zip, members. repeat split; auto.
  assert (Ok4 : fst (download_from_github e self w3) = true) by now rewrite E4.
  destruct (fetch_staged e self w3 url zip members Ok4 Du Uo Zm) as (T4 & D4).
  rewrite E4 in T4, D4. cbn [snd] in T4, D4.
  intros X. rewrite <- (extracted_dirs_fs_temp w4) in X by exact T4.
  assert (B : install_body (log (Call Install) w4) =
              (Ok false, log (Print LError MsgNoDirInArchive) (log (Call Install) w4))).
  { apply install_body_no_dirs; [exact D4 | | exact X].
    change (fs_temp (log (Call Install) w4)) with (fs_temp w4). rewrite T4.
    apply staged_is_dir. }
  unfold install_files, traced, try_except in E5. rewrite B in E5. discriminate.
Qed.

Lemma success_requires_witness :
  mkdtemp_ok (Sample.online Sample.bundle) = true.
Proof.
  apply (success_requires (Sample.online Sample.bundle)
           (mkInstaller Sample.repo false true) (Some Sample.plain)).
  reflexivity.
Defined.

(** X20: the last thing a successful run prints tells where the backup is,
    exactly when backup is enabled, also when there was nothing to back up;
    with --no-backup the run ends on the pointer to the documentation. *)
Theorem post_install_reports_backup e self target :
  fst (main e self target) = 0 ->
  hd_error (events (snd (main e self target))) =
  Some (Print LPlain (if backup self then MsgBackupSavedAt else MsgDocumentation)) /\
  backup_dir (snd (main e self target)) =
  (if backup self then Some (backup_name (now e)) else None).
Proof.
  intros Ok0. rewrite main_fst in Ok0. rewrite main_snd.
  destruct (install_run e self (init_world target)) as (o & Hrun & Hres).
  rewrite Hres in Ok0.
  assert (o = Installed) by (destruct o; simpl in Ok0; try discriminate; reflexivity).
  subst o. clear Ok0 Hres.
  remember (snd (install e self (init_world target))) as w' eqn:Ew. clear Ew.
  pose proof Hrun as Hrun'.
  inversion Hrun as [| | | | |w1 w2 w3 w4 w5 E1 E2 E3 E4 E5]; subst.
  destruct (before_fetch _ _ _ _ _ _ E1 E2 E3) as (_ & _ & _ & B3).
  destruct (after_backup_frame _ _ _ _ _ _ _ _ E1 E2 E3 Hrun') as (Bd & _).
  rewrite B3 in Bd.
  destruct (print_post_install_state (cleanup w5)) as (_ & _ & P).
  rewrite P in Bd. split; [|now rewrite P].
  unfold print_post_install, print, print_header. cbv zeta.
  cbn [log backup_dir]. rewrite Bd. destruct (backup self); reflexivity.
Qed.

Lemma post_install_reports_backup_witness :
  hd_error (events (snd (main (Sample.online Sample.bundle)
                           (mkInstaller Sample.repo false true)
                           (Some Sample.plain)))) =
  Some (Print LPlain MsgBackupSavedAt).
Proof.
  apply (post_install_reports_backup (Sample.online Sample.bundle)
           (mkInstaller Sample.repo false true) (Some Sample.plain)).
  reflexivity.
Defined.

(** ** An archive without a directory at its top *)

Lemma filter_none {A} (f : A -> bool) l :
  (forall x, In x l -> f x = false) -> filter f l = [].
Proof.
  induction l as [|a l IH]; simpl; intros H; [reflexivity|].
  rewrite (H a) by now left. apply IH. intros x I. apply H. now right.
Qed.

Lemma upsert_files x v es :
  is_file_entry (x, v) = true ->
  Forall (fun m => is_file_entry m = true) es ->
  Forall (fun m => is_file_entry m = true) (upsert x v es).
Proof.
  intros Hv. induction 1 as [|[y u] es Hy Hes IH]; simpl.
  - constructor; [exact Hv | constructor].
  - destruct (String.eqb x y); constructor; auto.
Qed.

Lemma extract_files members : forall es,
  Forall (fun m => is_file_entry m = true) members ->
  Forall (fun m => is_file_entry m = true) es ->
  Forall (fun m => is_file_entry m = true) (fst (extract_members members es)).
Proof.
  induction members as [|[x v] members IH]; simpl; intros es Hm He; [exact He|].
  inversion Hm as [|? ? Hv Hm']; subst.
  destruct v as [d|c]; [|discriminate].
  destruct (assoc x es) as [[d'|c']|];
    try (apply IH; [assumption | now apply upsert_files]).
  exact He.
Qed.

Lemma assoc_file x es n :
  Forall (fun m => is_file_entry m = true) es ->
  assoc x es = Some n -> exists d, n = File d.
Proof.
  induction 1 as [|[y u] es Hy Hes IH]; simpl; [discriminate|].
  destruct (String.eqb x y); [|exact IH].
  intros [= <-]. destruct u as [d|cs]; [eauto | discriminate].
Qed.

Lemma extracted_dirs_flat w es :
  fs_temp w = Some (Dir es) -> Forall (fun m => is_file_entry m = true) es ->
  extracted_dirs w = [].
Proof.
  intros T F. unfold extracted_dirs. rewrite T. apply filter_none.
  intros p I. apply in_map_iff in I. destruct I as (x & <- & _).
  unfold is_dir, wlookup. cbn [fst snd temp_path subpath app area].
  rewrite T, lookup_cons. cbn [lookup].
  destruct (assoc (fst x) es) as [n|] eqn:A; [|reflexivity].
  destruct (assoc_file _ _ _ F A) as [d ->]. reflexivity.
Qed.

Lemma staged_flat zip members :
  forallb is_file_entry members = true -> extracted_dirs (staged zip members) = [].
Proof.
  intros F. eapply extracted_dirs_flat; [reflexivity|].
  apply extract_files; [|constructor; [reflexivity | constructor]].
  apply Forall_forall. now apply forallb_forall.
Qed.

Lemma install_files_no_dirs w :
  temp_dir w = true -> (exists es, fs_temp w = Some (Dir es)) ->
  extracted_dirs w = [] ->
  install_files w =
  (false, log (Ret Install (Some false))
            (log (Print LError MsgNoDirInArchive) (log (Call Install) w))).
Proof.
  intros Td T X. unfold install_files, traced, try_except.
  now rewrite (install_body_no_dirs (log (Call Install) w) Td T X).
Qed.

(** X21: an archive whose top-level members are all regular files (no
    directory such as repo-main/ at its top) cannot be installed:
    [install_files] reports that no directory was found and returns [False]
    without a call that writes to the file system, whatever the members are;
    a run that downloads such an archive exits with code 1. *)
Theorem flat_archive_is_rejected e self target url zip members :
  download_url (github_url self) = Some url ->
  urlopen e url = Downloaded zip ->
  zip_members e zip = Unzipped members ->
  forallb is_file_entry members = true ->
  fst (main e self target) = 1 /\
  forall w, temp_dir w = true -> fs_temp w = fs_temp (staged zip members) ->
    install_files w =
    (false, log (Ret Install (Some false))
              (log (Print LError MsgNoDirInArchive) (log (Call Install) w))).
Proof.
  intros Du Uo Zm F.
  assert (I : forall w, temp_dir w = true -> fs_temp w = fs_temp (staged zip members) ->
                install_files w =
                (false, log (Ret Install (Some false))
                          (log (Print LError MsgNoDirInArchive) (log (Call Install) w)))).
  { intros w Td T. apply install_files_no_dirs; [exact Td | |].
    - rewrite T. apply staged_is_dir.
    - rewrite (extracted_dirs_fs_temp w (staged zip members) T). now apply staged_flat. }
  split; [|exact I].
  rewrite main_fst.
  destruct (install_run e self (init_world target)) as (o & Hrun & Hres).
  rewrite Hres. clear Hres.
  destruct o; try reflexivity. exfalso.
  inversion Hrun as [| | | | |w1 w2 w3 w4 w5 E1 E2 E3 E4 E5]; subst.
  assert (Ok4 : fst (download_from_github e self w3) = true) by now rewrite E4.
  destruct (fetch_staged e self w3 url zip members Ok4 Du Uo Zm) as (T4 & D4).
  rewrite E4 in T4, D4. cbn [snd] in T4, D4.
  rewrite (I w4 D4 T4) in E5. discriminate.
Qed.

Lemma flat_archive_is_rejected_witness :
  fst (main (Sample.online [("README.md", File "readme")])
         (mkInstaller Sample.repo false true) (Some Sample.plain)) = 1.
Proof.
  apply (flat_archive_is_rejected (Sample.online [("README.md", File "readme")])
           (mkInstaller Sample.repo false true) (Some Sample.plain)
           "https://github.com/user/copilot-agents/archive/refs/heads/main.zip"
           "PK" [("README.md", File "readme")]); reflexivity.
Defined.

(** ** A failure in the marker part of install_files *)

(** X22: [install_files] is one [try] block: when the part that installs
    the marker file raises ([.github] is a regular file in the target, or
    the archive's copilot-instructions.md is a directory, ...),
    [install_files] returns [False] without reaching the directory part, and
    everything in the target outside [.github], the old [.copilot] directory
    included, is what it was. *)
Theorem install_stops_at_marker_failure w src rest ex w1 :
  temp_dir w = true ->
  extracted_dirs w = src :: rest ->
  install_marker src (log (Call Install) w) = (Raise ex, w1) ->
  install_files w =
    (false, log (Ret Install (Some false)) (print_error MsgInstallError w1)) /\
  forall x q, x <> ".github" ->
    lookup (x :: q) (fs_target (snd (install_files w))) = lookup (x :: q) (fs_target w).
Proof.
  intros Td X E.
  assert (I : install_files w =
              (false, log (Ret Install (Some false)) (print_error MsgInstallError w1))).
  { unfold install_files, traced, try_except.
    rewrite (install_body_source _ src rest) by assumption.
    now rewrite (bind_raise _ _ _ _ _ E). }
  split; [exact I|]. intros x q N. rewrite I.
  pose proof (install_marker_touches src (log (Call Install) w)) as (_ & _ & _ & F).
  rewrite E in F. cbn [snd] in F |- *.
  change (fs_target (log (Ret Install (Some false)) (print_error MsgInstallError w1)))
    with (fs_target w1).
  rewrite F by (simpl; intuition congruence). reflexivity.
Qed.

Lemma install_stops_at_marker_failure_witness :
  let archive :=
    [("copilot-agents-main",
      Dir [("copilot-instructions.md", Dir []);
           (".copilot", Dir [("agents", Dir [("a.md", File "agent a")])])])] in
  let w := snd (download_from_github (Sample.online archive)
                  (mkInstaller Sample.repo true false)
                  (init_world (Some Sample.installed))) in
  lookup [".copilot"] (fs_target (snd (install_files w))) =
  Some (Dir [("agents", Dir [("old.md", File "old agent")])]).
Proof.
  intros archive w.
  pose proof (install_stops_at_marker_failure w
                (TempDir, ["copilot-agents-main"]) [] IsADirectoryError
                (snd (install_marker (TempDir, ["copilot-agents-main"])
                        (log (Call Install) w)))
                eq_refl eq_refl eq_refl) as [_ H].
  rewrite (H ".copilot" []); [reflexivity | discriminate].
Defined.

(** ** A backup name that is in use *)

(** A [copy2] that returned is one store of the content of the source. *)
Lemma copy2_ok_store src dst w w' :
  copy2 src dst w = (Ok tt, w') ->
  exists d o',
    store (snd (if is_dir dst w then dst // basename src else dst))
      (Some (File d))
      (area (fst (if is_dir dst w then dst // basename src else dst)) w) = Some o' /\
    w' = set_area (fst (if is_dir dst w then dst // basename src else dst)) o'
           (log (Op (OpCopy2 src dst)) w).
Proof.
  unfold copy2, bind, modify, get, raise.
  set (w0 := log (Op (OpCopy2 src dst)) w).
  change (is_dir dst w0) with (is_dir dst w).
  set (dst' := if is_dir dst w then dst // basename src else dst).
  cbv beta iota zeta.
  destruct (path_eqb src dst' && exists_ src w0); [discriminate|].
  destruct (wlookup src w0) as [[d|cs]|]; try discriminate.
  destruct (is_dir dst' w0); [discriminate|].
  unfold wstore. change (area (fst dst') w0) with (area (fst dst') w).
  destruct (store _ _ _) as [o'|] eqn:S; [|discriminate].
  intros [= <-]. eauto.
Qed.

(** A [copytree] that returned found no destination. *)
Lemma copytree_ok_fresh src dst w w' :
  copytree src dst w = (Ok tt, w') -> wlookup dst w = None.
Proof.
  unfold copytree, bind, modify, get, raise.
  set (w0 := log (Op (OpCopytree src dst)) w).
  destruct (wlookup src w0) as [[d|es]|]; try discriminate.
  unfold exists_. change (wlookup dst w0) with (wlookup dst w).
  destruct (wlookup dst w); [discriminate | reflexivity].
Qed.

(** X23: a backup directory of the same name left by an earlier run (two
    runs within the same second, or a clock that stands still) makes the
    backup step fail when it already holds a [.copilot] and the target has
    one to save: [mkdir(exist_ok=True)] accepts the directory, [copytree]
    does not overwrite; a regular file of that name makes [mkdir] itself
    fail.  In both cases [create_backup] returns [False]. *)
Theorem backup_name_in_use e self w es :
  backup self = true ->
  fs_target w = Some (Dir es) ->
  (exists d, assoc (backup_name (now e)) es = Some (File d)) \/
  (exists bk old c,
     assoc (backup_name (now e)) es = Some (Dir bk) /\
     assoc ".copilot" bk = Some old /\
     assoc ".copilot" es = Some c) ->
  fst (create_backup e self w) = false.
Proof.
  intros B T H. unfold create_backup, traced. rewrite B. cbn [negb]. cbv zeta.
  unfold try_except.
  set (w0 := set_backup_dir (Some (backup_name (now e))) (log (Call Backup) w)).
  assert (T0 : fs_target w0 = Some (Dir es)) by exact T.
  destruct (bind (mkdir false _) _ w0) as [[b|ex] w1] eqn:Body;
    [exfalso | reflexivity].
  apply bind_inv_ok in Body. destruct Body as ([] & wA & Emk & Body).
  destruct H as [[d A] | (bk & old & c & A & Ak & Ac)].
  - (* a regular file *)
    unfold mkdir, bind, modify, mkdir_exist_ok, wlookup in Emk.
    cbn [fst snd target_dir subpath app area log fs_target] in Emk.
    rewrite T0, lookup_cons in Emk. cbn [lookup] in Emk. rewrite A in Emk.
    discriminate.
  - (* a directory that holds [.copilot] *)
    rewrite (mkdir_existing (target_dir // backup_name (now e)) w0 bk) in Emk
      by (unfold wlookup; cbn [fst snd target_dir subpath app area];
          rewrite T0, lookup_cons; exact A).
    injection Emk as <-.
    set (wA := log (Op (OpMkdir (target_dir // backup_name (now e)))) w0) in *.
    assert (TA : fs_target wA = Some (Dir es)) by exact T0.
    rewrite bind_get in Body.
    apply bind_inv_ok in Body. destruct Body as ([] & wB & Ecp & Body).
    assert (KB : lookup [backup_name (now e); ".copilot"] (fs_target wB) = Some old /\
                 lookup [".copilot"] (fs_target wB) = Some c).
    { assert (K0 : lookup [backup_name (now e); ".copilot"] (fs_target wA) = Some old /\
                   lookup [".copilot"] (fs_target wA) = Some c).
      { rewrite TA. cbn [lookup]. rewrite A. cbn [lookup]. auto. }
      destruct (exists_ (target_dir // ".github" // "copilot-instructions.md") wA);
        cbn [when] in Ecp; [|injection Ecp as <-; exact K0].
      apply bind_inv_ok in Ecp. destruct Ecp as ([] & wC & Ec & Ecp).
      injection Ecp as <-.
      change (fs_target (log (Print LSuccess MsgBackupFile) wC)) with (fs_target wC).
      destruct (copy2_ok_store _ _ _ _ Ec) as (d & o' & S & ->).
      rewrite basename_subpath in S |- *.
      destruct K0 as [K1 K2].
      destruct (is_dir _ wA);
        cbn [fst snd target_dir subpath app area set_area fs_target log] in S |- *;
        (split;
         [ rewrite <- K1 | rewrite <- K2 ];
         (eapply lookup_store_diverge; [|exact S]);
         cbn [diverge]; rewrite ?String.eqb_refl, ?not_backup_name_copilot;
         reflexivity). }
    destruct KB as [K1 K2].
    rewrite bind_get in Body.
    assert (X : exists_ (target_dir // ".copilot") wB = true).
    { unfold exists_, wlookup. cbn [fst snd target_dir subpath app area].
      now rewrite K2. }
    rewrite X in Body. cbn [when] in Body.
    apply bind_inv_ok in Body. destruct Body as ([] & wD & Ect & _).
    apply bind_inv_ok in Ect. destruct Ect as ([] & wE & Ect & _).
    apply copytree_ok_fresh in Ect. unfold wlookup in Ect.
    cbn [fst snd target_dir subpath app area] in Ect. congruence.
Qed.

Lemma backup_name_in_use_witness :
  fst (create_backup (Sample.online Sample.bundle)
         (mkInstaller Sample.repo true true)
         (init_world
            (Some (Dir [(".copilot", Dir []);
                        (backup_name Sample.clock, Dir [(".copilot", Dir [])])])))) =
  false.
Proof.
  apply (backup_name_in_use (Sample.online Sample.bundle)
           (mkInstaller Sample.repo true true)
           (init_world
              (Some (Dir [(".copilot", Dir []);
                          (backup_name Sample.clock, Dir [(".copilot", Dir [])])])))
           [(".copilot", Dir []);
            (backup_name Sample.clock, Dir [(".copilot", Dir [])])]);
    try reflexivity.
  right. exists [(".copilot", Dir [])], (Dir []), (Dir []). repeat split.
Defined.
